(** * PyIconExtractor: a shallow embedding of [icon_extractor.py]

    The script finds executables, lists the icon resources that 7-Zip sees
    in each of them, extracts the icons into a staging directory and moves
    them into the output directory under a name that is still free.

    Conventions of the embedding:
    - a Python [str] is a [string]; a character is a code point below 256,
      so the upper half of [ascii] is read as Latin-1;
    - [Path] objects are lists of components, a directory's content is a
      finite map from entry names to file contents;
    - exceptions are values of [exn], carried by [result];
    - the external collaborators (7-Zip, the shortcut resolver, the image
      sniffer, the iteration order of a hashed set) are fields of the
      record [externals]. *)

From Stdlib Require Import Ascii ZArith.
From stdpp Require Import gmap strings pretty list sorting.

Local Open Scope Z_scope.

(** ** Exceptions and fallible results

    [LoopBound] is not an exception of the script: it marks that the
    embedding's bound on the iterations of a [while] loop was reached. *)

Inductive exn : Type :=
  | IndexError
  | ValueError
  | OSError
  | FileExistsError
  | FileNotFoundError
  | SystemExit (code : Z)
  | LoopBound.

Inductive result (A : Type) : Type :=
  | Ok (a : A)
  | Raise (e : exn).
Arguments Ok {A} a.
Arguments Raise {A} e.

#[global] Instance result_ret : MRet result := λ A a, Ok a.
#[global] Instance result_bind : MBind result := λ A B f r,
  match r with
  | Ok a => f a
  | Raise e => Raise e
  end.

#[global] Instance result_fmap : FMap result := λ A B f r,
  match r with
  | Ok a => Ok (f a)
  | Raise e => Raise e
  end.

Definition is_ok {A} (r : result A) : bool :=
  match r with Ok _ => true | Raise _ => false end.

(** ** Python built-ins on strings *)

Module Py.

(** [str.isspace] on one character: the ASCII white space of CPython
    (tab to carriage return, the four separators 28..31, the blank) and the
    two Latin-1 ones, NEL and the no-break space. [str.split] and the
    regular expression class [\s] share this predicate. *)
Definition isspace (c : ascii) : bool :=
  let n := N_of_ascii c in
  ((9 <=? n) && (n <=? 13) || (28 <=? n) && (n <=? 32)
   || (n =? 133) || (n =? 160))%N.

(** [str.lower] on one character: A-Z and the Latin-1 capitals except the
    multiplication sign. *)
Definition lower_char (c : ascii) : ascii :=
  let n := N_of_ascii c in
  if ((65 <=? n) && (n <=? 90)
      || (192 <=? n) && (n <=? 222) && negb (n =? 215))%N
  then ascii_of_N (n + 32) else c.

Fixpoint lower (s : string) : string :=
  match s with
  | EmptyString => EmptyString
  | String c s' => String (lower_char c) (lower s')
  end.

(** [s.split(sep)] for a one-character separator: empty pieces are kept. *)
Fixpoint split_on (sep : ascii) (cur : string) (s : string) : list string :=
  match s with
  | EmptyString => [String.rev cur]
  | String c s' =>
      if decide (c = sep) then String.rev cur :: split_on sep EmptyString s'
      else split_on sep (String c cur) s'
  end.

Definition split_lines (s : string) : list string :=
  split_on "010"%char EmptyString s.

(** The maximal runs of characters that do not satisfy [p]; [cur] is the
    run being read, reversed. *)
Definition flush (cur : string) : list string :=
  match cur with
  | EmptyString => []
  | _ => [String.rev cur]
  end.

Fixpoint runs_go (p : ascii → bool) (cur : string) (s : string) : list string :=
  match s with
  | EmptyString => flush cur
  | String c s' =>
      if p c then flush cur ++ runs_go p EmptyString s'
      else runs_go p (String c cur) s'
  end.

(** [s.split()]: the runs between white space. *)
Definition split (s : string) : list string := runs_go isspace EmptyString s.

(** [l[i]] with Python's negative indices. *)
Definition getitem {A} (l : list A) (i : Z) : result A :=
  let n := Z.of_nat (length l) in
  let j := if i <? 0 then i + n else i in
  if (0 <=? j) && (j <? n) then
    match l !! Z.to_nat j with
    | Some x => Ok x
    | None => Raise IndexError
    end
  else Raise IndexError.

(** [int(s)]: optional white space, an optional sign, decimal digits with
    single underscores between them, optional white space. The interpreter
    refuses a text with more digits than its limit on the conversion of
    integers, which is 4300 unless it has been configured otherwise; the
    sign, the underscores and the white space do not count. *)
Definition digit_val (c : ascii) : option Z :=
  let n := N_of_ascii c in
  if ((48 <=? n) && (n <=? 57))%N then Some (Z.of_N n - 48) else None.

Definition int_max_str_digits : N := 4300.

Fixpoint count_digits (s : string) : N :=
  match s with
  | EmptyString => 0
  | String c s' =>
      match digit_val c with Some _ => 1 | None => 0 end + count_digits s'
  end%N.

Fixpoint all_space (s : string) : bool :=
  match s with
  | EmptyString => true
  | String c s' => isspace c && all_space s'
  end.

Fixpoint int_digits (acc : Z) (s : string) : option Z :=
  match s with
  | EmptyString => Some acc
  | String c s' =>
      match digit_val c with
      | Some d => int_digits (10 * acc + d) s'
      | None =>
          if decide (c = "_"%char) then
            match s' with
            | String c' s'' =>
                match digit_val c' with
                | Some d => int_digits (10 * acc + d) s''
                | None => None
                end
            | EmptyString => None
            end
          else if all_space s then Some acc else None
      end
  end.

Definition int_unsigned (s : string) : option Z :=
  match s with
  | String c s' =>
      match digit_val c with
      | Some d => int_digits d s'
      | None => None
      end
  | EmptyString => None
  end.

Fixpoint lstrip (s : string) : string :=
  match s with
  | String c s' => if isspace c then lstrip s' else s
  | EmptyString => EmptyString
  end.

Definition int (s : string) : result Z :=
  let parsed :=
    match lstrip s with
    | String "-" s' => Z.opp <$> int_unsigned s'
    | String "+" s' => int_unsigned s'
    | s' => int_unsigned s'
    end in
  match parsed with
  | Some z =>
      if (count_digits s <=? int_max_str_digits)%N then Ok z
      else Raise ValueError
  | None => Raise ValueError
  end.

End Py.

(** ** The regular expression of the Resource Lister

    [re.search(r".+[\/\\]ICON[\/\\]\S+", line)]: somewhere in the line, one
    character that is not a line feed (what [.+] needs at least), a
    separator, the text ICON, a separator and one character that is not
    white space (what [\S+] needs at least). *)

Definition is_sep (c : ascii) : bool :=
  bool_decide (c = "/"%char) || bool_decide (c = "\"%char).

Definition icon_segment_at (s : string) : bool :=
  match s with
  | String c0 (String "I" (String "C" (String "O" (String "N"
      (String c1 (String c2 _)))))) =>
      is_sep c0 && is_sep c1 && negb (Py.isspace c2)
  | _ => false
  end.

Fixpoint re_search_icon (s : string) : bool :=
  match s with
  | EmptyString => false
  | String c s' =>
      negb (bool_decide (c = "010"%char)) && icon_segment_at s'
      || re_search_icon s'
  end.

(** ** The Resource Lister: parsing and sorting *)

(** An icon entry: the path inside the executable and its size. *)
Definition icon_entry : Type := string * Z.

(** The stable sort of [list.sort(key=lambda entry: entry[1], reverse=True)],
    as insertions from the right: an entry goes in front of the first
    entry that is not larger, so it stays in front of the equal entries that
    followed it. *)
Fixpoint insert_desc (e : icon_entry) (l : list icon_entry) : list icon_entry :=
  match l with
  | [] => [e]
  | x :: l' => if x.2 <=? e.2 then e :: l else x :: insert_desc e l'
  end.

Fixpoint sort_by_size_desc (l : list icon_entry) : list icon_entry :=
  match l with
  | [] => []
  | e :: l' => insert_desc e (sort_by_size_desc l')
  end.

(** The body of the loop over the lines: [None] is the [continue]. *)
Definition parse_line (line : string) : result (option icon_entry) :=
  if re_search_icon line then
    let fields := Py.split line in
    icon_file_path ← Py.getitem fields (-1);
    size_field ← Py.getitem fields (-3);
    icon_file_size ← Py.int size_field;
    mret (Some (icon_file_path, icon_file_size))
  else mret None.

Fixpoint parse_lines (lines : list string) (icon_files : list icon_entry)
    : result (list icon_entry) :=
  match lines with
  | [] => mret icon_files
  | line :: rest =>
      e ← parse_line line;
      parse_lines rest (icon_files ++ option_list e)
  end.

(** What [find_icons_in_exe] does with the captured standard output once
    the exit status is known to be zero. *)
Definition parse_listing (output : string) : result (list icon_entry) :=
  icon_files ← parse_lines (Py.split_lines output) [];
  mret (sort_by_size_desc icon_files).

(** ** Paths

    A [Path] is the list of its components. [pathlib] of the interpreters
    that still ship [imghdr] (up to 3.12) computes suffix and stem from
    the last dot of the name, which counts when it is neither the first
    nor the last character. *)

Abbreviation path := (list string).

Module Pathlib.

Definition name (p : path) : string := default EmptyString (last p).

(** [str.rfind('.')] *)
Fixpoint rfind_dot (s : string) : option nat :=
  match s with
  | EmptyString => None
  | String c s' =>
      match rfind_dot s' with
      | Some i => Some (S i)
      | None => if decide (c = "."%char) then Some 0%nat else None
      end
  end.

Definition suffix_index (nm : string) : option nat :=
  match rfind_dot nm with
  | Some i =>
      if ((0 <? i) && (i <? String.length nm - 1))%nat then Some i else None
  | None => None
  end.

Definition suffix (nm : string) : string :=
  match suffix_index nm with
  | Some i => String.substring i (String.length nm - i) nm
  | None => EmptyString
  end.

Definition stem (nm : string) : string :=
  match suffix_index nm with
  | Some i => String.substring 0 i nm
  | None => nm
  end.

(** [with_suffix] for a name (not empty) and a suffix that is a dot and
    an extension. *)
Definition with_suffix (nm sfx : string) : string :=
  stem nm +:+ sfx.

(** [Path(s).name] for the text of an entry path: the last component
    between separators that is neither empty nor a single dot, the empty
    string when there is none. Drive prefixes are not modelled. *)
Definition parts (s : string) : list string :=
  filter (λ c, c ≠ "."%string)
    (Py.runs_go (λ c, bool_decide (c = "/"%char) || bool_decide (c = "\"%char))
       EmptyString s).

Definition name_of_text (s : string) : string := name (parts s).

End Pathlib.

(** ** The world of a run *)

(** What [imghdr.what] can answer. *)
Inductive image_format : Type :=
  | Rgb | Gif | Pbm | Pgm | Ppm | Tiff | Rast | Xbm | Jpeg | Bmp | Png
  | Webp | Exr.

Definition format_name (f : image_format) : string :=
  match f with
  | Rgb => "rgb" | Gif => "gif" | Pbm => "pbm" | Pgm => "pgm"
  | Ppm => "ppm" | Tiff => "tiff" | Rast => "rast" | Xbm => "xbm"
  | Jpeg => "jpeg" | Bmp => "bmp" | Png => "png" | Webp => "webp"
  | Exr => "exr"
  end.

Inductive node_kind : Type := IsFile | IsDir.

#[global] Instance node_kind_eq_dec : EqDecision node_kind.
Proof. solve_decision. Defined.

(** The collaborators of the script. The file system the Path Collector
    reads is a snapshot: the kind of every path that exists. The two 7-Zip
    commands answer with their exit status and, for the extraction, the
    bytes of the entry that a zero status has written under the entry's
    base name. Both commands are taken to start and to return: a program
    path that cannot be executed makes [subprocess.run] raise instead of
    returning, and such a call has no counterpart here. *)
Record externals : Type := Externals {
  input_fs : gmap path node_kind;
  resolve : path → path;
  shortcut_target : path → path;
  set_order : gset path → list path;
  set_order_perm : ∀ s, set_order s ≡ₚ elements s;
  which_7z : option path;
  seven_zip_list : path → path → Z * string;
  seven_zip_extract : path → path → string → Z * string;
  imghdr_what : string → option image_format;
}.

(** One line of the standard output, by the [print] that writes it; the
    arguments are the values that the line interpolates. *)
Inductive message : Type :=
  | MsgStarted                (* Program started. *)
  | MsgSevenZipNotFound       (* Failed to find 7zip program. ... *)
  | MsgFinished               (* Program finished. *)
  | MsgNoFileAtPath (p : path)
                              (* No file exists at given path. Skipping p. *)
  | MsgListFailed (exe : path)
                              (* Failed to list file contents, skipping exe. *)
  | MsgExtractFailed (inner : string) (exe : path)
                              (* Failed to extract icon file inner from exe. *)
  | MsgGuessing               (* Guessing file extension from file header. *)
  | MsgGuessFailed (extracted : path)
                              (* Failed to guess file extension for ... *)
  | MsgExtracting (file_index : nat) (inner : string) (size : Z)
                              (* (i) Extracting icon named inner (size bytes). *)
  | MsgFailedToExtract        (* Failed to extract icon. *)
  | MsgSaving (target : path) (* Saving icon to: target *)
  | MsgInputPaths             (* Input paths: *)
  | MsgInputPath (i : nat) (p : path)
  | MsgFoundPaths             (* Found executable paths: *)
  | MsgFoundPath (i : nat) (p : path)
  | MsgExtractingIcons        (* Extracting icons from files... *)
  | MsgExecutable (file_index : nat) (exe : path)
  | MsgNoIcons                (* No icon files found. *)
  | MsgSummary (num_icons : nat) (num_files : nat).
                              (* Extracted n icons from m files. *)

(** The entries of the output directory other than [temp-output] (name
    to content), the staging directory [temp-output] inside it ([None]
    while nothing exists under that name) and what has been printed. *)
Record world : Type := World {
  out_dir : gmap string string;
  temp_output : option (gmap string string);
  stdout : list message;
}.

Definition set_out_dir (f : gmap string string → gmap string string)
    (w : world) : world :=
  World (f (out_dir w)) (temp_output w) (stdout w).

Definition set_temp_output
    (f : option (gmap string string) → option (gmap string string))
    (w : world) : world :=
  World (out_dir w) (f (temp_output w)) (stdout w).

(** Computations that change the world and may raise. *)
Definition M (A : Type) : Type := world → result A * world.

#[global] Instance M_ret : MRet M := λ A a w, (Ok a, w).
#[global] Instance M_bind : MBind M := λ A B f m w,
  match m w with
  | (Ok a, w') => f a w'
  | (Raise e, w') => (Raise e, w')
  end.

Definition raise {A} (e : exn) : M A := λ w, (Raise e, w).
Definition lift {A} (r : result A) : M A := λ w, (r, w).
Definition print (m : message) : M () :=
  λ w, (Ok (), World (out_dir w) (temp_output w) (stdout w ++ [m])).
Definition modify (f : world → world) : M () := λ w, (Ok (), f w).
Definition get_world : M world := λ w, (Ok w, w).

Fixpoint print_enumerated (mk : nat → path → message) (i : nat)
    (ps : list path) : M () :=
  match ps with
  | [] => mret ()
  | p :: rest => print (mk i p);; print_enumerated mk (S i) rest
  end.

(** The arguments as [argparse] hands them over; it hands over at least
    one path. *)
Record cli_args : Type := CliArgs {
  arg_seven_zip : option path;
  arg_output : option path;
  arg_recursive : bool;
  arg_largest : bool;
  arg_paths : list path;
}.

(** ** The script *)

Section script.
Context (E : externals).

Definition path_exists (p : path) : bool :=
  bool_decide (is_Some (input_fs E !! p)).
Definition is_dir (p : path) : bool :=
  bool_decide (input_fs E !! p = Some IsDir).
Definition is_file (p : path) : bool :=
  bool_decide (input_fs E !! p = Some IsFile).

Definition try_find_7zip : option path :=
  match which_7z E with
  | Some path_7zip => Some path_7zip
  | None =>
      if path_exists ["C:"; "Program Files"; "7-Zip"; "7z.exe"]%string
      then Some ["C:"; "Program Files"; "7-Zip"; "7z.exe"]%string
      else if path_exists ["C:"; "Program Files (x86)"; "7-Zip"; "7z.exe"]%string
      then Some ["C:"; "Program Files (x86)"; "7-Zip"; "7z.exe"]%string
      else None
  end.

(** *** Path Collector *)

(** [path.glob("*")]: the entries of the directory. *)
Definition glob_star (p : path) : gset path :=
  filter (λ q, p `prefix_of` q ∧ length q = S (length p)) (dom (input_fs E)).

(** [path.glob("**/*")]: the entries at any depth below the directory. *)
Definition glob_star_star (p : path) : gset path :=
  filter (λ q, p `prefix_of` q ∧ q ≠ p) (dom (input_fs E)).

Definition filtered_generator (recursive_search : bool) (p : path) : gset path :=
  if is_dir p then
    filter (λ subpath, is_file subpath = true)
      (if recursive_search then glob_star_star p else glob_star p)
  else {[ p ]}.

Definition lower_suffix (p : path) : string :=
  Py.lower (Pathlib.suffix (Pathlib.name p)).

(** The body of the inner loop: what one candidate adds to the result. *)
Definition collect (file_extensions : gset string) (resolve_shortcuts : bool)
    (subpath : path) : gset path :=
  if bool_decide (lower_suffix subpath ∈ file_extensions) then {[ subpath ]}
  else if resolve_shortcuts && bool_decide (lower_suffix subpath = ".lnk"%string) then
    let target_path := shortcut_target E subpath in
    if bool_decide (lower_suffix target_path ∈ file_extensions)
    then {[ target_path ]} else ∅
  else ∅.

Fixpoint find_files_loop (paths : list path) (file_extensions : gset string)
    (recursive_search resolve_shortcuts : bool)
    (filtered_file_paths : gset path) : M (gset path) :=
  match paths with
  | [] => mret filtered_file_paths
  | p :: rest =>
      if path_exists p then
        find_files_loop rest file_extensions recursive_search resolve_shortcuts
          (filtered_file_paths ∪
           set_bind (collect file_extensions resolve_shortcuts)
             (filtered_generator recursive_search p))
      else
        print (MsgNoFileAtPath p);;
        find_files_loop rest file_extensions recursive_search resolve_shortcuts
          filtered_file_paths
  end.

Definition find_files_with_extensions (paths : list path)
    (file_extensions : gset string)
    (recursive_search resolve_shortcuts : bool) : M (gset path) :=
  find_files_loop paths file_extensions recursive_search resolve_shortcuts ∅.

(** *** Resource Lister *)

Definition find_icons_in_exe (path_7zip exe_path : path) : M (list icon_entry) :=
  let '(returncode, output) := seven_zip_list E path_7zip exe_path in
  if decide (returncode ≠ 0) then
    print (MsgListFailed exe_path);;
    mret []
  else lift (parse_listing output).

(** *** Resource Extractor *)

(** A name that makes [output_dir_path / name] a directory: the staging
    directory itself or its parent. *)
Definition denotes_directory (nm : string) : bool :=
  bool_decide (nm = EmptyString) || bool_decide (nm = ".."%string).

(** The extract command: a zero status has written the entry under its
    base name into the staging directory, which 7-Zip creates when needed. *)
Definition run_extract_cmd (path_7zip exe_path : path)
    (inner_icon_file_path : string) : M Z :=
  let '(returncode, data) :=
    seven_zip_extract E path_7zip exe_path inner_icon_file_path in
  let nm := Pathlib.name_of_text inner_icon_file_path in
  (if (returncode =? 0) && negb (denotes_directory nm) then
     modify (set_temp_output (λ d, Some (<[nm := data]> (default ∅ d))))
   else mret ());;
  mret returncode.

(** [imghdr.what(path)] opens the file and looks at its header. *)
Definition imghdr_what_file (nm : string) : M (option image_format) :=
  w ← get_world;
  if denotes_directory nm then raise OSError
  else
    match temp_output w ≫= (.!! nm) with
    | Some data => mret (imghdr_what E data)
    | None => raise FileNotFoundError
    end.

(** [Path.rename] inside the staging directory, with the behaviour of
    Windows when the target exists. *)
Definition rename (old new : string) : M string :=
  w ← get_world;
  match temp_output w ≫= (.!! old) with
  | None => raise FileNotFoundError
  | Some data =>
      if bool_decide (is_Some (temp_output w ≫= (.!! new)))
      then raise FileExistsError
      else
        modify (set_temp_output (fmap (λ d, <[new := data]> (delete old d))));;
        mret new
  end.

(** The result is the name of the staged file: [output_dir_path / name]
    has the base name of the entry as its name, and so the suffix of the
    one is the suffix of the other. When the entry has no base name the
    path is the staging directory itself; the staging directory is read as
    one whose name has no suffix, which is so for the [temp-output] of
    every run: the sniffer is then asked to open a directory. A staging
    directory with a suffix in its name, which the script never makes, is
    outside the embedding when the entry has no base name. *)
Definition extract_icon_from_exe (path_7zip exe_path : path)
    (inner_icon_file_path : string) (output_dir_path : path)
    : M (option string) :=
  returncode ← run_extract_cmd path_7zip exe_path inner_icon_file_path;
  if decide (returncode ≠ 0) then
    print (MsgExtractFailed inner_icon_file_path exe_path);;
    mret None
  else
    let extracted_file_path := Pathlib.name_of_text inner_icon_file_path in
    if decide (Py.lower (Pathlib.suffix extracted_file_path) = EmptyString) then
      print MsgGuessing;;
      extension ← imghdr_what_file extracted_file_path;
      match extension with
      | Some fmt =>
          extracted_file_path ←
            rename extracted_file_path
              (Pathlib.with_suffix extracted_file_path
                 ("." +:+ format_name fmt));
          mret (Some extracted_file_path)
      | None =>
          print (MsgGuessFailed (output_dir_path ++ [extracted_file_path]));;
          mret None
      end
    else mret (Some extracted_file_path).

(** *** Extraction Orchestrator *)

(** The [while target_path.exists()] loop on the name of the target;
    [fuel] bounds the iterations. *)
Fixpoint free_target_loop (fuel : nat) (out : gmap string string)
    (original_stem : string) (i : nat) (target : string) : option string :=
  match out !! target with
  | None => Some target
  | Some _ =>
      match fuel with
      | O => None
      | S fuel' =>
          let i := S i in
          free_target_loop fuel' out original_stem i
            (original_stem +:+ " (" +:+ pretty i +:+ ")"
               +:+ Pathlib.suffix target)
      end
  end.

Definition free_target (target : string) : M string :=
  w ← get_world;
  match free_target_loop (3 + size (out_dir w)) (out_dir w)
          (Pathlib.stem target) 1 target with
  | Some t => mret t
  | None => raise LoopBound
  end.

(** [shutil.move] from the staging directory to a name of the output
    directory: a rename, or a copy over the target when it exists. *)
Definition shutil_move (icon target : string) : M () :=
  w ← get_world;
  match temp_output w ≫= (.!! icon) with
  | None => raise FileNotFoundError
  | Some data =>
      modify (set_out_dir (insert target data));;
      modify (set_temp_output (fmap (delete icon)))
  end.

Fixpoint extract_icons_loop (path_7zip exe_file_path : path)
    (file_index : nat) (icon_files : list icon_entry)
    (output_dir_path temp_output_dir_path : path)
    (extract_largest_only : bool) (num_icons : nat) : M nat :=
  match icon_files with
  | [] => mret num_icons
  | (inner_icon_file_path, icon_file_size) :: rest =>
      print (MsgExtracting file_index inner_icon_file_path icon_file_size);;
      icon_path ← extract_icon_from_exe path_7zip exe_file_path
                    inner_icon_file_path temp_output_dir_path;
      match icon_path with
      | None =>
          print MsgFailedToExtract;;
          extract_icons_loop path_7zip exe_file_path (S file_index) rest
            output_dir_path temp_output_dir_path extract_largest_only num_icons
      | Some icon =>
          target ← free_target
                     (Pathlib.stem (Pathlib.name exe_file_path)
                        +:+ Pathlib.suffix icon);
          print (MsgSaving (output_dir_path ++ [target]));;
          shutil_move icon target;;
          let num_icons := S num_icons in
          if extract_largest_only then mret num_icons
          else
            extract_icons_loop path_7zip exe_file_path (S file_index) rest
              output_dir_path temp_output_dir_path extract_largest_only
              num_icons
      end
  end.

Definition extract_icons (path_7zip exe_file_path : path)
    (icon_files : list icon_entry)
    (output_dir_path temp_output_dir_path : path)
    (extract_largest_only : bool) : M nat :=
  extract_icons_loop path_7zip exe_file_path 1 icon_files
    output_dir_path temp_output_dir_path extract_largest_only 0.

(** *** Run Controller *)

Definition send2trash_temp_output : M () :=
  modify (set_temp_output (λ _, None)).

(** [mkdir(parents=True)] *)
Definition mkdir_temp_output : M () :=
  w ← get_world;
  match temp_output w with
  | Some _ => raise FileExistsError
  | None => modify (set_temp_output (λ _, Some ∅))
  end.

Definition rmdir_temp_output : M () :=
  w ← get_world;
  match temp_output w with
  | None => raise FileNotFoundError
  | Some d =>
      if decide (d = ∅) then modify (set_temp_output (λ _, None))
      else raise OSError
  end.

Fixpoint process_executables (path_7zip : path) (file_index : nat)
    (exe_file_paths : list path) (output_dir_path temp_output_dir_path : path)
    (extract_largest_only : bool) (num_icons : nat) : M nat :=
  match exe_file_paths with
  | [] => mret num_icons
  | exe_file_path :: rest =>
      print (MsgExecutable file_index exe_file_path);;
      icon_files ← find_icons_in_exe path_7zip exe_file_path;
      if decide (length icon_files = 0%nat) then
        print MsgNoIcons;;
        process_executables path_7zip (S file_index) rest output_dir_path
          temp_output_dir_path extract_largest_only num_icons
      else
        n ← extract_icons path_7zip exe_file_path icon_files output_dir_path
              temp_output_dir_path extract_largest_only;
        process_executables path_7zip (S file_index) rest output_dir_path
          temp_output_dir_path extract_largest_only (num_icons + n)%nat
  end.

(** The executables that a run works on: the Path Collector is called with
    the two flags left at their defaults. *)
Definition found_executables (input_paths : list path) : M (gset path) :=
  find_files_with_extensions input_paths {[ ".exe"%string ]} true true.

Definition run_extraction (path_7zip : path) (input_paths : list path)
    (output_dir_path : path) (extract_largest_only : bool) : M () :=
  let input_paths := resolve E <$> input_paths in
  print MsgInputPaths;;
  print_enumerated MsgInputPath 1 input_paths;;
  exe_file_paths ← found_executables input_paths;
  let exe_file_paths := set_order E exe_file_paths in
  print MsgFoundPaths;;
  print_enumerated MsgFoundPath 1 exe_file_paths;;
  let temp_output_dir_path := output_dir_path ++ ["temp-output"%string] in
  w ← get_world;
  (if bool_decide (is_Some (temp_output w)) then send2trash_temp_output
   else mret ());;
  mkdir_temp_output;;
  print MsgExtractingIcons;;
  num_icons ← process_executables path_7zip 1 exe_file_paths output_dir_path
                temp_output_dir_path extract_largest_only 0;
  rmdir_temp_output;;
  print (MsgSummary num_icons (length exe_file_paths)).

(** *** Main *)

Definition main (args : cli_args) : M () :=
  print MsgStarted;;
  path_7zip ←
    match arg_seven_zip args with
    | Some p => mret p
    | None =>
        match try_find_7zip with
        | Some p => mret p
        | None => print MsgSevenZipNotFound;; raise (SystemExit 1)
        end
    end;
  let output_dir_path :=
    default (resolve E ["."; "icons"]%string) (arg_output args) in
  let recursive_search := arg_recursive args in
  let extract_largest_only := arg_largest args in
  let input_paths := arg_paths args in
  run_extraction path_7zip input_paths output_dir_path extract_largest_only;;
  print MsgFinished.

End script.

(** * Vocabulary of the specification

    The predicates and functions that the statements below are written
    with, the loops as functions of the two directories, and the example
    environments. *)

(** Regular expressions, as far as the pattern of the Resource Lister
    needs them, and the texts they match: [.] is any character but a line
    feed. *)
Inductive regex : Type :=
  | ReDot
  | ReClass (p : ascii → bool)
  | ReSeq (r1 r2 : regex)
  | RePlus (r : regex).

Inductive re_match : regex → string → Prop :=
  | match_dot c :
      c ≠ "010"%char → re_match ReDot (String c EmptyString)
  | match_class p c :
      p c = true → re_match (ReClass p) (String c EmptyString)
  | match_seq r1 r2 s1 s2 :
      re_match r1 s1 → re_match r2 s2 → re_match (ReSeq r1 r2) (s1 +:+ s2)
  | match_plus_one r s :
      re_match r s → re_match (RePlus r) s
  | match_plus_more r s1 s2 :
      re_match r s1 → re_match (RePlus r) s2 →
      re_match (RePlus r) (s1 +:+ s2).

Definition re_char (c : ascii) : regex := ReClass (λ x, bool_decide (x = c)).

(** [.+[\/\\]ICON[\/\\]\S+] *)
Definition icon_regex : regex :=
  ReSeq (RePlus ReDot)
    (ReSeq (ReClass is_sep)
       (ReSeq (re_char "I")
          (ReSeq (re_char "C")
             (ReSeq (re_char "O")
                (ReSeq (re_char "N")
                   (ReSeq (ReClass is_sep)
                      (RePlus (ReClass (λ c, negb (Py.isspace c)))))))))).

(** [re.search]: some part of the text matches. *)
Definition re_search (r : regex) (s : string) : Prop :=
  ∃ pre m post, s = pre +:+ m +:+ post ∧ re_match r m.

Definition size_ge (a b : icon_entry) : Prop := b.2 ≤ a.2.

(** Decimal integers: digits only, at least one. *)
Fixpoint all_digits (s : string) : bool :=
  match s with
  | EmptyString => true
  | String c s' => bool_decide (is_Some (Py.digit_val c)) && all_digits s'
  end.

Definition is_decimal (s : string) : bool :=
  negb (bool_decide (s = EmptyString)) && all_digits s.

(** The entries that one line contributes. *)
Definition line_entries (line : string) : list icon_entry :=
  match parse_line line with
  | Ok e => option_list e
  | Raise _ => []
  end.

(** The entries in the order of the lines they were found on. *)
Definition discovered (E : externals) (path_7zip exe_path : path)
    : list icon_entry :=
  let '(returncode, output) := seven_zip_list E path_7zip exe_path in
  if decide (returncode ≠ 0) then []
  else Py.split_lines output ≫= line_entries.

(** The text has no dot. *)
Definition dot_free (s : string) : Prop := Pathlib.rfind_dot s = None.

(** A dot followed by an extension: what [Path.suffix] returns when it is
    not empty. *)
Definition proper_suffix (c : string) : Prop :=
  ∃ x, c = String "." x ∧ x ≠ EmptyString ∧ dot_free x.

(** The name that the loop probes at the value [i] of its counter when the
    suffix is [c]. *)
Definition numbered (original_stem : string) (i : nat) (c : string) : string :=
  original_stem +:+ " (" +:+ pretty i +:+ ")" +:+ c.

(** The suffix [c] comes back from every name that is built with it. *)
Definition stable (original_stem c : string) : Prop :=
  ∀ j, Pathlib.suffix (numbered original_stem j c) = c.

(** What the Resource Extractor makes of one entry, as far as the
    collaborators decide it. *)
Inductive attempt : Type :=
  | NotExtracted
  | OpensDirectory
  | NotRecognised (nm data : string)
  | Staged (nm icon data : string) (guessed : bool).

Definition attempt_of (E : externals) (path_7zip exe_path : path)
    (inner_icon_file_path : string) : attempt :=
  let '(returncode, data) :=
    seven_zip_extract E path_7zip exe_path inner_icon_file_path in
  let nm := Pathlib.name_of_text inner_icon_file_path in
  if decide (returncode ≠ 0) then NotExtracted
  else if denotes_directory nm then OpensDirectory
  else if decide (Pathlib.suffix nm = EmptyString) then
    match imghdr_what E data with
    | Some fmt => Staged nm (nm +:+ "." +:+ format_name fmt) data true
    | None => NotRecognised nm data
    end
  else Staged nm nm data false.

(** The staging directory exists and holds names without suffix only:
    what a failed sniff leaves behind. *)
Definition staging_ok (w : world) (d : gmap string string) : Prop :=
  temp_output w = Some d
  ∧ ∀ nm, is_Some (d !! nm) → Pathlib.suffix nm = EmptyString.

(** The name under which an icon is saved. *)
Definition resolved_target (out : gmap string string) (target : string)
    : string :=
  default target
    (free_target_loop (3 + size out) out (Pathlib.stem target) 1 target).

(** The world after a staged icon has been moved to [t]. *)
Definition saved_world (w : world) (d : gmap string string)
    (file_index : nat) (inner : string) (size : Z)
    (output_dir_path : path) (nm data : string) (guessed : bool)
    (t : string) : world :=
  World (<[t := data]> (out_dir w)) (Some (delete nm d))
    (stdout w ++ [MsgExtracting file_index inner size]
       ++ (if guessed then [MsgGuessing] else [])
       ++ [MsgSaving (output_dir_path ++ [t])]).

Definition is_staged (a : attempt) : bool :=
  match a with Staged _ _ _ _ => true | _ => false end.

Definition opens_directory (a : attempt) : bool :=
  match a with OpensDirectory => true | _ => false end.

Definition leaves_file (a : attempt) : bool :=
  match a with NotRecognised _ _ => true | _ => false end.

(** The entry is extracted and staged with a suffix. *)
Definition extracts (E : externals) (path_7zip exe_path : path)
    (e : icon_entry) : bool :=
  is_staged (attempt_of E path_7zip exe_path e.1).

(** The extractions announced and the targets announced in a piece of the
    standard output. *)
Definition attempted (msgs : list message) : list (nat * icon_entry) :=
  omap (λ m, match m with
             | MsgExtracting i inner size => Some (i, (inner, size))
             | _ => None
             end) msgs.

Definition saved (msgs : list message) : list path :=
  omap (λ m, match m with MsgSaving t => Some t | _ => None end) msgs.

(** [enumerate(l, start=i)] *)
Fixpoint enumerate {A} (i : nat) (l : list A) : list (nat * A) :=
  match l with
  | [] => []
  | x :: l' => (i, x) :: enumerate (S i) l'
  end.

(** A numbered variant of some name, inside the output directory. *)
Definition numbered_variant (output_dir_path t : path) : Prop :=
  ∃ original_stem k c,
    (2 ≤ k)%nat ∧ t = output_dir_path ++ [numbered original_stem k c].

(** Under [staging_ok] the world after a loop is a function of the output
    directory and the staging directory before it: its result, the two
    directories and what it has printed. The properties of the loops are
    proved on these functions. *)
Record outcome : Type := Outcome {
  o_result : result nat;
  o_out : gmap string string;
  o_staging : gmap string string;
  o_printed : list message;
}.

Definition printed_before (msgs : list message) (o : outcome) : outcome :=
  Outcome (o_result o) (o_out o) (o_staging o) (msgs ++ o_printed o).

Arguments printed_before : simpl never.

Definition world_after (w : world) (o : outcome) : result nat * world :=
  (o_result o, World (o_out o) (Some (o_staging o)) (stdout w ++ o_printed o)).

Section models.
Context (E : externals) (path_7zip : path) (output_dir_path tmp : path)
  (largest : bool).

Fixpoint loop_model (exe_path : path) (file_index : nat)
    (entries : list icon_entry) (num_icons : nat)
    (out d : gmap string string) : outcome :=
  match entries with
  | [] => Outcome (Ok num_icons) out d []
  | (inner, size) :: rest =>
      match attempt_of E path_7zip exe_path inner with
      | NotExtracted =>
          printed_before
            [MsgExtracting file_index inner size;
             MsgExtractFailed inner exe_path; MsgFailedToExtract]
            (loop_model exe_path (S file_index) rest num_icons out d)
      | OpensDirectory =>
          Outcome (Raise OSError) out d
            [MsgExtracting file_index inner size; MsgGuessing]
      | NotRecognised nm data =>
          printed_before
            [MsgExtracting file_index inner size; MsgGuessing;
             MsgGuessFailed (tmp ++ [nm]); MsgFailedToExtract]
            (loop_model exe_path (S file_index) rest num_icons out
               (<[nm := data]> d))
      | Staged nm icon data guessed =>
          let t := resolved_target out
                     (Pathlib.stem (Pathlib.name exe_path)
                        +:+ Pathlib.suffix icon) in
          printed_before
            ([MsgExtracting file_index inner size]
               ++ (if guessed then [MsgGuessing] else [])
               ++ [MsgSaving (output_dir_path ++ [t])])
            (if largest
             then Outcome (Ok (S num_icons)) (<[t := data]> out)
                    (delete nm d) []
             else loop_model exe_path (S file_index) rest (S num_icons)
                    (<[t := data]> out) (delete nm d))
      end
  end.

(** The plain names, stem of the executable and suffix of the icon, of the
    entries that the loop saves. *)
Fixpoint saved_bases (exe_path : path) (entries : list icon_entry)
    : list string :=
  match entries with
  | [] => []
  | e :: rest =>
      match attempt_of E path_7zip exe_path e.1 with
      | Staged _ icon _ _ =>
          (Pathlib.stem (Pathlib.name exe_path) +:+ Pathlib.suffix icon)
          :: (if largest then [] else saved_bases exe_path rest)
      | OpensDirectory => []
      | _ => saved_bases exe_path rest
      end
  end.

(** The answer of [find_icons_in_exe] and what it prints. *)
Definition listing_of (exe_path : path) : result (list icon_entry) :=
  let '(returncode, output) := seven_zip_list E path_7zip exe_path in
  if decide (returncode ≠ 0) then Ok [] else parse_listing output.

Definition listing_printed (exe_path : path) : list message :=
  if decide ((seven_zip_list E path_7zip exe_path).1 ≠ 0)
  then [MsgListFailed exe_path] else [].

Fixpoint process_model (file_index : nat) (exe_file_paths : list path)
    (num_icons : nat) (out d : gmap string string) : outcome :=
  match exe_file_paths with
  | [] => Outcome (Ok num_icons) out d []
  | exe_path :: rest =>
      match listing_of exe_path with
      | Raise e =>
          Outcome (Raise e) out d
            (MsgExecutable file_index exe_path :: listing_printed exe_path)
      | Ok [] =>
          printed_before
            (MsgExecutable file_index exe_path :: listing_printed exe_path
               ++ [MsgNoIcons])
            (process_model (S file_index) rest num_icons out d)
      | Ok icon_files =>
          let o := loop_model exe_path 1 icon_files 0 out d in
          printed_before
            (MsgExecutable file_index exe_path :: listing_printed exe_path
               ++ o_printed o)
            match o_result o with
            | Raise e => Outcome (Raise e) (o_out o) (o_staging o) []
            | Ok n =>
                process_model (S file_index) rest (num_icons + n)
                  (o_out o) (o_staging o)
            end
      end
  end.

End models.

Definition suffixless_names (d : gmap string string) : Prop :=
  ∀ nm, is_Some (d !! nm) → Pathlib.suffix nm = EmptyString.

Fixpoint enumerated (mk : nat → path → message) (i : nat) (ps : list path)
    : list message :=
  match ps with
  | [] => []
  | p :: rest => mk i p :: enumerated mk (S i) rest
  end.

Section run_model.
Context (E : externals).

(** What the Path Collector returns and prints. *)
Fixpoint collected (paths : list path) (file_extensions : gset string)
    (recursive_search resolve_shortcuts : bool) (acc : gset path)
    : gset path :=
  match paths with
  | [] => acc
  | p :: rest =>
      collected rest file_extensions recursive_search resolve_shortcuts
        (if path_exists E p then
           acc ∪ set_bind (collect E file_extensions resolve_shortcuts)
                   (filtered_generator E recursive_search p)
         else acc)
  end.

Fixpoint missing (paths : list path) : list message :=
  match paths with
  | [] => []
  | p :: rest =>
      if path_exists E p then missing rest
      else MsgNoFileAtPath p :: missing rest
  end.

(** The executables of a run, in the order in which the set is iterated. *)
Definition executables_of (input_paths : list path) : list path :=
  set_order E
    (collected (resolve E <$> input_paths) {[ ".exe"%string ]} true true ∅).

Definition run_header (input_paths : list path) : list message :=
  [MsgInputPaths]
    ++ enumerated MsgInputPath 1 (resolve E <$> input_paths)
    ++ missing (resolve E <$> input_paths)
    ++ [MsgFoundPaths]
    ++ enumerated MsgFoundPath 1 (executables_of input_paths)
    ++ [MsgExtractingIcons].

Definition run_model (path_7zip : path) (input_paths : list path)
    (output_dir_path : path) (extract_largest_only : bool)
    (out : gmap string string) : outcome :=
  process_model E path_7zip output_dir_path
    (output_dir_path ++ ["temp-output"%string]) extract_largest_only
    1 (executables_of input_paths) 0 out ∅.

End run_model.

Module Examples.

(** A directory with one executable at the top and one in a
    subdirectory. *)
Definition nested_fs : gmap path node_kind :=
  list_to_map
    [ (["C:"; "d"], IsDir);
      (["C:"; "d"; "top.exe"], IsFile);
      (["C:"; "d"; "sub"], IsDir);
      (["C:"; "d"; "sub"; "deep.exe"], IsFile) ]%string.

Definition nested_env : externals := {|
  input_fs := nested_fs;
  resolve := id;
  shortcut_target := id;
  set_order := elements;
  set_order_perm := λ s, reflexivity (elements s);
  which_7z := Some ["7z"%string];
  seven_zip_list := λ _ _, (2, EmptyString);
  seven_zip_extract := λ _ _ _, (2, EmptyString);
  imghdr_what := λ _, None;
|}.

Definition empty_world : world := World ∅ None [].

End Examples.

Module ShortcutExample.

(** A directory with one shortcut whose target does not exist. *)
Definition fs : gmap path node_kind :=
  list_to_map
    [ (["C:"; "d"], IsDir);
      (["C:"; "d"; "a.lnk"], IsFile) ]%string.

Definition env : externals := {|
  input_fs := fs;
  resolve := id;
  shortcut_target := λ _, ["C:"; "gone"; "b.EXE"]%string;
  set_order := elements;
  set_order_perm := λ s, reflexivity (elements s);
  which_7z := None;
  seven_zip_list := λ _ _, (2, EmptyString);
  seven_zip_extract := λ _ _ _, (2, EmptyString);
  imghdr_what := λ _, None;
|}.

End ShortcutExample.

Module IconsExample.

(** One executable with two icons, listed smallest first. *)
Definition fs : gmap path node_kind :=
  list_to_map
    [ (["C:"; "d"], IsDir);
      (["C:"; "d"; "app.exe"], IsFile) ]%string.

Definition listing : string :=
  "   Date      Time    Attr         Size   Compressed  Name
------------------- ----- ------------ ------------  ------------
                    .....           50           40  .rsrc\1033\ICON\2.ico
                    .....          100           90  .rsrc\1033\ICON\1.ico
                    .....           70           60  .rsrc\1033\GROUP_ICON\1
".

Definition env : externals := {|
  input_fs := fs;
  resolve := id;
  shortcut_target := id;
  set_order := elements;
  set_order_perm := λ s, reflexivity (elements s);
  which_7z := Some ["7z"%string];
  seven_zip_list := λ _ _, (0, listing);
  seven_zip_extract := λ _ _ inner, (0, "bytes of " +:+ inner);
  imghdr_what := λ _, None;
|}.

Definition exe : path := ["C:"; "d"; "app.exe"]%string.
Definition out : path := ["C:"; "out"]%string.
Definition tmp : path := ["C:"; "out"; "temp-output"]%string.

(** An output directory where the plain name and the first numbered name
    are taken. *)
Definition taken_world : world :=
  World {[ "app.ico"%string := "first"%string;
           "app (2).ico"%string := "second"%string ]} (Some ∅) [].

End IconsExample.

Module SniffExample.

(** One executable with one icon that has no extension and no header
    that the sniffer knows. *)
Definition listing : string :=
  "                    .....          100           90  .rsrc\1033\ICON\1
".

Definition env : externals := {|
  input_fs := IconsExample.fs;
  resolve := id;
  shortcut_target := id;
  set_order := elements;
  set_order_perm := λ s, reflexivity (elements s);
  which_7z := Some ["7z"%string];
  seven_zip_list := λ _ _, (0, listing);
  seven_zip_extract := λ _ _ inner, (0, "no header"%string);
  imghdr_what := λ _, None;
|}.

End SniffExample.

(** ** Vocabulary of the further properties *)

(** The text has no white space. *)
Fixpoint space_free (s : string) : bool :=
  match s with
  | EmptyString => true
  | String c s' => negb (Py.isspace c) && space_free s'
  end.

Module MalformedExample.

(** One executable whose listing has an icon line of two fields behind a
    line that parses. *)
Definition listing : string :=
  "                    .....          100           90  .rsrc\1033\ICON\1.ico
50 .rsrc\1033\ICON\2.ico
".

Definition env : externals := {|
  input_fs := IconsExample.fs;
  resolve := id;
  shortcut_target := id;
  set_order := elements;
  set_order_perm := λ s, reflexivity (elements s);
  which_7z := Some ["7z"%string];
  seven_zip_list := λ _ _, (0, listing);
  seven_zip_extract := λ _ _ inner, (0, "bytes of " +:+ inner);
  imghdr_what := λ _, None;
|}.

End MalformedExample.

(** The lines of the standard output, by the part of the script that
    prints them: the main block, the head of a run (input paths, missing
    paths, found paths), the loop over the executables, the loop over the
    entries of one executable, and the summary. *)
Inductive line_kind : Type :=
  | MainLine | HeaderLine | ExecutableLine | EntryLine | SummaryLine.

Definition kind_of (m : message) : line_kind :=
  match m with
  | MsgStarted | MsgSevenZipNotFound | MsgFinished => MainLine
  | MsgInputPaths | MsgInputPath _ _ | MsgNoFileAtPath _ | MsgFoundPaths
  | MsgFoundPath _ _ | MsgExtractingIcons => HeaderLine
  | MsgExecutable _ _ | MsgListFailed _ | MsgNoIcons => ExecutableLine
  | MsgExtracting _ _ _ | MsgExtractFailed _ _ | MsgGuessing
  | MsgGuessFailed _ | MsgFailedToExtract | MsgSaving _ => EntryLine
  | MsgSummary _ _ => SummaryLine
  end.

(** The executables announced in a piece of the standard output. *)
Definition announced (msgs : list message) : list (nat * path) :=
  omap (λ m, match m with
             | MsgExecutable i exe => Some (i, exe)
             | _ => None
             end) msgs.

(** The name [t] is the stem of the executable with the suffix [c], plain
    or numbered. *)
Definition saved_as (exe_path : path) (c t : string) : Prop :=
  let exe_stem := Pathlib.stem (Pathlib.name exe_path) in
  t = exe_stem +:+ c ∨ ∃ k, (2 ≤ k)%nat ∧ t = numbered exe_stem k c.

(** The suffix [c] that the staged file of an entry has: the suffix of the
    entry's base name, or the format that the sniffer reads from the
    extracted bytes when the base name has none. *)
Definition staged_suffix (E : externals) (inner data c : string) : Prop :=
  let nm := Pathlib.name_of_text inner in
  if decide (Pathlib.suffix nm = EmptyString)
  then ∃ fmt, imghdr_what E data = Some fmt ∧ c = "." +:+ format_name fmt
  else c = Pathlib.suffix nm.

(** The 7-Zip program that the main block settles on: the argument when
    there is one, else what [try_find_7zip] finds. *)
Definition chosen_7zip (E : externals) (args : cli_args) : option path :=
  match arg_seven_zip args with
  | Some p => Some p
  | None => try_find_7zip E
  end.

Module LongSizeExample.

(** A line of four fields that matches the ICON pattern and has a decimal
    integer of 4301 digits as its size field. *)
Fixpoint ones (n : nat) : string :=
  match n with
  | O => EmptyString
  | S n' => String "1" (ones n')
  end.

Definition size_field : string := ones 4301.

Definition line : string :=
  "..... " +:+ size_field +:+ " 40 .rsrc\1033\ICON\1.ico".

End LongSizeExample.

Module DirectoryEntryExample.

(** One executable whose listing has an icon entry with the base name
    [..] in front of an ordinary one. *)
Definition listing : string :=
  "                    .....          100           90  a/ICON/..
                    .....           50           40  a/ICON/1.ico
".

Definition env : externals := {|
  input_fs := IconsExample.fs;
  resolve := id;
  shortcut_target := id;
  set_order := elements;
  set_order_perm := λ s, reflexivity (elements s);
  which_7z := Some ["7z"%string];
  seven_zip_list := λ _ _, (0, listing);
  seven_zip_extract := λ _ _ inner, (0, "bytes of " +:+ inner);
  imghdr_what := λ _, None;
|}.

Definition entries : list icon_entry :=
  [("a/ICON/.."%string, 100); ("a/ICON/1.ico"%string, 50)].

End DirectoryEntryExample.

(** An icon that a run saves, by what the collaborators answer: the
    executable it comes from, the suffix of the staged file and the bytes
    that the extract command gave. *)
Record icon : Type := Icon {
  icon_exe : path;
  icon_suffix : string;
  icon_data : string;
}.

(** The plain name of an icon in the output directory. *)
Definition icon_base (i : icon) : string :=
  Pathlib.stem (Pathlib.name (icon_exe i)) +:+ icon_suffix i.

(** The name [t] is a numbered variant of the stem of the executable with
    the suffix [c]. *)
Definition numbered_as (exe_path : path) (c t : string) : Prop :=
  ∃ k, (2 ≤ k)%nat
       ∧ t = numbered (Pathlib.stem (Pathlib.name exe_path)) k c.

Section icons.
Context (E : externals) (path_7zip : path) (largest : bool).

(** The icons of one executable, in the order of its entries: an entry
    gives an icon when the extract command succeeds and the staged file has
    or gets a suffix; an entry that makes the sniffer open a directory ends
    the list, and so does, with the flag for the largest icon, the first
    icon. *)
Fixpoint icons_of (exe_path : path) (entries : list icon_entry) : list icon :=
  match entries with
  | [] => []
  | e :: rest =>
      match attempt_of E path_7zip exe_path e.1 with
      | Staged _ staged data _ =>
          Icon exe_path (Pathlib.suffix staged) data
          :: (if largest then [] else icons_of exe_path rest)
      | OpensDirectory => []
      | _ => icons_of exe_path rest
      end
  end.

(** Whether the entries end in that fault. *)
Fixpoint faults (exe_path : path) (entries : list icon_entry) : bool :=
  match entries with
  | [] => false
  | e :: rest =>
      match attempt_of E path_7zip exe_path e.1 with
      | Staged _ _ _ _ => if largest then false else faults exe_path rest
      | OpensDirectory => true
      | _ => faults exe_path rest
      end
  end.

(** The icons of the executables of a run, in order: those of every
    executable up to the first one whose listing does not parse or whose
    entries end in a fault. *)
Fixpoint icons_of_run (exe_file_paths : list path) : list icon :=
  match exe_file_paths with
  | [] => []
  | exe_path :: rest =>
      match listing_of E path_7zip exe_path with
      | Raise _ => []
      | Ok entries =>
          icons_of exe_path entries
          ++ (if faults exe_path entries then [] else icons_of_run rest)
      end
  end.

End icons.

(** The icon [i] was saved under the name [t] on the way from the output
    directory [out] to [out']: the name was free and is the icon's, plain
    or numbered, the file holds the bytes, the plain name is taken
    afterwards, and the name is a numbered one when the plain name was
    taken before. *)
Definition saved_icon (out out' : gmap string string) (t : string) (i : icon)
    : Prop :=
  saved_as (icon_exe i) (icon_suffix i) t
  ∧ out !! t = None
  ∧ out' !! t = Some (icon_data i)
  ∧ is_Some (out' !! icon_base i)
  ∧ (is_Some (out !! icon_base i) →
     numbered_as (icon_exe i) (icon_suffix i) t).

(** * Properties *)

(** ** Resource Lister *)

Section lister_facts.

Lemma insert_desc_perm e l : insert_desc e l ≡ₚ e :: l.
Proof.
  induction l as [|x l IH]; simpl; [done|].
  destruct (x.2 <=? e.2); [done|].
  rewrite IH. apply Permutation_swap.
Qed.

Lemma sort_by_size_desc_perm l : sort_by_size_desc l ≡ₚ l.
Proof.
  induction l as [|e l IH]; simpl; [done|].
  by rewrite insert_desc_perm, IH.
Qed.

Lemma insert_desc_sorted e l :
  StronglySorted size_ge l → StronglySorted size_ge (insert_desc e l).
Proof.
  induction 1 as [|x l Hl IH Hx]; simpl.
  - repeat constructor.
  - destruct (Z.leb_spec (x.2) (e.2)) as [Hle|Hlt].
    + constructor; [by constructor|].
      constructor; [done|].
      eapply Forall_impl; [exact Hx|]. unfold size_ge. intros y ?. lia.
    + constructor; [done|].
      rewrite insert_desc_perm. constructor; [|done].
      unfold size_ge. lia.
Qed.

Lemma sort_by_size_desc_sorted l : StronglySorted size_ge (sort_by_size_desc l).
Proof.
  induction l as [|e l IH]; simpl; [constructor|].
  by apply insert_desc_sorted.
Qed.

Lemma insert_desc_filter (k : Z) e l :
  filter (λ x : icon_entry, x.2 = k) (insert_desc e l)
  = filter (λ x : icon_entry, x.2 = k) (e :: l).
Proof.
  induction l as [|x l IH]; simpl; [done|].
  destruct (Z.leb_spec (x.2) (e.2)) as [Hle|Hlt]; [done|].
  rewrite filter_cons, IH, !filter_cons.
  repeat case_decide; try done; lia.
Qed.

Lemma sort_by_size_desc_stable (k : Z) l :
  filter (λ x : icon_entry, x.2 = k) (sort_by_size_desc l)
  = filter (λ x : icon_entry, x.2 = k) l.
Proof.
  induction l as [|e l IH]; simpl; [done|].
  by rewrite insert_desc_filter, !filter_cons, IH.
Qed.

(** A list sorted by decreasing size is determined by the entries of each
    size in their order: whatever algorithm [list.sort] runs, a stable
    descending sort returns what [sort_by_size_desc] returns. *)
Lemma sorted_stable_unique (l1 l2 : list icon_entry) :
  StronglySorted size_ge l1 → StronglySorted size_ge l2 →
  (∀ k, filter (λ x : icon_entry, x.2 = k) l1
        = filter (λ x : icon_entry, x.2 = k) l2) →
  l1 = l2.
Proof.
  intros H1. revert l2.
  induction H1 as [|a l1 Hl1 IH Ha]; intros l2 H2 Hf.
  - destruct l2 as [|b l2]; [done|].
    specialize (Hf (b.2)). rewrite filter_cons in Hf.
    by case_decide.
  - destruct H2 as [|b l2 Hl2 Hb].
    { specialize (Hf (a.2)). rewrite filter_cons in Hf. by case_decide. }
    assert (a.2 = b.2) as Hab.
    { assert (b.2 ≤ a.2).
      { pose proof (Hf (b.2)) as Hk. rewrite !filter_cons in Hk.
        destruct (decide (a.2 = b.2)) as [->|]; [lia|].
        rewrite decide_True in Hk by done.
        assert (b ∈ filter (λ x : icon_entry, x.2 = b.2) l1) as Hin.
        { rewrite Hk. left. }
        apply list_elem_of_filter in Hin as [_ Hin].
        rewrite Forall_forall in Ha. by apply Ha. }
      assert (a.2 ≤ b.2).
      { pose proof (Hf (a.2)) as Hk. rewrite !filter_cons in Hk.
        destruct (decide (b.2 = a.2)) as [->|]; [lia|].
        rewrite decide_True in Hk by done.
        assert (a ∈ filter (λ x : icon_entry, x.2 = a.2) l2) as Hin.
        { rewrite <-Hk. left. }
        apply list_elem_of_filter in Hin as [_ Hin].
        rewrite Forall_forall in Hb. by apply Hb. }
      lia. }
    assert (a = b) as ->.
    { pose proof (Hf (a.2)) as Hk. rewrite !filter_cons in Hk.
      rewrite !decide_True in Hk by done. by simplify_eq. }
    f_equal. apply IH; [done|].
    intros k. specialize (Hf k). rewrite !filter_cons in Hf.
    case_decide; by simplify_eq.
Qed.

Lemma stable_sort_is_sort_by_size_desc (l l' : list icon_entry) :
  StronglySorted size_ge l' →
  (∀ k, filter (λ x : icon_entry, x.2 = k) l'
        = filter (λ x : icon_entry, x.2 = k) l) →
  l' = sort_by_size_desc l.
Proof.
  intros Hs Hf. apply sorted_stable_unique; [done|apply sort_by_size_desc_sorted|].
  intros k. by rewrite Hf, sort_by_size_desc_stable.
Qed.

End lister_facts.

Section parsing_facts.

Lemma getitem_last {A} (l : list A) x :
  last l = Some x → Py.getitem l (-1) = Ok x.
Proof.
  intros Hl. unfold Py.getitem.
  assert (0 < length l)%nat.
  { destruct l; simplify_eq/=; lia. }
  rewrite last_lookup in Hl.
  replace (-1 <? 0) with true by done.
  replace (Z.to_nat (-1 + Z.of_nat (length l))) with (pred (length l)) by lia.
  rewrite Hl.
  destruct (Z.leb_spec 0 (-1 + Z.of_nat (length l))),
    (Z.ltb_spec (-1 + Z.of_nat (length l)) (Z.of_nat (length l)));
    simpl; try done; lia.
Qed.

Lemma getitem_third_last {A} (l : list A) x :
  (3 ≤ length l)%nat → l !! (length l - 3)%nat = Some x →
  Py.getitem l (-3) = Ok x.
Proof.
  intros Hlen Hl. unfold Py.getitem.
  replace (-3 <? 0) with true by done.
  replace (Z.to_nat (-3 + Z.of_nat (length l))) with (length l - 3)%nat by lia.
  rewrite Hl.
  destruct (Z.leb_spec 0 (-3 + Z.of_nat (length l))),
    (Z.ltb_spec (-3 + Z.of_nat (length l)) (Z.of_nat (length l)));
    simpl; try done; lia.
Qed.

Lemma getitem_too_short {A} (l : list A) (i : Z) :
  i < 0 → (Z.of_nat (length l) < - i) → Py.getitem l i = Raise IndexError.
Proof.
  intros Hi Hlen. unfold Py.getitem.
  destruct (Z.ltb_spec i 0); [|lia].
  destruct (Z.leb_spec 0 (i + Z.of_nat (length l))); [lia|done].
Qed.

Lemma getitem_index_error_or_ok {A} (l : list A) (i : Z) :
  (∃ x, Py.getitem l i = Ok x) ∨ Py.getitem l i = Raise IndexError.
Proof.
  unfold Py.getitem.
  destruct (_ && _); [|by right].
  destruct (l !! _); [left; eauto|by right].
Qed.

Lemma digit_not_space c d :
  Py.digit_val c = Some d →
  Py.isspace c = false ∧ c ≠ "-"%char ∧ c ≠ "+"%char.
Proof.
  destruct c as [[] [] [] [] [] [] [] []]; vm_compute; intros; by simplify_eq.
Qed.

Lemma int_digits_all_digits acc s :
  all_digits s = true → is_Some (Py.int_digits acc s).
Proof.
  revert acc. induction s as [|c s IH]; intros acc Hs; simpl in *; [done|].
  apply andb_true_iff in Hs as [[d Hd]%bool_decide_eq_true Hs].
  rewrite Hd. by apply IH.
Qed.

Lemma int_digit_head c d s :
  Py.digit_val c = Some d →
  Py.int (String c s)
  = match Py.int_digits d s with
    | Some z =>
        if (Py.count_digits (String c s) <=? Py.int_max_str_digits)%N
        then Ok z else Raise ValueError
    | None => Raise ValueError
    end.
Proof.
  destruct c as [[] [] [] [] [] [] [] []]; intros H; vm_compute in H;
    simplify_eq; reflexivity.
Qed.

Lemma count_digits_length s :
  (Py.count_digits s ≤ N.of_nat (String.length s))%N.
Proof.
  induction s as [|c s IH]; simpl; [done|].
  destruct (Py.digit_val c); lia.
Qed.

Lemma int_decimal s :
  is_decimal s = true → (String.length s ≤ 4300)%nat → ∃ z, Py.int s = Ok z.
Proof.
  unfold is_decimal. intros [Hne Hs]%andb_true_iff Hlen.
  destruct s as [|c s]; [done|]. simpl in Hs.
  apply andb_true_iff in Hs as [[d Hd]%bool_decide_eq_true Hs].
  destruct (int_digits_all_digits d s Hs) as [z Hz].
  exists z. rewrite (int_digit_head _ _ _ Hd), Hz.
  pose proof (count_digits_length (String c s)) as Hcount.
  destruct (N.leb_spec (Py.count_digits (String c s)) Py.int_max_str_digits)
    as [_|Hlt]; [done|].
  unfold Py.int_max_str_digits in Hlt. lia.
Qed.

Lemma parse_lines_ok lines acc :
  Forall (λ line, is_ok (parse_line line) = true) lines →
  parse_lines lines acc = Ok (acc ++ (lines ≫= line_entries)).
Proof.
  intros H. revert acc.
  induction H as [|line lines Hline _ IH]; intros acc; simpl.
  - by rewrite app_nil_r.
  - unfold line_entries at 1.
    destruct (parse_line line) as [e|]; [|done]. simpl.
    by rewrite IH, (assoc_L (++)).
Qed.

Lemma parse_lines_inv lines acc r :
  parse_lines lines acc = Ok r →
  Forall (λ line, is_ok (parse_line line) = true) lines.
Proof.
  revert acc. induction lines as [|line lines IH]; intros acc; simpl; [done|].
  destruct (parse_line line) as [e|] eqn:He; [|done]. simpl.
  intros Hr. constructor; [by rewrite He|by eapply IH].
Qed.

Lemma parse_lines_raise lines acc line e :
  line ∈ lines → parse_line line = Raise e →
  ∃ e', parse_lines lines acc = Raise e'.
Proof.
  intros Hin He.
  destruct (parse_lines lines acc) as [r|e'] eqn:Hr; [|eauto].
  apply parse_lines_inv in Hr. rewrite Forall_forall in Hr.
  specialize (Hr _ Hin). by rewrite He in Hr.
Qed.

Lemma parse_line_no_match line :
  re_search_icon line = false → parse_line line = Ok None.
Proof. unfold parse_line. by intros ->. Qed.

Lemma parse_line_match line path size_field z :
  re_search_icon line = true →
  last (Py.split line) = Some path →
  (3 ≤ length (Py.split line))%nat →
  Py.split line !! (length (Py.split line) - 3)%nat = Some size_field →
  Py.int size_field = Ok z →
  parse_line line = Ok (Some (path, z)).
Proof.
  intros Hm Hlast Hlen Hsize Hint. unfold parse_line. rewrite Hm.
  rewrite (getitem_last _ _ Hlast). simpl.
  rewrite (getitem_third_last _ _ Hlen Hsize). simpl.
  by rewrite Hint.
Qed.

Lemma parse_line_too_short line :
  re_search_icon line = true → (length (Py.split line) < 3)%nat →
  parse_line line = Raise IndexError.
Proof.
  intros Hm Hlen. unfold parse_line. rewrite Hm.
  destruct (getitem_index_error_or_ok (Py.split line) (-1)) as [[x ->]| ->];
    [|done].
  simpl. rewrite getitem_too_short by lia. done.
Qed.

End parsing_facts.

(** C3. A line that matches the ICON pattern is parsed into its last field
    and the integer value of its third field from the end; the sample line
    of the specification gives the entry it names; a line without an ICON
    segment contributes nothing; the returned list holds exactly the
    entries of the matching lines. *)
Theorem icon_line_parsing :
  (∀ line path size_field z,
     re_search_icon line = true →
     last (Py.split line) = Some path →
     (3 ≤ length (Py.split line))%nat →
     Py.split line !! (length (Py.split line) - 3)%nat = Some size_field →
     Py.int size_field = Ok z →
     parse_line line = Ok (Some (path, z)))
  ∧ parse_line ".....  270398  270376  .rsrc\1033\ICON\1.ico"
    = Ok (Some (".rsrc\1033\ICON\1.ico"%string, 270398))
  ∧ (∀ line, re_search_icon line = false →
       parse_line line = Ok None ∧ line_entries line = [])
  ∧ (∀ output entries,
       parse_listing output = Ok entries →
       entries ≡ₚ Py.split_lines output ≫= line_entries)
  ∧ (∀ E path_7zip exe_path output w,
       seven_zip_list E path_7zip exe_path = (0, output) →
       find_icons_in_exe E path_7zip exe_path w = (parse_listing output, w)).
Proof.
  split_and!.
  - apply parse_line_match.
  - reflexivity.
  - intros line Hm. unfold line_entries.
    by rewrite (parse_line_no_match _ Hm).
  - intros output entries. unfold parse_listing.
    destruct (parse_lines _ _) as [found|] eqn:Hp; [|done].
    simpl. intros [= <-].
    rewrite (parse_lines_ok _ _ (parse_lines_inv _ _ _ Hp)) in Hp.
    simplify_eq/=. apply sort_by_size_desc_perm.
  - intros E path_7zip exe_path output w Hl.
    unfold find_icons_in_exe. rewrite Hl.
    by rewrite decide_False by lia.
Qed.

Lemma icon_line_parsing_witness :
  parse_line "  .....  2398  1376  .rsrc/1033/ICON/2"
  = Ok (Some (".rsrc/1033/ICON/2"%string, 2398))
  ∧ (parse_line "  .....  2398  1376  .rsrc/1033/STRING/2" = Ok None
     ∧ line_entries "  .....  2398  1376  .rsrc/1033/STRING/2" = [])
  ∧ [(".rsrc\1033\ICON\1.ico"%string, 100); (".rsrc\1033\ICON\2.ico"%string, 50)]
    ≡ₚ Py.split_lines IconsExample.listing ≫= line_entries
  ∧ find_icons_in_exe IconsExample.env ["7z"%string] IconsExample.exe
      Examples.empty_world
    = (parse_listing IconsExample.listing, Examples.empty_world).
Proof.
  split_and!.
  - apply (proj1 icon_line_parsing
             "  .....  2398  1376  .rsrc/1033/ICON/2"
             ".rsrc/1033/ICON/2" "2398" 2398);
      [reflexivity|reflexivity|vm_compute; lia|reflexivity|reflexivity].
  - apply (proj1 (proj2 (proj2 icon_line_parsing))). reflexivity.
  - apply (proj1 (proj2 (proj2 icon_line_parsing))). reflexivity.
  - apply (proj1 (proj2 (proj2 (proj2 icon_line_parsing)))). reflexivity.
  - apply (proj2 (proj2 (proj2 (proj2 icon_line_parsing)))). reflexivity.
Defined.

(** A decimal integer of 4301 digits as the size field is more than
    [int] converts. *)
Lemma long_size_field_is_refused :
  Py.split_lines LongSizeExample.line = [LongSizeExample.line]
  ∧ re_search_icon LongSizeExample.line = true
  ∧ length (Py.split LongSizeExample.line) = 4%nat
  ∧ Py.split LongSizeExample.line !! 1%nat = Some LongSizeExample.size_field
  ∧ is_decimal LongSizeExample.size_field = true
  ∧ String.length LongSizeExample.size_field = 4301%nat
  ∧ parse_listing LongSizeExample.line = Raise ValueError.
Proof.
  split_and!.
  - vm_compute; reflexivity.
  - vm_compute; reflexivity.
  - vm_compute; reflexivity.
  - vm_compute; reflexivity.
  - vm_compute; reflexivity.
  - vm_compute; reflexivity.
  - vm_compute; reflexivity.
Qed.

(** C9 as stated, for every decimal integer, fails: a listing whose only
    line matches the ICON pattern, has four fields and has a decimal integer
    of 4301 digits as its third field from the end does not parse. *)
Lemma listing_parse_totality_counterexample :
  ¬ (∀ output,
       (∀ line, line ∈ Py.split_lines output → re_search_icon line = true →
          (3 ≤ length (Py.split line))%nat ∧
          ∃ size_field,
            Py.split line !! (length (Py.split line) - 3)%nat
            = Some size_field
            ∧ is_decimal size_field = true) →
       ∃ entries, parse_listing output = Ok entries).
Proof.
  intros Hclaim.
  destruct long_size_field_is_refused
    as (Hlines & Hm & Hlen & Hfield & Hdec & _ & Hparse).
  destruct (Hclaim LongSizeExample.line) as [entries Hentries].
  - intros line Hin _. rewrite Hlines in Hin.
    apply list_elem_of_singleton in Hin as ->. rewrite Hlen.
    split; [lia|]. exists LongSizeExample.size_field.
    split; [exact Hfield|exact Hdec].
  - rewrite Hparse in Hentries. discriminate Hentries.
Qed.

(** C9, amended. When every line that matches the ICON pattern has at
    least three fields and, as its third field from the end, a decimal
    integer of no more digits than [int] converts, the listing is parsed
    without a fault; a matching line with fewer than three fields raises
    [IndexError], and so the whole parse ends in an exception: the line is
    not skipped. *)
Theorem listing_parse_totality :
  (∀ output,
     (∀ line, line ∈ Py.split_lines output → re_search_icon line = true →
        (3 ≤ length (Py.split line))%nat ∧
        ∃ size_field,
          Py.split line !! (length (Py.split line) - 3)%nat = Some size_field
          ∧ is_decimal size_field = true
          ∧ (String.length size_field ≤ 4300)%nat) →
     ∃ entries, parse_listing output = Ok entries)
  ∧ (∀ line,
       re_search_icon line = true → (length (Py.split line) < 3)%nat →
       parse_line line = Raise IndexError)
  ∧ (∀ output line,
       line ∈ Py.split_lines output →
       re_search_icon line = true → (length (Py.split line) < 3)%nat →
       ∃ e, parse_listing output = Raise e).
Proof.
  split_and!.
  - intros output Hpre.
    assert (Forall (λ line, is_ok (parse_line line) = true)
              (Py.split_lines output)) as Hall.
    { apply Forall_forall. intros line Hin.
      destruct (re_search_icon line) eqn:Hm.
      - destruct (Hpre line Hin Hm)
          as (Hlen & size_field & Hsz & Hdec & Hdigits).
        destruct (int_decimal _ Hdec Hdigits) as [z Hz].
        destruct (last (Py.split line)) as [p|] eqn:Hlast.
        + by rewrite (parse_line_match line p size_field z).
        + apply last_None in Hlast. rewrite Hlast in Hlen. simpl in Hlen. lia.
      - by rewrite parse_line_no_match. }
    unfold parse_listing. rewrite (parse_lines_ok _ _ Hall). simpl. eauto.
  - apply parse_line_too_short.
  - intros output line Hin Hm Hlen.
    unfold parse_listing.
    destruct (parse_lines_raise (Py.split_lines output) [] line IndexError Hin)
      as [e He]; [by apply parse_line_too_short|].
    exists e. by rewrite He.
Qed.

Lemma listing_parse_totality_witness :
  (∃ entries,
     parse_listing "head
  .....  100  90  .rsrc\1033\ICON\1.ico
  .....  50  40  .rsrc\1033\ICON\2" = Ok entries)
  ∧ parse_line "50 .rsrc\ICON\2" = Raise IndexError
  ∧ ∃ e, parse_listing "head
50 .rsrc\ICON\2" = Raise e.
Proof.
  split_and!.
  - apply (proj1 listing_parse_totality).
    intros line Hin Hm. vm_compute in Hin.
    repeat (apply elem_of_cons in Hin as [->|Hin]);
      [discriminate Hm| | |by apply elem_of_nil in Hin];
      (split; [vm_compute; lia
              |eexists; split_and!; [reflexivity|reflexivity|vm_compute; lia]]).
  - apply (proj1 (proj2 listing_parse_totality));
      [reflexivity|vm_compute; lia].
  - apply (proj2 (proj2 listing_parse_totality) _ "50 .rsrc\ICON\2");
      [vm_compute; set_solver|reflexivity|vm_compute; lia].
Defined.

Lemma find_icons_in_exe_ok E path_7zip exe_path w entries w' :
  find_icons_in_exe E path_7zip exe_path w = (Ok entries, w') →
  entries = sort_by_size_desc (discovered E path_7zip exe_path).
Proof.
  unfold find_icons_in_exe, discovered.
  destruct (seven_zip_list E path_7zip exe_path) as [returncode output].
  case_decide.
  - cbv [mbind M_bind print mret M_ret]. by intros [= <- _].
  - unfold lift, parse_listing. intros [= Hp _].
    destruct (parse_lines _ _) as [found|] eqn:Hf; [|done].
    rewrite (parse_lines_ok _ _ (parse_lines_inv _ _ _ Hf)) in Hf.
    cbv [mbind result_bind mret result_ret] in Hp. by simplify_eq/=.
Qed.

(** C4. The list that the Resource Lister returns is sorted by decreasing
    size and entries of equal size keep the order of their lines; sizes
    10, 50, 50, 5 come out as 50, 50, 10, 5 with the two entries of size 50
    in their original order. No other list is a stable descending sort of
    the same entries. *)
Theorem icon_entries_sorted_stable :
  (∀ l,
     StronglySorted size_ge (sort_by_size_desc l)
     ∧ sort_by_size_desc l ≡ₚ l
     ∧ ∀ k, filter (λ x : icon_entry, x.2 = k) (sort_by_size_desc l)
            = filter (λ x : icon_entry, x.2 = k) l)
  ∧ (∀ E path_7zip exe_path w entries w',
       find_icons_in_exe E path_7zip exe_path w = (Ok entries, w') →
       StronglySorted size_ge entries
       ∧ entries ≡ₚ discovered E path_7zip exe_path
       ∧ ∀ k, filter (λ x : icon_entry, x.2 = k) entries
              = filter (λ x : icon_entry, x.2 = k)
                  (discovered E path_7zip exe_path))
  ∧ sort_by_size_desc
      [("a", 10); ("b", 50); ("c", 50); ("d", 5)]%string
    = [("b", 50); ("c", 50); ("a", 10); ("d", 5)]%string
  ∧ (∀ l l' : list icon_entry,
       StronglySorted size_ge l' →
       (∀ k, filter (λ x : icon_entry, x.2 = k) l'
             = filter (λ x : icon_entry, x.2 = k) l) →
       l' = sort_by_size_desc l).
Proof.
  split_and!.
  - intros l. split_and!.
    + apply sort_by_size_desc_sorted.
    + apply sort_by_size_desc_perm.
    + intros k. apply sort_by_size_desc_stable.
  - intros E path_7zip exe_path w entries w' ->%find_icons_in_exe_ok.
    split_and!.
    + apply sort_by_size_desc_sorted.
    + apply sort_by_size_desc_perm.
    + intros k. apply sort_by_size_desc_stable.
  - reflexivity.
  - apply stable_sort_is_sort_by_size_desc.
Qed.

Lemma icon_entries_sorted_stable_witness :
  let entries := [(".rsrc\1033\ICON\1.ico"%string, 100);
                  (".rsrc\1033\ICON\2.ico"%string, 50)] in
  StronglySorted size_ge entries
  ∧ entries ≡ₚ discovered IconsExample.env ["7z"%string] IconsExample.exe
  ∧ ∀ k, filter (λ x : icon_entry, x.2 = k) entries
         = filter (λ x : icon_entry, x.2 = k)
             (discovered IconsExample.env ["7z"%string] IconsExample.exe).
Proof.
  apply (proj1 (proj2 icon_entries_sorted_stable) IconsExample.env
           ["7z"%string] IconsExample.exe Examples.empty_world _
           Examples.empty_world).
  reflexivity.
Defined.

(** ** Running computations *)

Lemma bind_ok {A B} (m : M A) (f : A → M B) w a w' :
  m w = (Ok a, w') → (m ≫= f) w = f a w'.
Proof. unfold mbind, M_bind. by intros ->. Qed.

Lemma bind_raise {A B} (m : M A) (f : A → M B) w e w' :
  m w = (Raise e, w') → (m ≫= f) w = (Raise e, w').
Proof. unfold mbind, M_bind. by intros ->. Qed.

Lemma bind_ok_or_raise {A B} (m : M A) (f : A → M B) w r w' :
  m w = (r, w') →
  (m ≫= f) w = match r with Ok a => f a w' | Raise e => (Raise e, w') end.
Proof. unfold mbind, M_bind. by intros ->. Qed.

Lemma bind_print {B} msg (f : () → M B) w :
  (print msg ≫= f) w
  = f () (World (out_dir w) (temp_output w) (stdout w ++ [msg])).
Proof. done. Qed.

Lemma find_icons_in_exe_failed E path_7zip exe_path w :
  (seven_zip_list E path_7zip exe_path).1 ≠ 0 →
  find_icons_in_exe E path_7zip exe_path w
  = (Ok [], World (out_dir w) (temp_output w)
              (stdout w ++ [MsgListFailed exe_path])).
Proof.
  unfold find_icons_in_exe.
  destruct (seven_zip_list E path_7zip exe_path) as [returncode output].
  simpl. intros Hrc. by rewrite decide_True.
Qed.

(** C8. When the list command ends with a status other than zero, the
    Resource Lister prints the failure and returns the empty list without
    touching the directories, and the Run Controller prints that no icons
    were found and goes on with the executables that remain. *)
Theorem list_failure_is_not_fatal E path_7zip exe_path w :
  (seven_zip_list E path_7zip exe_path).1 ≠ 0 →
  find_icons_in_exe E path_7zip exe_path w
  = (Ok [], World (out_dir w) (temp_output w)
              (stdout w ++ [MsgListFailed exe_path]))
  ∧ ∀ file_index rest output_dir_path temp_output_dir_path largest num_icons,
      process_executables E path_7zip file_index (exe_path :: rest)
        output_dir_path temp_output_dir_path largest num_icons w
      = process_executables E path_7zip (S file_index) rest
          output_dir_path temp_output_dir_path largest num_icons
          (World (out_dir w) (temp_output w)
             (stdout w ++ [MsgExecutable file_index exe_path;
                           MsgListFailed exe_path; MsgNoIcons])).
Proof.
  intros Hrc. split; [by apply find_icons_in_exe_failed|].
  intros. simpl. rewrite bind_print.
  erewrite bind_ok by (by apply find_icons_in_exe_failed).
  simpl. rewrite bind_print. simpl.
  by rewrite <-!(assoc_L (++)).
Qed.

Lemma list_failure_is_not_fatal_witness :
  find_icons_in_exe Examples.nested_env ["7z"]%string
    ["C:"; "d"; "top.exe"]%string Examples.empty_world
  = (Ok [], World ∅ None [MsgListFailed ["C:"; "d"; "top.exe"]%string]).
Proof.
  apply (list_failure_is_not_fatal Examples.nested_env ["7z"]%string
           ["C:"; "d"; "top.exe"]%string Examples.empty_world).
  simpl. lia.
Defined.

(** ** Path Collector *)

(** C1. The flag is read from the command line and never reaches the Path
    Collector: a run without it prints and processes the executable of the
    subdirectory too, exactly as a run with it, although the Path Collector
    called with [recursive_search] unset returns the top-level executable
    only. *)
Theorem recursive_flag_is_ignored :
  (∀ E z o r l ps w,
     main E (CliArgs z o r l ps) w = main E (CliArgs z o (negb r) l ps) w)
  ∧ elements <$> (found_executables Examples.nested_env [["C:"; "d"]]%string
                    Examples.empty_world).1
    = Ok [ ["C:"; "d"; "top.exe"]; ["C:"; "d"; "sub"; "deep.exe"] ]%string
  ∧ stdout (main Examples.nested_env
               (CliArgs None None false false [["C:"; "d"]]%string)
               Examples.empty_world).2
    = [ MsgStarted; MsgInputPaths; MsgInputPath 1 ["C:"; "d"];
        MsgFoundPaths;
        MsgFoundPath 1 ["C:"; "d"; "top.exe"];
        MsgFoundPath 2 ["C:"; "d"; "sub"; "deep.exe"];
        MsgExtractingIcons;
        MsgExecutable 1 ["C:"; "d"; "top.exe"];
        MsgListFailed ["C:"; "d"; "top.exe"]; MsgNoIcons;
        MsgExecutable 2 ["C:"; "d"; "sub"; "deep.exe"];
        MsgListFailed ["C:"; "d"; "sub"; "deep.exe"]; MsgNoIcons;
        MsgSummary 0 2; MsgFinished ]%string
  ∧ elements <$> (find_files_with_extensions Examples.nested_env
                    [["C:"; "d"]]%string {[ ".exe"%string ]} false true
                    Examples.empty_world).1
    = Ok [ ["C:"; "d"; "top.exe"] ]%string.
Proof.
  split_and!.
  - reflexivity.
  - vm_compute. reflexivity.
  - vm_compute. reflexivity.
  - vm_compute. reflexivity.
Qed.

Section collector_facts.
Context (E : externals).

Lemma find_files_loop_spec paths exts recursive_search resolve_shortcuts acc w :
  ∃ s out,
    find_files_loop E paths exts recursive_search resolve_shortcuts acc w
    = (Ok s, World (out_dir w) (temp_output w) out)
    ∧ ∀ x, x ∈ s ↔
        x ∈ acc ∨
        ∃ p subpath,
          p ∈ paths ∧ path_exists E p = true
          ∧ subpath ∈ filtered_generator E recursive_search p
          ∧ x ∈ collect E exts resolve_shortcuts subpath.
Proof.
  revert acc w. induction paths as [|p paths IH]; intros acc w; simpl.
  - exists acc, (stdout w). split; [by destruct w|].
    intros x. split; [auto|]. intros [?|(?&?&[]%elem_of_nil&_)]. done.
  - destruct (path_exists E p) eqn:Hex.
    + destruct (IH (acc ∪ set_bind (collect E exts resolve_shortcuts)
                         (filtered_generator E recursive_search p)) w)
        as (s & out & -> & Hs).
      exists s, out. split; [done|].
      intros x. rewrite Hs, elem_of_union, elem_of_set_bind.
      split.
      * intros [[?|(subpath & ? & ?)]|(q & subpath & ? & ?)]; [by left|..].
        -- right. exists p, subpath. split_and!; [left|done..].
        -- right. exists q, subpath. split; [by right|done].
      * intros [?|(q & subpath & [->|?]%elem_of_cons & ? & ? & ?)].
        -- by left; left.
        -- left; right. eauto.
        -- right. exists q, subpath. done.
    + rewrite bind_print.
      destruct (IH acc (World (out_dir w) (temp_output w)
                          (stdout w ++ [MsgNoFileAtPath p])))
        as (s & out & -> & Hs).
      exists s, out. split; [done|].
      intros x. rewrite Hs. split.
      * intros [?|(q & subpath & ? & ?)]; [by left|].
        right. exists q, subpath. split; [by right|done].
      * intros [?|(q & subpath & [->|?]%elem_of_cons & Hq & ? & ?)];
          [by left|congruence|].
        right. exists q, subpath. done.
Qed.

Lemma collect_shortcut exts subpath :
  lower_suffix subpath = ".lnk"%string →
  ".lnk"%string ∉ exts →
  lower_suffix (shortcut_target E subpath) ∈ exts →
  shortcut_target E subpath ∈ collect E exts true subpath.
Proof.
  intros Hlnk Hnot Hin. unfold collect.
  rewrite Hlnk, (bool_decide_eq_false_2 _ Hnot). simpl.
  rewrite (bool_decide_eq_true_2 _ Hin).
  set_solver.
Qed.

End collector_facts.

(** With the shortcut extension in the target set the shortcut is kept as
    it is and never resolved. *)
Lemma shortcut_kept_unresolved :
  path_exists ShortcutExample.env ["C:"; "d"]%string = true
  ∧ ["C:"; "d"; "a.lnk"]%string
    ∈ filtered_generator ShortcutExample.env false ["C:"; "d"]%string
  ∧ lower_suffix ["C:"; "d"; "a.lnk"]%string = ".lnk"%string
  ∧ lower_suffix
      (shortcut_target ShortcutExample.env ["C:"; "d"; "a.lnk"]%string)
    ∈ ({[ ".exe"; ".lnk" ]}%string : gset string)
  ∧ elements <$> (find_files_with_extensions ShortcutExample.env
                    [["C:"; "d"]]%string {[ ".exe"; ".lnk" ]}%string false
                    true Examples.empty_world).1
    = Ok [ ["C:"; "d"; "a.lnk"]%string ].
Proof.
  split_and!.
  - reflexivity.
  - apply elem_of_elements, list_elem_of_In. vm_compute. tauto.
  - reflexivity.
  - apply elem_of_elements, list_elem_of_In. vm_compute. tauto.
  - vm_compute. reflexivity.
Qed.

(** C10 as stated, for every target set, fails: with the target set
    [.exe], [.lnk] the shortcut [a.lnk] is collected itself and its target
    [b.EXE] is not in the result. *)
Lemma shortcut_target_included_counterexample :
  ¬ (∀ E paths exts recursive_search w p subpath,
       p ∈ paths → path_exists E p = true →
       subpath ∈ filtered_generator E recursive_search p →
       lower_suffix subpath = ".lnk"%string →
       lower_suffix (shortcut_target E subpath) ∈ exts →
       ∃ s out,
         find_files_with_extensions E paths exts recursive_search true w
         = (Ok s, World (out_dir w) (temp_output w) out)
         ∧ shortcut_target E subpath ∈ s).
Proof.
  intros Hclaim.
  destruct shortcut_kept_unresolved as (Hex & Hsub & Hlnk & Hext & Hres).
  destruct (Hclaim ShortcutExample.env [["C:"; "d"]]%string
              {[ ".exe"; ".lnk" ]}%string false Examples.empty_world
              ["C:"; "d"]%string ["C:"; "d"; "a.lnk"]%string)
    as (s & out & Hrun & Hin);
    [apply list_elem_of_here|exact Hex|exact Hsub|exact Hlnk|exact Hext|].
  rewrite Hrun in Hres. injection Hres as Hres.
  apply elem_of_elements in Hin. rewrite Hres in Hin.
  apply list_elem_of_In in Hin. vm_compute in Hin.
  destruct Hin as [Hin|[]]. discriminate Hin.
Qed.

(** C10, amended. With shortcut resolution enabled and the shortcut
    extension outside the target set, the target of every shortcut that is
    encountered is in the result as soon as its extension, converted to
    lower case, is a member of the target set; the members of the target
    set are taken as they are. Nothing asks whether the target exists. *)
Theorem shortcut_target_included E paths exts recursive_search w p subpath :
  p ∈ paths → path_exists E p = true →
  subpath ∈ filtered_generator E recursive_search p →
  lower_suffix subpath = ".lnk"%string →
  ".lnk"%string ∉ exts →
  lower_suffix (shortcut_target E subpath) ∈ exts →
  ∃ s out,
    find_files_with_extensions E paths exts recursive_search true w
    = (Ok s, World (out_dir w) (temp_output w) out)
    ∧ shortcut_target E subpath ∈ s.
Proof.
  intros Hp Hex Hsub Hlnk Hnot Hin.
  destruct (find_files_loop_spec E paths exts recursive_search true ∅ w)
    as (s & out & Hrun & Hs).
  exists s, out. split; [done|].
  apply Hs. right. exists p, subpath. split_and!; try done.
  by apply collect_shortcut.
Qed.

Lemma shortcut_target_included_witness :
  input_fs ShortcutExample.env !! ["C:"; "gone"; "b.EXE"]%string = None
  ∧ ∃ s out,
      find_files_with_extensions ShortcutExample.env [["C:"; "d"]]%string
        {[ ".exe"%string ]} false true Examples.empty_world
      = (Ok s, World ∅ None out)
      ∧ ["C:"; "gone"; "b.EXE"]%string ∈ s.
Proof.
  split; [reflexivity|].
  apply (shortcut_target_included ShortcutExample.env [["C:"; "d"]]%string
           {[ ".exe"%string ]} false Examples.empty_world
           ["C:"; "d"]%string ["C:"; "d"; "a.lnk"]%string).
  - set_solver.
  - reflexivity.
  - apply elem_of_elements, list_elem_of_In. vm_compute. tauto.
  - reflexivity.
  - set_solver.
  - apply elem_of_singleton. reflexivity.
Defined.

(** ** Names, suffixes and stems *)

Section name_facts.

Lemma app_cons c (a b : string) : String c a +:+ b = String c (a +:+ b).
Proof. done. Qed.

Lemma app_nil_l_s (b : string) : EmptyString +:+ b = b.
Proof. done. Qed.

Lemma app_nil_r_s (a : string) : a +:+ EmptyString = a.
Proof. induction a as [|c a IH]; [done|]. by rewrite app_cons, IH. Qed.

Lemma app_assoc_s (a b c : string) : (a +:+ b) +:+ c = a +:+ (b +:+ c).
Proof. induction a as [|x a IH]; [done|]. by rewrite !app_cons, IH. Qed.

Lemma length_app_s (a b : string) :
  String.length (a +:+ b) = (String.length a + String.length b)%nat.
Proof. induction a as [|x a IH]; [done|]. rewrite app_cons. simpl. lia. Qed.

Lemma app_inj_r (a1 a2 b : string) : a1 +:+ b = a2 +:+ b → a1 = a2.
Proof.
  revert a2. induction a1 as [|x a1 IH]; intros [|y a2] H.
  - done.
  - apply (f_equal String.length) in H.
    rewrite app_nil_l_s, length_app_s in H. simpl in H. lia.
  - apply (f_equal String.length) in H.
    rewrite app_nil_l_s, length_app_s in H. simpl in H. lia.
  - rewrite !app_cons in H. injection H as -> H. f_equal. by apply IH.
Qed.

Lemma substring_app_l (a b : string) :
  String.substring 0 (String.length a) (a +:+ b) = a.
Proof.
  induction a as [|x a IH].
  - rewrite app_nil_l_s. by destruct b.
  - rewrite app_cons. simpl. by rewrite IH.
Qed.

Lemma substring_all (b : string) :
  String.substring 0 (String.length b) b = b.
Proof. induction b as [|x b IH]; simpl; [done|]. by rewrite IH. Qed.

Lemma substring_app_r (a b : string) :
  String.substring (String.length a) (String.length b) (a +:+ b) = b.
Proof.
  induction a as [|x a IH].
  - rewrite app_nil_l_s. apply substring_all.
  - rewrite app_cons. simpl. by rewrite IH.
Qed.

Lemma rfind_dot_app (a b : string) :
  Pathlib.rfind_dot (a +:+ b)
  = match Pathlib.rfind_dot b with
    | Some j => Some (String.length a + j)%nat
    | None => Pathlib.rfind_dot a
    end.
Proof.
  induction a as [|x a IH].
  - rewrite app_nil_l_s. simpl. by destruct (Pathlib.rfind_dot b).
  - rewrite app_cons. simpl. rewrite IH.
    destruct (Pathlib.rfind_dot b); [done|].
    by destruct (Pathlib.rfind_dot a).
Qed.

Lemma rfind_dot_split (t : string) i :
  Pathlib.rfind_dot t = Some i →
  ∃ a x, t = a +:+ String "." x ∧ String.length a = i ∧ dot_free x.
Proof.
  revert i. induction t as [|c t IH]; intros i; simpl; [done|].
  destruct (Pathlib.rfind_dot t) as [j|] eqn:Hj.
  - intros [= <-]. destruct (IH j eq_refl) as (a & x & -> & <- & Hx).
    exists (String c a), x. done.
  - case_decide as Hc; [|done]. intros [= <-]. subst c.
    exists EmptyString, t. done.
Qed.

Lemma suffix_index_app_proper (a x : string) :
  a ≠ EmptyString → x ≠ EmptyString → dot_free x →
  Pathlib.suffix_index (a +:+ String "." x) = Some (String.length a).
Proof.
  intros Ha Hx Hfree. unfold Pathlib.suffix_index.
  rewrite rfind_dot_app. simpl. rewrite Hfree.
  rewrite Nat.add_0_r, length_app_s. simpl.
  destruct a; [done|]. destruct x; [done|]. simpl.
  case_match eqn:Hc; [done|].
  apply Nat.ltb_ge in Hc; lia.
Qed.

Lemma suffix_app_proper (a c : string) :
  a ≠ EmptyString → proper_suffix c → Pathlib.suffix (a +:+ c) = c.
Proof.
  intros Ha (x & -> & Hx & Hfree). unfold Pathlib.suffix.
  rewrite suffix_index_app_proper by done.
  rewrite length_app_s.
  replace (String.length a + String.length (String "." x) - String.length a)%nat
    with (String.length (String "." x)) by lia.
  apply substring_app_r.
Qed.

Lemma stem_app_proper (a c : string) :
  a ≠ EmptyString → proper_suffix c → Pathlib.stem (a +:+ c) = a.
Proof.
  intros Ha (x & -> & Hx & Hfree). unfold Pathlib.stem.
  rewrite suffix_index_app_proper by done.
  apply substring_app_l.
Qed.

Lemma suffix_index_bounds t i :
  Pathlib.suffix_index t = Some i →
  Pathlib.rfind_dot t = Some i ∧ (0 < i < String.length t - 1)%nat.
Proof.
  unfold Pathlib.suffix_index.
  destruct (Pathlib.rfind_dot t) as [j|]; [|done].
  case_match eqn:Hc; [|done]. intros [= <-].
  apply andb_true_iff in Hc as [?%Nat.ltb_lt ?%Nat.ltb_lt]. done.
Qed.

(** A name is its stem followed by its suffix, and the suffix is empty or
    proper. *)
Lemma stem_suffix t :
  t = Pathlib.stem t +:+ Pathlib.suffix t
  ∧ (Pathlib.suffix t = EmptyString
     ∨ proper_suffix (Pathlib.suffix t) ∧ Pathlib.stem t ≠ EmptyString).
Proof.
  unfold Pathlib.stem, Pathlib.suffix.
  destruct (Pathlib.suffix_index t) as [i|] eqn:Hi.
  - apply suffix_index_bounds in Hi as [Hr Hb].
    destruct (rfind_dot_split _ _ Hr) as (a & x & -> & <- & Hx).
    rewrite length_app_s in *. simpl in Hb.
    replace (String.length a + String.length (String "." x) - String.length a)%nat
      with (String.length (String "." x)) by lia.
    rewrite substring_app_l, substring_app_r. split; [done|].
    right. split.
    + exists x. split_and!; [done| |done]. intros ->. simpl in Hb. lia.
    + intros ->. simpl in Hb. lia.
  - split; [by rewrite app_nil_r_s|by left].
Qed.

Lemma suffix_empty_iff t :
  Pathlib.suffix t = EmptyString ↔ Pathlib.suffix_index t = None.
Proof.
  split.
  - intros Hs. destruct (stem_suffix t) as [_ [_|[(x & Hx & _) _]]].
    + unfold Pathlib.suffix in Hs.
      destruct (Pathlib.suffix_index t) as [i|] eqn:Hi; [|done].
      apply suffix_index_bounds in Hi as [Hr Hb].
      destruct (rfind_dot_split _ _ Hr) as (a & x & -> & <- & Hx).
      rewrite length_app_s in Hs.
      replace (String.length a + String.length (String "." x) - String.length a)%nat
        with (String.length (String "." x)) in Hs by lia.
      by rewrite substring_app_r in Hs.
    + by rewrite Hs in Hx.
  - unfold Pathlib.suffix. by intros ->.
Qed.

(** With a tail that has no dot the suffix index is decided by the head. *)
Lemma suffix_index_app_dot_free (a b : string) :
  b ≠ EmptyString → dot_free b →
  Pathlib.suffix_index (a +:+ b)
  = match Pathlib.rfind_dot a with
    | Some i => if (0 <? i)%nat then Some i else None
    | None => None
    end.
Proof.
  intros Hb Hfree. unfold Pathlib.suffix_index.
  rewrite rfind_dot_app, Hfree.
  destruct (Pathlib.rfind_dot a) as [i|] eqn:Hi; [|done].
  destruct (rfind_dot_split _ _ Hi) as (a' & x & -> & <- & _).
  rewrite !length_app_s. destruct b; [done|]. simpl.
  destruct (0 <? String.length a')%nat; [|done]. simpl.
  case_match eqn:Hc; [done|]. apply Nat.ltb_ge in Hc. lia.
Qed.

Lemma suffix_empty_app_dot_free (a b b' : string) :
  b ≠ EmptyString → dot_free b → b' ≠ EmptyString → dot_free b' →
  Pathlib.suffix (a +:+ b) = EmptyString →
  Pathlib.suffix (a +:+ b') = EmptyString.
Proof.
  intros ????. rewrite !suffix_empty_iff.
  by rewrite !suffix_index_app_dot_free.
Qed.

Lemma dot_free_app (a b : string) : dot_free a → dot_free b → dot_free (a +:+ b).
Proof. unfold dot_free. intros Ha Hb. by rewrite rfind_dot_app, Hb. Qed.

Lemma lower_empty s : Py.lower s = EmptyString ↔ s = EmptyString.
Proof. by destruct s. Qed.

End name_facts.

(** ** The search for the ICON pattern *)

Section regex_facts.

Lemma icon_segment_at_inv seg :
  icon_segment_at seg = true →
  ∃ c0 c1 c2 rest,
    seg = String c0 ("ICON" +:+ String c1 (String c2 rest))
    ∧ is_sep c0 = true ∧ is_sep c1 = true ∧ Py.isspace c2 = false.
Proof.
  destruct seg as [|c0 [|i [|c [|o [|n [|c1 [|c2 rest]]]]]]]; try done;
    unfold icon_segment_at.
  all: destruct i as [[] [] [] [] [] [] [] []]; try done.
  all: destruct c as [[] [] [] [] [] [] [] []]; try done.
  all: destruct o as [[] [] [] [] [] [] [] []]; try done.
  all: destruct n as [[] [] [] [] [] [] [] []]; try done.
  intros [[? ?]%andb_true_iff ?%negb_true_iff]%andb_true_iff.
  by exists c0, c1, c2, rest.
Qed.

Lemma icon_segment_at_intro c0 c1 c2 rest :
  is_sep c0 = true → is_sep c1 = true → Py.isspace c2 = false →
  icon_segment_at (String c0 ("ICON" +:+ String c1 (String c2 rest))) = true.
Proof. intros H0 H1 H2. simpl. by rewrite H0, H1, H2. Qed.

Lemma re_search_icon_inv s :
  re_search_icon s = true →
  ∃ pre c seg,
    s = pre +:+ String c seg ∧ c ≠ "010"%char ∧ icon_segment_at seg = true.
Proof.
  induction s as [|c s IH]; simpl; [done|].
  intros [[Hc%negb_true_iff%bool_decide_eq_false Hseg]%andb_true_iff|Hs]%orb_true_iff.
  - by exists EmptyString, c, s.
  - destruct (IH Hs) as (pre & c' & seg & -> & ? & ?).
    by exists (String c pre), c', seg.
Qed.

Lemma re_search_icon_intro pre c seg :
  c ≠ "010"%char → icon_segment_at seg = true →
  re_search_icon (pre +:+ String c seg) = true.
Proof.
  intros Hc Hseg. induction pre as [|x pre IH].
  - rewrite app_nil_l_s. simpl.
    by rewrite Hseg, (bool_decide_eq_false_2 _ Hc).
  - rewrite app_cons. simpl. rewrite IH. apply orb_true_r.
Qed.

Lemma match_plus_dot_last s :
  re_match (RePlus ReDot) s →
  ∃ s' c, s = s' +:+ String c EmptyString ∧ c ≠ "010"%char.
Proof.
  remember (RePlus ReDot) as r eqn:Hr. intros Hm.
  induction Hm as [| | |r s Hs _|r s1 s2 _ _ _ IH]; try done.
  - injection Hr as ->. inversion Hs; subst. by exists EmptyString, c.
  - destruct (IH Hr) as (s' & c & -> & Hc).
    exists (s1 +:+ s'), c. by rewrite app_assoc_s.
Qed.

Lemma match_plus_class_head p s :
  re_match (RePlus (ReClass p)) s →
  ∃ c rest, s = String c rest ∧ p c = true.
Proof.
  remember (RePlus (ReClass p)) as r eqn:Hr. intros Hm.
  induction Hm as [| | |r s Hs _|r s1 s2 Hs1 _ _ _]; try done.
  - injection Hr as ->. inversion Hs; subst. by exists c, EmptyString.
  - injection Hr as ->. inversion Hs1; subst. by exists c, s2.
Qed.

Lemma match_class_inv p s :
  re_match (ReClass p) s → ∃ c, s = String c EmptyString ∧ p c = true.
Proof. inversion 1; subst. eauto. Qed.

Lemma match_char_inv c s : re_match (re_char c) s → s = String c EmptyString.
Proof.
  intros (x & -> & Hx%bool_decide_eq_true)%match_class_inv. by subst.
Qed.

Lemma match_seq_inv r1 r2 s :
  re_match (ReSeq r1 r2) s →
  ∃ s1 s2, s = s1 +:+ s2 ∧ re_match r1 s1 ∧ re_match r2 s2.
Proof. inversion 1; subst. eauto. Qed.

(** [re_search_icon] is [re.search] with the pattern of the script. *)
Lemma re_search_icon_correct s :
  re_search_icon s = true ↔ re_search icon_regex s.
Proof.
  split.
  - intros (pre & c & seg & -> & Hc & Hseg)%re_search_icon_inv.
    apply icon_segment_at_inv in Hseg
      as (c0 & c1 & c2 & rest & -> & H0 & H1 & H2).
    exists pre,
      (String c EmptyString
         +:+ String c0 EmptyString
         +:+ String "I" EmptyString +:+ String "C" EmptyString
         +:+ String "O" EmptyString +:+ String "N" EmptyString
         +:+ String c1 EmptyString +:+ String c2 EmptyString), rest.
    split; [done|].
    unfold icon_regex.
    repeat (apply match_seq || apply match_plus_one || apply match_dot
            || apply match_class);
      try done; try (by apply bool_decide_eq_true).
    by rewrite H2.
  - intros (pre & m & post & -> & Hm).
    apply match_seq_inv in Hm as (s1 & m1 & -> & Hs1 & Hm).
    apply match_seq_inv in Hm as (x0 & m2 & -> & Hx0 & Hm).
    apply match_seq_inv in Hm as (xi & m3 & -> & ->%match_char_inv & Hm).
    apply match_seq_inv in Hm as (xc & m4 & -> & ->%match_char_inv & Hm).
    apply match_seq_inv in Hm as (xo & m5 & -> & ->%match_char_inv & Hm).
    apply match_seq_inv in Hm as (xn & m6 & -> & ->%match_char_inv & Hm).
    apply match_seq_inv in Hm as (x1 & m7 & -> & Hx1 & Hm).
    apply match_class_inv in Hx0 as (c0 & -> & H0).
    apply match_class_inv in Hx1 as (c1 & -> & H1).
    apply match_plus_class_head in Hm as (c2 & rest & -> & H2%negb_true_iff).
    apply match_plus_dot_last in Hs1 as (s' & c & -> & Hc).
    match goal with
    | |- re_search_icon ?x = true =>
        replace x with
          ((pre +:+ s')
             +:+ String c
                   (String c0
                      ("ICON" +:+ String c1 (String c2 (rest +:+ post)))))
          by (by rewrite !app_assoc_s)
    end.
    apply re_search_icon_intro; [done|].
    by apply (icon_segment_at_intro c0 c1 c2).
Qed.

End regex_facts.

(** ** The free name of the target *)

Section free_target_facts.

Lemma pretty_N_go_dot_free x s : dot_free s → dot_free (pretty_N_go x s).
Proof.
  revert s. induction (N.lt_wf_0 x) as [x _ IH]; intros s Hs.
  destruct (decide (x = 0)%N) as [->|].
  - by rewrite pretty_N_go_0.
  - rewrite pretty_N_go_step by lia. apply IH.
    + apply N.div_lt; lia.
    + unfold dot_free in *. simpl. rewrite Hs.
      unfold pretty_N_char. by repeat case_match.
Qed.

Lemma pretty_nat_dot_free (i : nat) : dot_free (pretty i).
Proof.
  unfold pretty, pretty_nat, pretty, pretty_N.
  case_decide; [done|]. by apply pretty_N_go_dot_free.
Qed.

Lemma numbered_inj original_stem c i j :
  numbered original_stem i c = numbered original_stem j c → i = j.
Proof.
  unfold numbered. intros H.
  apply (inj (String.app original_stem)) in H.
  apply (inj (String.app " (")) in H.
  apply app_inj_r in H. by apply (inj pretty) in H.
Qed.

Lemma numbered_split original_stem i c :
  numbered original_stem i c
  = (original_stem +:+ " (" +:+ pretty i +:+ ")") +:+ c
  ∧ original_stem +:+ " (" +:+ pretty i +:+ ")" ≠ EmptyString.
Proof.
  unfold numbered. split.
  - by rewrite !app_assoc_s.
  - intros H%(f_equal String.length).
    rewrite !length_app_s in H. simpl in H. lia.
Qed.

Lemma numbered_tail_dot_free (i : nat) :
  " (" +:+ pretty i +:+ ")" ≠ EmptyString
  ∧ dot_free (" (" +:+ pretty i +:+ ")").
Proof.
  split; [done|].
  apply (dot_free_app " ("); [done|].
  apply dot_free_app; [apply pretty_nat_dot_free|done].
Qed.

Lemma stable_proper original_stem c :
  proper_suffix c → stable original_stem c.
Proof.
  intros Hc j. destruct (numbered_split original_stem j c) as [-> Hne].
  by apply suffix_app_proper.
Qed.

Lemma stable_empty original_stem j0 :
  Pathlib.suffix (numbered original_stem j0 EmptyString) = EmptyString →
  stable original_stem EmptyString.
Proof.
  unfold stable, numbered. intros H j.
  rewrite !app_nil_r_s in *.
  destruct (numbered_tail_dot_free j0), (numbered_tail_dot_free j).
  by apply (suffix_empty_app_dot_free original_stem
              (" (" +:+ pretty j0 +:+ ")") (" (" +:+ pretty j +:+ ")")).
Qed.

(** After one round of the loop the suffix no longer changes. *)
Lemma stable_after_one_round original_stem t j :
  stable original_stem
    (Pathlib.suffix (numbered original_stem j (Pathlib.suffix t))).
Proof.
  destruct (stem_suffix (numbered original_stem j (Pathlib.suffix t)))
    as [_ [Hc|[Hc _]]]; [|by apply stable_proper].
  rewrite Hc.
  destruct (stem_suffix t) as [_ [Ht|[Ht _]]].
  - rewrite Ht in Hc. by eapply stable_empty.
  - rewrite (stable_proper original_stem _ Ht j) in Hc.
    rewrite Hc in Ht. by destruct Ht as (x & ? & _).
Qed.

Lemma free_target_loop_stable out original_stem c :
  stable original_stem c →
  ∀ fuel i t, Pathlib.suffix t = c →
    match free_target_loop fuel out original_stem i t with
    | Some t' =>
        out !! t' = None
        ∧ (t' = t
           ∨ is_Some (out !! t)
             ∧ ∃ k, (i < k ≤ i + fuel)%nat
                    ∧ t' = numbered original_stem k c
                    ∧ ∀ j, (i < j < k)%nat →
                        is_Some (out !! numbered original_stem j c))
    | None =>
        is_Some (out !! t)
        ∧ ∀ j, (i < j ≤ i + fuel)%nat →
            is_Some (out !! numbered original_stem j c)
    end.
Proof.
  intros Hst fuel. induction fuel as [|fuel IH]; intros i t Ht; simpl.
  - destruct (out !! t) eqn:Hout; [|by auto].
    split; [done|]. intros j ?. lia.
  - destruct (out !! t) eqn:Hout; [|by auto].
    rewrite Ht. fold (numbered original_stem (S i) c).
    specialize (IH (S i) (numbered original_stem (S i) c) (Hst (S i))).
    destruct (free_target_loop _ _ _ _ _) as [t'|].
    + destruct IH as [Hfree [->|(Hex & k & Hk & -> & Hbelow)]].
      * split; [done|]. right. split; [done|].
        exists (S i). split_and!; [lia|lia|done|]. intros j ?. lia.
      * split; [done|]. right. split; [done|].
        exists k. split_and!; [lia|lia|done|].
        intros j Hj. destruct (decide (j = S i)) as [->|]; [done|].
        apply Hbelow. lia.
    + destruct IH as [Hex Hall]. split; [done|].
      intros j Hj. destruct (decide (j = S i)) as [->|]; [done|].
      apply Hall. lia.
Qed.

Lemma numbered_pigeonhole (out : gmap string string) original_stem c i fuel :
  (∀ j, (i < j ≤ i + fuel)%nat →
     is_Some (out !! numbered original_stem j c)) →
  (fuel ≤ size out)%nat.
Proof.
  intros Hall.
  set (names := (λ j, numbered original_stem j c) <$> seq (S i) fuel).
  assert (NoDup names) as Hnd.
  { apply NoDup_fmap_2_strong; [|apply NoDup_seq].
    intros j j' _ _. apply numbered_inj. }
  assert (list_to_set names ⊆ dom out) as Hsub.
  { intros x. rewrite elem_of_list_to_set. unfold names.
    rewrite list_elem_of_fmap. intros (j & -> & Hj%elem_of_seq).
    apply elem_of_dom, Hall. lia. }
  apply subseteq_size in Hsub.
  rewrite size_list_to_set, size_dom in Hsub by done.
  unfold names in Hsub. by rewrite length_fmap, length_seq in Hsub.
Qed.

Lemma free_target_loop_S fuel (out : gmap string string) original_stem i t :
  free_target_loop (S fuel) out original_stem i t
  = match out !! t with
    | None => Some t
    | Some _ =>
        free_target_loop fuel out original_stem (S i)
          (numbered original_stem (S i) (Pathlib.suffix t))
    end.
Proof. done. Qed.

(** The loop ends for every target and every output directory. *)
Lemma free_target_loop_total (out : gmap string string) target :
  is_Some (free_target_loop (3 + size out) out (Pathlib.stem target) 1 target).
Proof.
  set (original_stem := Pathlib.stem target).
  change (3 + size out)%nat with (S (S (S (size out)))).
  rewrite free_target_loop_S. destruct (out !! target); [|done].
  rewrite free_target_loop_S.
  destruct (out !! numbered original_stem 2 (Pathlib.suffix target)); [|done].
  set (c := Pathlib.suffix (numbered original_stem 2 (Pathlib.suffix target))).
  pose proof (stable_after_one_round original_stem target 2%nat) as Hst.
  fold c in Hst.
  pose proof (free_target_loop_stable out original_stem c Hst (S (size out))
                3%nat (numbered original_stem 3 c) (Hst 3%nat)) as Hloop.
  destruct (free_target_loop _ _ _ _ _); [done|].
  destruct Hloop as [_ Hall%numbered_pigeonhole]. lia.
Qed.

(** The free name for the stem of an executable and a proper suffix: the
    plain name when it is free, else the first free numbered name, counted
    from 2. *)
Lemma free_target_loop_proper (out : gmap string string) exe_stem c :
  exe_stem ≠ EmptyString → proper_suffix c →
  ∃ t, free_target_loop (3 + size out) out (Pathlib.stem (exe_stem +:+ c)) 1
         (exe_stem +:+ c) = Some t
       ∧ out !! t = None
       ∧ (t = exe_stem +:+ c
          ∨ is_Some (out !! (exe_stem +:+ c))
            ∧ ∃ k, (2 ≤ k)%nat ∧ t = numbered exe_stem k c
                   ∧ ∀ j, (2 ≤ j < k)%nat →
                       is_Some (out !! numbered exe_stem j c)).
Proof.
  intros Hne Hc.
  destruct (free_target_loop_total out (exe_stem +:+ c)) as [t Ht].
  exists t. split; [done|].
  pose proof (free_target_loop_stable out exe_stem c (stable_proper _ _ Hc)
                (3 + size out)%nat 1%nat (exe_stem +:+ c)
                (suffix_app_proper _ _ Hne Hc)) as Hloop.
  rewrite (stem_app_proper _ _ Hne Hc) in Ht. rewrite Ht in Hloop.
  destruct Hloop as [Hfree [->|(Hex & k & Hk & -> & Hbelow)]].
  - split; [done|]. by left.
  - split; [done|]. right. split; [done|].
    exists k. split_and!; [lia|done|]. intros j ?. apply Hbelow. lia.
Qed.

End free_target_facts.

(** ** One extraction *)

Section step_facts.
Context (E : externals).

Lemma format_name_proper fmt : proper_suffix ("." +:+ format_name fmt).
Proof. exists (format_name fmt). by destruct fmt. Qed.

Lemma suffix_guessed nm fmt :
  nm ≠ EmptyString →
  Pathlib.suffix (nm +:+ "." +:+ format_name fmt) = "." +:+ format_name fmt.
Proof. intros. apply suffix_app_proper; [done|apply format_name_proper]. Qed.

Lemma stem_no_suffix nm :
  Pathlib.suffix nm = EmptyString → Pathlib.stem nm = nm.
Proof.
  intros Hs. destruct (stem_suffix nm) as [Hnm _].
  rewrite Hs, app_nil_r_s in Hnm. done.
Qed.

Lemma extract_icon_from_exe_spec path_7zip exe_path inner tmp w d :
  staging_ok w d →
  extract_icon_from_exe E path_7zip exe_path inner tmp w
  = match attempt_of E path_7zip exe_path inner with
    | NotExtracted =>
        (Ok None, World (out_dir w) (Some d)
                    (stdout w ++ [MsgExtractFailed inner exe_path]))
    | OpensDirectory =>
        (Raise OSError, World (out_dir w) (Some d) (stdout w ++ [MsgGuessing]))
    | NotRecognised nm data =>
        (Ok None, World (out_dir w) (Some (<[nm := data]> d))
                    (stdout w ++ [MsgGuessing; MsgGuessFailed (tmp ++ [nm])]))
    | Staged nm icon data guessed =>
        (Ok (Some icon),
         World (out_dir w) (Some (<[icon := data]> (delete nm d)))
           (stdout w ++ if guessed then [MsgGuessing] else []))
    end.
Proof.
  intros [Htmp Hd].
  unfold extract_icon_from_exe, run_extract_cmd, attempt_of.
  destruct (seven_zip_extract E path_7zip exe_path inner) as [rc data].
  set (nm := Pathlib.name_of_text inner).
  destruct (decide (rc ≠ 0)) as [Hrc|Hrc].
  { assert ((rc =? 0) = false) as Hz by lia.
    cbv [mbind M_bind mret M_ret modify print]. rewrite Hz. simpl.
    rewrite decide_True by done. by rewrite Htmp. }
  assert (rc = 0) as -> by lia.
  destruct (denotes_directory nm) eqn:Hdir.
  { cbv [mbind M_bind mret M_ret modify print get_world imghdr_what_file raise].
    simpl. rewrite Hdir. simpl.
    assert (Py.lower (Pathlib.suffix nm) = EmptyString) as ->.
    { unfold denotes_directory in Hdir.
      apply orb_true_iff in Hdir as [->%bool_decide_eq_true| ->%bool_decide_eq_true];
        done. }
    rewrite decide_True by done. simpl. by rewrite Htmp. }
  cbv [mbind M_bind mret M_ret modify print get_world]. simpl.
  unfold set_temp_output. rewrite Htmp. simpl.
  destruct (decide (Pathlib.suffix nm = EmptyString)) as [Hs|Hs].
  - rewrite decide_True by (by rewrite Hs).
    cbv [imghdr_what_file get_world mbind M_bind raise mret M_ret]. simpl.
    rewrite Hdir, lookup_insert_eq.
    destruct (imghdr_what E data) as [fmt|];
      [|simpl; by rewrite <-(assoc_L (++))].
    assert (nm ≠ EmptyString) as Hne.
    { intros Hnm. unfold denotes_directory in Hdir. by rewrite Hnm in Hdir. }
    unfold Pathlib.with_suffix. rewrite (stem_no_suffix _ Hs).
    cbv [rename get_world mbind M_bind raise mret M_ret modify]. simpl.
    rewrite lookup_insert_eq.
    assert (nm +:+ "." +:+ format_name fmt ≠ nm) as Hne'.
    { intros Heq%(f_equal Pathlib.suffix).
      rewrite suffix_guessed, Hs in Heq by done. done. }
    rewrite lookup_insert_ne by done.
    assert (d !! (nm +:+ "." +:+ format_name fmt) = None) as Hfree.
    { destruct (d !! _) eqn:Hl; [|done].
      specialize (Hd _ (mk_is_Some _ _ Hl)).
      by rewrite suffix_guessed in Hd. }
    rewrite Hfree. rewrite bool_decide_eq_false_2 by (by intros [? ?]).
    unfold set_temp_output. simpl. by rewrite delete_insert_eq.
  - rewrite decide_False by (by rewrite lower_empty).
    rewrite app_nil_r.
    rewrite <-(insert_delete_eq d nm data) at 1. done.
Qed.

End step_facts.

(** ** The loop of the Extraction Orchestrator *)

Section loop_facts.
Context (E : externals).

Lemma free_target_loop_free fuel (out : gmap string string) original_stem i t t' :
  free_target_loop fuel out original_stem i t = Some t' → out !! t' = None.
Proof.
  revert i t. induction fuel as [|fuel IH]; intros i t; simpl.
  - destruct (out !! t) eqn:Ht; [done|]. by intros [= <-].
  - destruct (out !! t) eqn:Ht; [apply IH|]. by intros [= <-].
Qed.

Lemma free_target_loop_shape fuel (out : gmap string string) original_stem i t t' :
  free_target_loop fuel out original_stem i t = Some t' →
  t' = t ∨ ∃ k c, (i < k)%nat ∧ t' = numbered original_stem k c.
Proof.
  revert i t. induction fuel as [|fuel IH]; intros i t; simpl.
  - destruct (out !! t); [done|]. intros [= <-]. by left.
  - destruct (out !! t); [|intros [= <-]; by left].
    intros [->|(k & c & Hk & ->)]%IH; right.
    + exists (S i), (Pathlib.suffix t). split; [lia|done].
    + exists k, c. split; [lia|done].
Qed.

Lemma resolved_target_free (out : gmap string string) target :
  out !! resolved_target out target = None.
Proof.
  unfold resolved_target.
  destruct (free_target_loop_total out target) as [t Ht]. rewrite Ht. simpl.
  by eapply free_target_loop_free.
Qed.

Lemma resolved_target_shape (out : gmap string string) target :
  resolved_target out target = target
  ∨ ∃ k c, (2 ≤ k)%nat
           ∧ resolved_target out target = numbered (Pathlib.stem target) k c.
Proof.
  unfold resolved_target.
  destruct (free_target_loop_total out target) as [t Ht]. rewrite Ht. simpl.
  apply free_target_loop_shape in Ht as [->|(k & c & Hk & ->)]; [by left|].
  right. exists k, c. split; [lia|done].
Qed.

Lemma free_target_spec target w :
  free_target target w = (Ok (resolved_target (out_dir w) target), w).
Proof.
  unfold free_target, resolved_target.
  cbv [mbind M_bind get_world mret M_ret raise].
  by destruct (free_target_loop_total (out_dir w) target) as [t ->].
Qed.

Lemma attempt_staged path_7zip exe_path inner nm icon data guessed :
  attempt_of E path_7zip exe_path inner = Staged nm icon data guessed →
  nm ≠ EmptyString
  ∧ proper_suffix (Pathlib.suffix icon)
  ∧ (if guessed
     then Pathlib.suffix nm = EmptyString
          ∧ ∃ fmt, icon = nm +:+ "." +:+ format_name fmt
     else icon = nm).
Proof.
  unfold attempt_of.
  destruct (seven_zip_extract E path_7zip exe_path inner) as [rc data'].
  case_decide; [done|].
  destruct (denotes_directory _) eqn:Hdir; [done|].
  assert (Pathlib.name_of_text inner ≠ EmptyString) as Hne.
  { intros Hnm. unfold denotes_directory in Hdir. by rewrite Hnm in Hdir. }
  case_decide as Hs.
  - destruct (imghdr_what E data') as [fmt|]; [|done].
    intros [= <- <- <- <-]. split_and!; [done| |done|by exists fmt].
    rewrite suffix_guessed by done. apply format_name_proper.
  - intros [= <- <- <- <-]. split_and!; [done| |done].
    by destruct (stem_suffix (Pathlib.name_of_text inner)) as [_ [?|[? _]]].
Qed.

Lemma attempt_not_recognised path_7zip exe_path inner nm data :
  attempt_of E path_7zip exe_path inner = NotRecognised nm data →
  Pathlib.suffix nm = EmptyString.
Proof.
  unfold attempt_of.
  destruct (seven_zip_extract E path_7zip exe_path inner) as [rc data'].
  repeat case_decide; try done; destruct (denotes_directory _); try done.
  destruct (imghdr_what E data'); [done|]. by intros [= <- <-].
Qed.

(** One round of the loop, by the outcome of the extraction. *)
Lemma extract_icons_loop_cons path_7zip exe_path file_index inner size rest
    output_dir_path tmp largest num_icons w d :
  staging_ok w d →
  extract_icons_loop E path_7zip exe_path file_index ((inner, size) :: rest)
    output_dir_path tmp largest num_icons w
  = match attempt_of E path_7zip exe_path inner with
    | NotExtracted =>
        extract_icons_loop E path_7zip exe_path (S file_index) rest
          output_dir_path tmp largest num_icons
          (World (out_dir w) (Some d)
             (stdout w ++ [MsgExtracting file_index inner size;
                           MsgExtractFailed inner exe_path;
                           MsgFailedToExtract]))
    | OpensDirectory =>
        (Raise OSError,
         World (out_dir w) (Some d)
           (stdout w ++ [MsgExtracting file_index inner size; MsgGuessing]))
    | NotRecognised nm data =>
        extract_icons_loop E path_7zip exe_path (S file_index) rest
          output_dir_path tmp largest num_icons
          (World (out_dir w) (Some (<[nm := data]> d))
             (stdout w ++ [MsgExtracting file_index inner size;
                           MsgGuessing; MsgGuessFailed (tmp ++ [nm]);
                           MsgFailedToExtract]))
    | Staged nm icon data guessed =>
        let t := resolved_target (out_dir w)
                   (Pathlib.stem (Pathlib.name exe_path)
                      +:+ Pathlib.suffix icon) in
        let w' := saved_world w d file_index inner size output_dir_path
                    nm data guessed t in
        if largest then (Ok (S num_icons), w')
        else
          extract_icons_loop E path_7zip exe_path (S file_index) rest
            output_dir_path tmp largest (S num_icons) w'
    end.
Proof.
  intros [Htmp Hd]. simpl. rewrite bind_print.
  pose proof (extract_icon_from_exe_spec E path_7zip exe_path inner tmp
    (World (out_dir w) (temp_output w)
       (stdout w ++ [MsgExtracting file_index inner size])) d
    (conj Htmp Hd)) as Hspec.
  simpl in Hspec.
  destruct (attempt_of E path_7zip exe_path inner)
    as [| |nm data|nm icon data guessed] eqn:Hatt.
  - erewrite bind_ok by exact Hspec. cbv beta iota. rewrite bind_print.
    simpl. by rewrite <-!(assoc_L (++)).
  - erewrite bind_raise by exact Hspec. by rewrite <-!(assoc_L (++)).
  - erewrite bind_ok by exact Hspec. cbv beta iota. rewrite bind_print.
    simpl. by rewrite <-!(assoc_L (++)).
  - erewrite bind_ok by exact Hspec. cbv beta iota.
    erewrite bind_ok by apply free_target_spec. rewrite bind_print.
    cbv [shutil_move get_world mbind M_bind mret M_ret modify]. simpl.
    rewrite lookup_insert_eq. unfold saved_world, set_temp_output, set_out_dir.
    simpl.
    assert (delete icon (<[icon := data]> (delete nm d)) = delete nm d) as ->.
    { rewrite delete_insert_eq.
      apply attempt_staged in Hatt as (Hne & Hprop & Hg).
      destruct guessed; [|by rewrite Hg, delete_delete_eq].
      apply delete_id, lookup_delete_None. right.
      destruct (d !! icon) eqn:Hl; [|done].
      specialize (Hd _ (mk_is_Some _ _ Hl)). rewrite Hd in Hprop.
      by destruct Hprop as (x & ? & _). }
    rewrite <-!(assoc_L (++)). by destruct largest.
Qed.

End loop_facts.

(** ** The loops and their models *)

Section model_facts.
Context (E : externals) (path_7zip : path) (output_dir_path tmp : path)
  (largest : bool).

Lemma saved_app l1 l2 : saved (l1 ++ l2) = saved l1 ++ saved l2.
Proof. apply omap_app. Qed.

Lemma attempted_app l1 l2 : attempted (l1 ++ l2) = attempted l1 ++ attempted l2.
Proof. apply omap_app. Qed.

Lemma o_printed_before msgs o :
  o_printed (printed_before msgs o) = msgs ++ o_printed o.
Proof. done. Qed.

Lemma o_result_before msgs o : o_result (printed_before msgs o) = o_result o.
Proof. done. Qed.

Lemma o_out_before msgs o : o_out (printed_before msgs o) = o_out o.
Proof. done. Qed.

Lemma o_staging_before msgs o : o_staging (printed_before msgs o) = o_staging o.
Proof. done. Qed.

Lemma saved_before msgs o :
  saved (o_printed (printed_before msgs o)) = saved msgs ++ saved (o_printed o).
Proof. apply omap_app. Qed.

Lemma attempted_before msgs o :
  attempted (o_printed (printed_before msgs o))
  = attempted msgs ++ attempted (o_printed o).
Proof. apply omap_app. Qed.

Lemma world_after_printed_before w msgs o :
  world_after w (printed_before msgs o)
  = world_after (World (out_dir w) (temp_output w) (stdout w ++ msgs)) o.
Proof. unfold world_after, printed_before. simpl. by rewrite (assoc_L (++)). Qed.

Lemma resolved_target_or_taken (out : gmap string string) target :
  resolved_target out target = target ∨ is_Some (out !! target).
Proof.
  unfold resolved_target. change (3 + size out)%nat with (S (2 + size out)).
  rewrite free_target_loop_S. destruct (out !! target); [by right|by left].
Qed.

Lemma staging_ok_not_recognised w d exe_path inner nm data msgs :
  staging_ok w d →
  attempt_of E path_7zip exe_path inner = NotRecognised nm data →
  staging_ok (World (out_dir w) (Some (<[nm := data]> d)) msgs)
    (<[nm := data]> d).
Proof.
  intros [_ Hd] Hatt. split; [done|].
  intros x [->|[_ Hx]]%lookup_insert_is_Some; [|by apply Hd].
  by eapply attempt_not_recognised.
Qed.

Lemma staging_ok_saved w d file_index inner size nm data guessed t :
  staging_ok w d →
  staging_ok
    (saved_world w d file_index inner size output_dir_path nm data guessed t)
    (delete nm d).
Proof.
  intros [_ Hd]. split; [done|].
  intros x [_ Hx]%lookup_delete_is_Some. by apply Hd.
Qed.

(** The loop of the orchestrator is its model. *)
Lemma extract_icons_loop_model exe_path entries :
  ∀ file_index num_icons w d,
    staging_ok w d →
    extract_icons_loop E path_7zip exe_path file_index entries
      output_dir_path tmp largest num_icons w
    = world_after w
        (loop_model E path_7zip output_dir_path tmp largest exe_path
           file_index entries num_icons (out_dir w) d).
Proof.
  induction entries as [|[inner size] rest IH];
    intros file_index num_icons w d Hok.
  { destruct Hok as [Htmp _]. unfold world_after. simpl.
    rewrite app_nil_r, <-Htmp. by destruct w. }
  rewrite (extract_icons_loop_cons E _ _ _ _ _ _ _ _ _ _ _ _ Hok). simpl.
  destruct (attempt_of E path_7zip exe_path inner)
    as [| |nm data|nm icon data guessed] eqn:Hatt.
  - rewrite world_after_printed_before. destruct Hok as [Htmp Hd].
    rewrite (IH _ _ _ d) by done. simpl. by rewrite Htmp.
  - done.
  - rewrite world_after_printed_before.
    rewrite (IH _ _ _ (<[nm := data]> d))
      by (by eapply staging_ok_not_recognised).
    unfold world_after. simpl. done.
  - rewrite world_after_printed_before.
    destruct largest.
    + unfold world_after, saved_world. simpl. by rewrite app_nil_r.
    + rewrite (IH _ _ _ (delete nm d)) by (by apply staging_ok_saved).
      unfold world_after, saved_world. simpl. done.
Qed.

End model_facts.

Section loop_model_facts.
Context (E : externals) (path_7zip : path) (output_dir_path tmp : path).

Local Abbreviation loop := (loop_model E path_7zip output_dir_path tmp).
Local Abbreviation attempt_at exe_path :=
  (λ e : icon_entry, attempt_of E path_7zip exe_path e.1).

Ltac model_step := cbn [loop_model saved_bases]; cbv zeta.
Ltac model_norm :=
  rewrite ?saved_before, ?attempted_before, ?o_printed_before, ?o_out_before,
    ?o_result_before, ?o_staging_before.

Lemma saved_announcement file_index inner size (guessed : bool) t :
  saved ([MsgExtracting file_index inner size]
           ++ (if guessed then [MsgGuessing] else [])
           ++ [MsgSaving t]) = [t].
Proof. by destruct guessed. Qed.

Lemma attempted_announcement file_index inner size (guessed : bool) t :
  attempted ([MsgExtracting file_index inner size]
               ++ (if guessed then [MsgGuessing] else [])
               ++ [MsgSaving t]) = [(file_index, (inner, size))].
Proof. by destruct guessed. Qed.

Lemma loop_model_staging largest exe_path entries :
  ∀ file_index num_icons out d,
    suffixless_names d →
    suffixless_names
      (o_staging (loop largest exe_path file_index entries num_icons out d)).
Proof.
  induction entries as [|[inner size] rest IH];
    intros file_index num_icons out d Hd; model_step; [done|].
  destruct (attempt_of E path_7zip exe_path inner)
    as [| |nm data|nm icon data guessed] eqn:Hatt; model_norm.
  - by apply IH.
  - done.
  - apply IH. intros x [->|[_ Hx]]%lookup_insert_is_Some; [|by apply Hd].
    by eapply attempt_not_recognised.
  - assert (suffixless_names (delete nm d)).
    { intros x [_ Hx]%lookup_delete_is_Some. by apply Hd. }
    destruct largest; [done|by apply IH].
Qed.

(** No file of the output directory is changed, and every announced
    target is one file more and one icon more. *)
Lemma loop_model_frame largest exe_path entries :
  ∀ file_index num_icons out d,
    let o := loop largest exe_path file_index entries num_icons out d in
    out ⊆ o_out o
    ∧ size (o_out o) = (size out + length (saved (o_printed o)))%nat
    ∧ (∀ n, o_result o = Ok n →
         n = (num_icons + length (saved (o_printed o)))%nat)
    ∧ (largest = true → (length (saved (o_printed o)) ≤ 1)%nat).
Proof.
  induction entries as [|[inner size] rest IH];
    intros file_index num_icons out d; model_step.
  { simpl. split_and!; try done; try lia. intros n [= <-]. lia. }
  destruct (attempt_of E path_7zip exe_path inner)
    as [| |nm data|nm icon data guessed] eqn:Hatt; model_norm.
  - apply IH.
  - simpl. split_and!; try done; try lia.
  - apply IH.
  - set (t := resolved_target out _).
    pose proof (resolved_target_free out
      (Pathlib.stem (Pathlib.name exe_path) +:+ Pathlib.suffix icon)) as Hfree.
    fold t in Hfree. rewrite saved_announcement.
    destruct largest; simpl.
    + split_and!; try done.
      * by apply insert_subseteq.
      * rewrite map_size_insert_None by done. lia.
      * intros n [= <-]. lia.
    + destruct (IH (S file_index) (S num_icons) (<[t := data]> out)
                  (delete nm d)) as (Hsub & Hsize & Hn & _).
      split_and!; try done.
      * etrans; [|exact Hsub]. by apply insert_subseteq.
      * rewrite Hsize, map_size_insert_None by done. lia.
      * intros n Hr. rewrite (Hn n Hr). lia.
Qed.

(** After a loop that returned, the plain name of every saved entry is
    taken. *)
Lemma loop_model_bases_taken largest exe_path entries :
  ∀ file_index num_icons out d,
    let o := loop largest exe_path file_index entries num_icons out d in
    is_ok (o_result o) = true →
    ∀ b, b ∈ saved_bases E path_7zip largest exe_path entries →
      is_Some (o_out o !! b).
Proof.
  induction entries as [|[inner size] rest IH];
    intros file_index num_icons out d; model_step.
  { intros _ b Hb. by apply elem_of_nil in Hb. }
  cbn [fst].
  destruct (attempt_of E path_7zip exe_path inner)
    as [| |nm data|nm icon data guessed] eqn:Hatt; model_norm.
  - apply IH.
  - done.
  - apply IH.
  - set (target := Pathlib.stem (Pathlib.name exe_path) +:+ Pathlib.suffix icon).
    set (t := resolved_target out target).
    assert (is_Some (<[t := data]> out !! target)) as Htaken.
    { destruct (resolved_target_or_taken out target) as [Heq|Hin].
      - fold t in Heq. rewrite Heq, lookup_insert_eq. done.
      - apply lookup_insert_is_Some'. by right. }
    destruct largest; simpl.
    + intros _ b [->|[]%elem_of_nil]%elem_of_cons. exact Htaken.
    + intros Hr b [->|Hb]%elem_of_cons; [|by apply IH].
      destruct (loop_model_frame false exe_path rest (S file_index)
                  (S num_icons) (<[t := data]> out) (delete nm d))
        as (Hsub & _).
      destruct Htaken as [x Hx]. exists x.
      eapply lookup_weaken; [exact Hx|exact Hsub].
Qed.

(** When the plain names are taken, every target of the loop is a
    numbered variant. *)
Lemma loop_model_numbered largest exe_path entries :
  ∀ file_index num_icons out d,
    (∀ b, b ∈ saved_bases E path_7zip largest exe_path entries →
       is_Some (out !! b)) →
    ∀ t, t ∈ saved (o_printed
                      (loop largest exe_path file_index entries num_icons out d)) →
      numbered_variant output_dir_path t.
Proof.
  induction entries as [|[inner size] rest IH];
    intros file_index num_icons out d; model_step.
  { intros _ t Ht. by apply elem_of_nil in Ht. }
  cbn [fst].
  destruct (attempt_of E path_7zip exe_path inner)
    as [| |nm data|nm icon data guessed] eqn:Hatt; model_norm.
  - apply IH.
  - intros _ t Ht. by apply elem_of_nil in Ht.
  - apply IH.
  - set (target := Pathlib.stem (Pathlib.name exe_path) +:+ Pathlib.suffix icon).
    set (t0 := resolved_target out target).
    intros Hbases t. rewrite saved_announcement.
    intros [->|Ht]%elem_of_cons.
    + destruct (resolved_target_shape out target)
        as [Heq|(k & c & Hk & Heq)]; fold t0 in Heq.
      * pose proof (resolved_target_free out target) as Hfree.
        fold t0 in Hfree. rewrite Heq in Hfree.
        destruct (Hbases target) as [x Hx]; [left|]. congruence.
      * exists (Pathlib.stem target), k, c. by rewrite Heq.
    + destruct largest; simpl in Ht; [by apply elem_of_nil in Ht|].
      eapply IH; [|exact Ht].
      intros b Hb. apply lookup_insert_is_Some'. right.
      apply Hbases. by right.
Qed.

(** Nothing stays in an empty staging directory when no sniff fails. *)
Lemma loop_model_staging_empty largest exe_path entries :
  ∀ file_index num_icons out,
    Forall (λ e, leaves_file (attempt_at exe_path e) = false) entries →
    o_staging (loop largest exe_path file_index entries num_icons out ∅) = ∅.
Proof.
  induction entries as [|[inner size] rest IH];
    intros file_index num_icons out Hall; model_step; [done|].
  apply Forall_cons in Hall as [Hhead Hall]. simpl in Hhead.
  destruct (attempt_of E path_7zip exe_path inner)
    as [| |nm data|nm icon data guessed] eqn:Hatt; model_norm; try done.
  - by apply IH.
  - rewrite delete_empty. destruct largest; [done|by apply IH].
Qed.

(** The loop returns when no entry makes the sniffer open a directory. *)
Lemma loop_model_returns largest exe_path entries :
  ∀ file_index num_icons out d,
    Forall (λ e, opens_directory (attempt_at exe_path e) = false) entries →
    is_ok (o_result (loop largest exe_path file_index entries num_icons out d))
    = true.
Proof.
  induction entries as [|[inner size] rest IH];
    intros file_index num_icons out d Hall; model_step; [done|].
  apply Forall_cons in Hall as [Hhead Hall]. simpl in Hhead.
  destruct (attempt_of E path_7zip exe_path inner)
    as [| |nm data|nm icon data guessed] eqn:Hatt; model_norm; try done.
  - by apply IH.
  - by apply IH.
  - destruct largest; [done|by apply IH].
Qed.

(** Without the flag every entry is attempted, in order, and every entry
    that extracts is saved. *)
Lemma loop_model_all_attempted exe_path entries :
  ∀ file_index num_icons out d,
    Forall (λ e, opens_directory (attempt_at exe_path e) = false) entries →
    let o := loop false exe_path file_index entries num_icons out d in
    attempted (o_printed o) = enumerate file_index entries
    ∧ length (saved (o_printed o))
      = length (List.filter (extracts E path_7zip exe_path) entries)
    ∧ o_result o
      = Ok (num_icons
            + length (List.filter (extracts E path_7zip exe_path) entries))%nat.
Proof.
  induction entries as [|[inner size] rest IH];
    intros file_index num_icons out d Hall; model_step.
  { simpl. by rewrite Nat.add_0_r. }
  apply Forall_cons in Hall as [Hhead Hall]. simpl in Hhead.
  cbn [List.filter fst enumerate].
  assert (extracts E path_7zip exe_path (inner, size)
          = is_staged (attempt_of E path_7zip exe_path inner)) as -> by done.
  destruct (attempt_of E path_7zip exe_path inner)
    as [| |nm data|nm icon data guessed] eqn:Hatt; model_norm; try done.
  - simpl.
    destruct (IH (S file_index) num_icons out d Hall) as (-> & -> & ->).
    done.
  - simpl.
    destruct (IH (S file_index) num_icons out (<[nm := data]> d) Hall)
      as (-> & -> & ->).
    done.
  - set (t := resolved_target out _).
    rewrite saved_announcement, attempted_announcement. simpl.
    destruct (IH (S file_index) (S num_icons) (<[t := data]> out)
                (delete nm d) Hall) as (-> & -> & ->).
    split_and!; try done. f_equal. lia.
Qed.

(** With the flag the loop ends at the first entry that extracts: the
    entries in front of it were attempted, those behind it were not. *)
Lemma loop_model_first_success exe_path pre inner size post nm icon data guessed :
  Forall (λ e, is_staged (attempt_at exe_path e) = false
               ∧ opens_directory (attempt_at exe_path e) = false) pre →
  attempt_of E path_7zip exe_path inner = Staged nm icon data guessed →
  ∀ file_index num_icons out d,
    let o := loop true exe_path file_index (pre ++ (inner, size) :: post)
               num_icons out d in
    let t := resolved_target out
               (Pathlib.stem (Pathlib.name exe_path) +:+ Pathlib.suffix icon) in
    o_result o = Ok (S num_icons)
    ∧ o_out o = <[t := data]> out
    ∧ out !! t = None
    ∧ saved (o_printed o) = [output_dir_path ++ [t]]
    ∧ attempted (o_printed o) = enumerate file_index (pre ++ [(inner, size)]).
Proof.
  intros Hpre Hatt.
  induction Hpre as [|[inner' size'] pre [Hns Hno] _ IH];
    intros file_index num_icons out d; cbn [app]; model_step.
  - rewrite Hatt. model_norm.
    rewrite saved_announcement, attempted_announcement. simpl.
    split_and!; try done. apply resolved_target_free.
  - simpl in Hns, Hno. cbn [enumerate].
    destruct (attempt_of E path_7zip exe_path inner')
      as [| |nm' data'|nm' icon' data' guessed'] eqn:Hatt'; model_norm;
      try done.
    + destruct (IH (S file_index) num_icons out d) as (-> & -> & ? & -> & ->).
      done.
    + destruct (IH (S file_index) num_icons out (<[nm' := data']> d))
        as (-> & -> & ? & -> & ->).
      done.
Qed.

(** When no entry extracts, nothing is saved. *)
Lemma loop_model_no_success largest exe_path entries :
  Forall (λ e, is_staged (attempt_at exe_path e) = false
               ∧ opens_directory (attempt_at exe_path e) = false) entries →
  ∀ file_index num_icons out d,
    let o := loop largest exe_path file_index entries num_icons out d in
    o_result o = Ok num_icons ∧ o_out o = out ∧ saved (o_printed o) = [].
Proof.
  induction 1 as [|[inner size] rest [Hns Hno] _ IH];
    intros file_index num_icons out d; model_step; [done|].
  simpl in Hns, Hno.
  destruct (attempt_of E path_7zip exe_path inner)
    as [| |nm data|nm icon data guessed] eqn:Hatt; model_norm;
    first [done|apply IH].
Qed.

End loop_model_facts.

Section process_model_facts.
Context (E : externals) (path_7zip : path) (output_dir_path tmp : path)
  (largest : bool).

Local Abbreviation process :=
  (process_model E path_7zip output_dir_path tmp largest).
Local Abbreviation loop :=
  (loop_model E path_7zip output_dir_path tmp largest).
Local Abbreviation bases := (saved_bases E path_7zip largest).

Ltac model_norm :=
  rewrite ?saved_before, ?attempted_before, ?o_printed_before, ?o_out_before,
    ?o_result_before, ?o_staging_before.
Ltac same_stdout :=
  unfold world_after; simpl;
  repeat (rewrite <-?(assoc_L (++)); simpl); done.

Lemma find_icons_in_exe_spec exe_path w :
  find_icons_in_exe E path_7zip exe_path w
  = (listing_of E path_7zip exe_path,
     World (out_dir w) (temp_output w)
       (stdout w ++ listing_printed E path_7zip exe_path)).
Proof.
  unfold find_icons_in_exe, listing_of, listing_printed.
  destruct (seven_zip_list E path_7zip exe_path) as [returncode output].
  simpl. case_decide; [done|].
  unfold lift. rewrite app_nil_r. by destruct w.
Qed.

Lemma saved_listing_printed exe_path :
  saved (listing_printed E path_7zip exe_path) = [].
Proof. unfold listing_printed. by case_decide. Qed.

(** The loop of the Run Controller is its model. *)
Lemma process_executables_model exe_file_paths :
  ∀ file_index num_icons w d,
    staging_ok w d →
    process_executables E path_7zip file_index exe_file_paths
      output_dir_path tmp largest num_icons w
    = world_after w
        (process file_index exe_file_paths num_icons (out_dir w) d).
Proof.
  induction exe_file_paths as [|exe_path rest IH];
    intros file_index num_icons w d Hok.
  { destruct Hok as [Htmp _]. unfold world_after. simpl.
    rewrite app_nil_r, <-Htmp. by destruct w. }
  cbn [process_executables process_model]. rewrite bind_print.
  erewrite bind_ok_or_raise by apply find_icons_in_exe_spec.
  destruct (listing_of E path_7zip exe_path) as [[|e icon_files]|err] eqn:Hl.
  - simpl. rewrite bind_print, world_after_printed_before.
    destruct Hok as [Htmp Hd].
    rewrite (IH _ _ _ d) by done. rewrite Htmp. same_stdout.
  - cbn [length]. rewrite decide_False by done.
    unfold extract_icons.
    pose (w1 := World (out_dir w) (temp_output w)
                  ((stdout w ++ [MsgExecutable file_index exe_path])
                     ++ listing_printed E path_7zip exe_path)).
    assert (staging_ok w1 d) as Hok1 by (by destruct Hok).
    fold w1.
    erewrite bind_ok_or_raise
      by (by apply (extract_icons_loop_model E path_7zip output_dir_path tmp
                      largest exe_path (e :: icon_files) 1%nat 0%nat w1 d)).
    rewrite world_after_printed_before.
    set (o := loop exe_path 1%nat (e :: icon_files) 0%nat (out_dir w) d).
    change (out_dir w1) with (out_dir w). fold o.
    destruct (o_result o) as [n|err] eqn:Hr.
    + rewrite (IH _ _ _ (o_staging o)).
      * unfold w1. same_stdout.
      * split; [done|]. apply loop_model_staging. by destruct Hok.
    + unfold w1, world_after. simpl. rewrite app_nil_r. same_stdout.
  - destruct Hok as [-> _]. same_stdout.
Qed.

End process_model_facts.

Section process_model_props.
Context (E : externals) (path_7zip : path) (output_dir_path tmp : path)
  (largest : bool).

Local Abbreviation process :=
  (process_model E path_7zip output_dir_path tmp largest).
Local Abbreviation loop :=
  (loop_model E path_7zip output_dir_path tmp largest).
Local Abbreviation bases := (saved_bases E path_7zip largest).
Local Abbreviation listing := (listing_of E path_7zip).

Ltac model_norm :=
  rewrite ?saved_before, ?attempted_before, ?o_printed_before, ?o_out_before,
    ?o_result_before, ?o_staging_before.

Lemma saved_executable file_index exe_path l :
  saved (MsgExecutable file_index exe_path :: listing_printed E path_7zip exe_path ++ l)
  = saved l.
Proof.
  change (saved (listing_printed E path_7zip exe_path ++ l) = saved l).
  by rewrite saved_app, saved_listing_printed.
Qed.

(** The result, the staging directory and the number of saved icons do
    not depend on the content of the output directory. *)
Lemma loop_model_out_independent exe_path entries out' :
  ∀ file_index num_icons out d,
    let o := loop exe_path file_index entries num_icons out d in
    let o' := loop exe_path file_index entries num_icons out' d in
    o_result o = o_result o'
    ∧ o_staging o = o_staging o'
    ∧ length (saved (o_printed o)) = length (saved (o_printed o')).
Proof.
  revert out'.
  induction entries as [|[inner size] rest IH];
    intros out' file_index num_icons out d; cbn [loop_model]; cbv zeta;
    [done|].
  destruct (attempt_of E path_7zip exe_path inner)
    as [| |nm data|nm icon data guessed] eqn:Hatt; model_norm;
    try done; try apply IH.
  rewrite !saved_announcement. cbn [app length].
  destruct largest; [done|].
  edestruct IH as (-> & -> & ->). done.
Qed.

Lemma process_model_staging exe_file_paths :
  ∀ file_index num_icons out d,
    suffixless_names d →
    suffixless_names
      (o_staging (process file_index exe_file_paths num_icons out d)).
Proof.
  induction exe_file_paths as [|exe_path rest IH];
    intros file_index num_icons out d Hd; cbn [process_model]; [done|].
  destruct (listing exe_path) as [[|e icon_files]|err]; model_norm;
    [by apply IH| |done].
  pose proof (loop_model_staging E path_7zip output_dir_path tmp largest
                exe_path (e :: icon_files) 1%nat 0%nat out d Hd) as Hd'.
  destruct (o_result _); [by apply IH|done].
Qed.

Lemma process_model_frame exe_file_paths :
  ∀ file_index num_icons out d,
    let o := process file_index exe_file_paths num_icons out d in
    out ⊆ o_out o
    ∧ size (o_out o) = (size out + length (saved (o_printed o)))%nat
    ∧ (∀ n, o_result o = Ok n →
         n = (num_icons + length (saved (o_printed o)))%nat).
Proof.
  induction exe_file_paths as [|exe_path rest IH];
    intros file_index num_icons out d; cbn [process_model]; cbv zeta.
  { simpl. split_and!; try done; try lia. intros n [= <-]. lia. }
  destruct (listing exe_path) as [[|e icon_files]|err]; model_norm.
  - rewrite saved_executable. apply IH.
  - rewrite saved_executable.
    destruct (loop_model_frame E path_7zip output_dir_path tmp largest
                exe_path (e :: icon_files) 1%nat 0%nat out d)
      as (Hsub & Hsize & Hn & _).
    destruct (o_result _) as [n|err] eqn:Hr.
    + destruct (IH (S file_index) (num_icons + n)%nat
                  (o_out (loop exe_path 1%nat (e :: icon_files) 0%nat out d))
                  (o_staging (loop exe_path 1%nat (e :: icon_files) 0%nat out d)))
        as (Hsub' & Hsize' & Hn').
      rewrite length_app. split_and!.
      * by etrans.
      * rewrite Hsize', Hsize. lia.
      * intros n' Hr'. rewrite (Hn' n' Hr'), (Hn n eq_refl). lia.
    + simpl. rewrite app_nil_r. done.
  - cbn [o_out o_result o_printed].
    rewrite <-(app_nil_r (listing_printed _ _ _)), saved_executable. simpl.
    split_and!; try done; lia.
Qed.

(** After a run of the loop that returned, the plain name of every saved
    entry of every executable is taken. *)
Lemma process_model_bases_taken exe_file_paths :
  ∀ file_index num_icons out d,
    let o := process file_index exe_file_paths num_icons out d in
    is_ok (o_result o) = true →
    ∀ exe_path entries b,
      exe_path ∈ exe_file_paths → listing exe_path = Ok entries →
      b ∈ bases exe_path entries →
      is_Some (o_out o !! b).
Proof.
  induction exe_file_paths as [|exe_path rest IH];
    intros file_index num_icons out d; cbn [process_model]; cbv zeta.
  { intros _ ??? []%elem_of_nil. }
  destruct (listing exe_path) as [[|e icon_files]|err] eqn:Hl; model_norm.
  - intros Hr exe' entries b [->|Hin]%elem_of_cons Hl' Hb.
    + rewrite Hl in Hl'. injection Hl' as <-. by apply elem_of_nil in Hb.
    + by eapply IH.
  - set (o := loop exe_path 1%nat (e :: icon_files) 0%nat out d).
    destruct (o_result o) as [n|err] eqn:Hr; [|done].
    intros Hr' exe' entries b [->|Hin]%elem_of_cons Hl' Hb.
    + rewrite Hl in Hl'. injection Hl' as <-.
      destruct (process_model_frame rest (S file_index) (num_icons + n)%nat
                  (o_out o) (o_staging o)) as (Hsub & _).
      destruct (loop_model_bases_taken E path_7zip output_dir_path tmp largest
                  exe_path (e :: icon_files) 1%nat 0%nat out d) with (b := b)
        as [x Hx]; [by fold o; rewrite Hr|done|].
      exists x. eapply lookup_weaken; [exact Hx|exact Hsub].
    + by eapply IH.
  - done.
Qed.

(** When the plain names are taken, every target of the run is a numbered
    variant. *)
Lemma process_model_numbered exe_file_paths :
  ∀ file_index num_icons out d,
    (∀ exe_path entries b,
       exe_path ∈ exe_file_paths → listing exe_path = Ok entries →
       b ∈ bases exe_path entries → is_Some (out !! b)) →
    ∀ t, t ∈ saved (o_printed
                      (process file_index exe_file_paths num_icons out d)) →
      numbered_variant output_dir_path t.
Proof.
  induction exe_file_paths as [|exe_path rest IH];
    intros file_index num_icons out d; cbn [process_model].
  { intros _ t Ht. by apply elem_of_nil in Ht. }
  destruct (listing exe_path) as [[|e icon_files]|err] eqn:Hl; model_norm.
  - intros Hbases t. rewrite saved_executable. cbn [app].
    apply IH. intros exe' entries b Hin. apply Hbases. by right.
  - intros Hbases t. rewrite saved_executable.
    set (o := loop exe_path 1%nat (e :: icon_files) 0%nat out d).
    intros [Ht|Ht]%elem_of_app.
    + eapply (loop_model_numbered E path_7zip output_dir_path tmp largest
                exe_path (e :: icon_files) 1%nat 0%nat out d); [|exact Ht].
      intros b Hb. eapply Hbases; [left|exact Hl|exact Hb].
    + destruct (o_result o) as [n|err] eqn:Hr;
        [|by apply elem_of_nil in Ht].
      eapply IH; [|exact Ht].
      intros exe' entries b Hin Hl' Hb.
      destruct (loop_model_frame E path_7zip output_dir_path tmp largest
                  exe_path (e :: icon_files) 1%nat 0%nat out d) as (Hsub & _).
      destruct (Hbases exe' entries b) as [x Hx]; [by right|done..|].
      exists x. eapply lookup_weaken; [exact Hx|exact Hsub].
  - intros _ t. cbn [o_printed].
    rewrite <-(app_nil_r (listing_printed _ _ _)), saved_executable.
    by intros []%elem_of_nil.
Qed.

(** Nothing stays in an empty staging directory when no sniff fails. *)
Lemma process_model_staging_empty exe_file_paths :
  ∀ file_index num_icons out,
    (∀ exe_path entries,
       exe_path ∈ exe_file_paths → listing exe_path = Ok entries →
       Forall (λ e, leaves_file (attempt_of E path_7zip exe_path e.1) = false)
         entries) →
    o_staging (process file_index exe_file_paths num_icons out ∅) = ∅.
Proof.
  induction exe_file_paths as [|exe_path rest IH];
    intros file_index num_icons out Hall; cbn [process_model]; [done|].
  destruct (listing exe_path) as [[|e icon_files]|err] eqn:Hl; model_norm.
  - apply IH. intros exe' entries Hin. apply Hall. by right.
  - rewrite (loop_model_staging_empty E path_7zip output_dir_path tmp largest
               exe_path (e :: icon_files)) by (apply Hall; [left|done]).
    destruct (o_result _); [|done].
    apply IH. intros exe' entries Hin. apply Hall. by right.
  - done.
Qed.

Lemma process_model_out_independent exe_file_paths out' :
  ∀ file_index num_icons out d,
    let o := process file_index exe_file_paths num_icons out d in
    let o' := process file_index exe_file_paths num_icons out' d in
    o_result o = o_result o'
    ∧ o_staging o = o_staging o'
    ∧ length (saved (o_printed o)) = length (saved (o_printed o')).
Proof.
  revert out'.
  induction exe_file_paths as [|exe_path rest IH];
    intros out' file_index num_icons out d; cbn [process_model]; cbv zeta;
    [done|].
  destruct (listing exe_path) as [[|e icon_files]|err] eqn:Hl; model_norm.
  - rewrite !saved_executable. apply IH.
  - rewrite !saved_executable.
    pose proof (loop_model_out_independent exe_path (e :: icon_files) out'
                  1%nat 0%nat out d) as (Hr & Hs & Hlen).
    set (o := loop exe_path 1%nat (e :: icon_files) 0%nat out d) in *.
    set (o' := loop exe_path 1%nat (e :: icon_files) 0%nat out' d) in *.
    rewrite Hr, Hs, !length_app, Hlen.
    destruct (o_result o') as [n|err]; [|by simpl].
    edestruct IH as (-> & -> & ->). done.
  - done.
Qed.

End process_model_props.

(** ** A run as a function of the output directory *)

Section run_facts.
Context (E : externals).

Lemma print_enumerated_spec mk ps :
  ∀ i w,
    print_enumerated mk i ps w
    = (Ok (), World (out_dir w) (temp_output w)
                (stdout w ++ enumerated mk i ps)).
Proof.
  induction ps as [|p rest IH]; intros i w; simpl.
  - rewrite app_nil_r. by destruct w.
  - rewrite bind_print, IH. simpl. by rewrite <-(assoc_L (++)).
Qed.

Lemma find_files_loop_collected paths exts recursive_search resolve_shortcuts :
  ∀ acc w,
    find_files_loop E paths exts recursive_search resolve_shortcuts acc w
    = (Ok (collected E paths exts recursive_search resolve_shortcuts acc),
       World (out_dir w) (temp_output w) (stdout w ++ missing E paths)).
Proof.
  induction paths as [|p rest IH]; intros acc w; simpl.
  - rewrite app_nil_r. by destruct w.
  - destruct (path_exists E p); [apply IH|].
    rewrite bind_print, IH. simpl. by rewrite <-(assoc_L (++)).
Qed.

Lemma saved_enumerated_input i ps : saved (enumerated MsgInputPath i ps) = [].
Proof. revert i. induction ps as [|p rest IH]; intros i; [done|apply IH]. Qed.

Lemma saved_enumerated_found i ps : saved (enumerated MsgFoundPath i ps) = [].
Proof. revert i. induction ps as [|p rest IH]; intros i; [done|apply IH]. Qed.

Lemma saved_missing ps : saved (missing E ps) = [].
Proof.
  induction ps as [|p rest IH]; [done|]. simpl.
  by destruct (path_exists E p).
Qed.

Lemma saved_run_header input_paths : saved (run_header E input_paths) = [].
Proof.
  unfold run_header.
  by rewrite !saved_app, saved_enumerated_input, saved_missing,
    saved_enumerated_found.
Qed.

(** A run, by its model: the staging directory starts empty whatever was
    there, and the run ends in [OSError] when something is left in it. *)
Lemma run_extraction_spec path_7zip input_paths output_dir_path largest w :
  run_extraction E path_7zip input_paths output_dir_path largest w
  = let o := run_model E path_7zip input_paths output_dir_path largest
               (out_dir w) in
    let printed := stdout w ++ run_header E input_paths ++ o_printed o in
    match o_result o with
    | Raise e => (Raise e, World (o_out o) (Some (o_staging o)) printed)
    | Ok num_icons =>
        if decide (o_staging o = ∅) then
          (Ok (),
           World (o_out o) None
             (printed ++ [MsgSummary num_icons
                            (length (executables_of E input_paths))]))
        else (Raise OSError, World (o_out o) (Some (o_staging o)) printed)
    end.
Proof.
  unfold run_extraction, found_executables, find_files_with_extensions.
  rewrite bind_print.
  erewrite bind_ok by apply print_enumerated_spec.
  erewrite bind_ok by apply find_files_loop_collected.
  fold (executables_of E input_paths).
  rewrite bind_print.
  erewrite bind_ok by apply print_enumerated_spec.
  cbn [out_dir temp_output stdout].
  set (printed1 := (_ ++ enumerated MsgFoundPath _ _)).
  assert (∀ {B} (f : () → M B) w1,
            (get_world ≫= (λ w0, (if bool_decide (is_Some (temp_output w0))
                                   then send2trash_temp_output else mret ())
                                  ≫= λ _, mkdir_temp_output ≫= f)) w1
            = f () (World (out_dir w1) (Some ∅) (stdout w1))) as Hprep.
  { intros B f [o [d|] s]; reflexivity. }
  rewrite Hprep. clear Hprep. rewrite bind_print.
  cbn [out_dir temp_output stdout].
  set (w2 := World _ _ _).
  assert (staging_ok w2 ∅) as Hok.
  { split; [done|]. intros nm [x Hx]. by rewrite lookup_empty in Hx. }
  erewrite bind_ok_or_raise by (by apply process_executables_model).
  unfold run_model. cbv zeta.
  change (out_dir w2) with (out_dir w).
  set (o := process_model _ _ _ _ _ _ _ _ _ _).
  assert (stdout w2 ++ o_printed o
          = stdout w ++ run_header E input_paths ++ o_printed o) as Hprinted.
  { unfold w2, printed1, run_header. simpl.
    repeat (rewrite <-?(assoc_L (++)); simpl). done. }
  rewrite <-Hprinted. clear Hprinted. unfold world_after.
  destruct (o_result o) as [n|err]; [|done].
  cbv [rmdir_temp_output get_world mbind M_bind raise modify print]. simpl.
  by case_decide.
Qed.

End run_facts.

(** ** The claims about the orchestrator and the run *)

Lemma stem_nonempty nm : nm ≠ EmptyString → Pathlib.stem nm ≠ EmptyString.
Proof.
  intros Hne. destruct (stem_suffix nm) as [Hnm [Hs|[_ ?]]]; [|done].
  rewrite Hs, app_nil_r_s in Hnm. by rewrite <-Hnm.
Qed.

Lemma resolved_target_proper (out : gmap string string) exe_stem c :
  exe_stem ≠ EmptyString → proper_suffix c →
  let t := resolved_target out (exe_stem +:+ c) in
  out !! t = None
  ∧ (t = exe_stem +:+ c
     ∨ is_Some (out !! (exe_stem +:+ c))
       ∧ ∃ k, (2 ≤ k)%nat ∧ t = numbered exe_stem k c
              ∧ ∀ j, (2 ≤ j < k)%nat →
                  is_Some (out !! numbered exe_stem j c)).
Proof.
  intros Hne Hc. unfold resolved_target.
  destruct (free_target_loop_proper out exe_stem c Hne Hc) as (t & -> & ?).
  done.
Qed.

(** C5. A successful extraction is saved under the stem of the executable
    followed by the suffix of the extracted file when that name is free,
    and else under the first free name among stem (2), stem (3), ... with
    the same suffix; with app.ico and app (2).ico in the output directory
    the next icon of app.exe becomes app (3).ico. *)
Theorem output_name_collision_resolution :
  (∀ E path_7zip exe_path file_index inner size rest output_dir_path tmp
     largest num_icons w d nm icon data guessed,
     staging_ok w d →
     Pathlib.name exe_path ≠ EmptyString →
     attempt_of E path_7zip exe_path inner = Staged nm icon data guessed →
     let exe_stem := Pathlib.stem (Pathlib.name exe_path) in
     let c := Pathlib.suffix icon in
     ∃ t,
       extract_icons_loop E path_7zip exe_path file_index
         ((inner, size) :: rest) output_dir_path tmp largest num_icons w
       = (let w' := saved_world w d file_index inner size output_dir_path
                      nm data guessed t in
          if largest then (Ok (S num_icons), w')
          else extract_icons_loop E path_7zip exe_path (S file_index) rest
                 output_dir_path tmp largest (S num_icons) w')
       ∧ out_dir w !! t = None
       ∧ (t = exe_stem +:+ c
          ∨ is_Some (out_dir w !! (exe_stem +:+ c))
            ∧ ∃ k, (2 ≤ k)%nat ∧ t = numbered exe_stem k c
                   ∧ ∀ j, (2 ≤ j < k)%nat →
                       is_Some (out_dir w !! numbered exe_stem j c)))
  ∧ (let r := extract_icons IconsExample.env ["7z"%string] IconsExample.exe
                [(".rsrc\1033\ICON\1.ico"%string, 100)] IconsExample.out
                IconsExample.tmp false IconsExample.taken_world in
     r.1 = Ok 1%nat
     ∧ stdout r.2
       = [ MsgExtracting 1 ".rsrc\1033\ICON\1.ico" 100;
           MsgSaving ["C:"; "out"; "app (3).ico"]%string ]
     ∧ out_dir r.2 !! "app (3).ico"%string
       = Some "bytes of .rsrc\1033\ICON\1.ico"%string
     ∧ out_dir r.2 !! "app.ico"%string = Some "first"%string
     ∧ out_dir r.2 !! "app (2).ico"%string = Some "second"%string).
Proof.
  split.
  - intros E path_7zip exe_path file_index inner size rest output_dir_path tmp
      largest num_icons w d nm icon data guessed Hok Hname Hatt exe_stem c.
    exists (resolved_target (out_dir w) (exe_stem +:+ c)).
    split.
    + rewrite (extract_icons_loop_cons E _ _ _ _ _ _ _ _ _ _ _ _ Hok), Hatt.
      done.
    + apply resolved_target_proper.
      * by apply stem_nonempty.
      * by apply attempt_staged in Hatt as (_ & ? & _).
  - vm_compute. done.
Qed.

Lemma output_name_collision_resolution_witness :
  ∃ t,
    out_dir IconsExample.taken_world !! t = None
    ∧ (t = "app.ico"%string
       ∨ is_Some (out_dir IconsExample.taken_world !! "app.ico"%string)
         ∧ ∃ k, (2 ≤ k)%nat ∧ t = numbered "app" k ".ico"
                ∧ ∀ j, (2 ≤ j < k)%nat →
                    is_Some (out_dir IconsExample.taken_world
                               !! numbered "app" j ".ico")).
Proof.
  destruct (proj1 output_name_collision_resolution IconsExample.env
              ["7z"%string] IconsExample.exe 1%nat
              ".rsrc\1033\ICON\1.ico"%string 100 [] IconsExample.out
              IconsExample.tmp true 0%nat IconsExample.taken_world ∅
              "1.ico"%string "1.ico"%string
              "bytes of .rsrc\1033\ICON\1.ico"%string false)
    as (t & _ & Hfree & Hshape).
  - split; [reflexivity|]. intros nm [x Hx]. by rewrite lookup_empty in Hx.
  - vm_compute. discriminate.
  - reflexivity.
  - exists t. split; [exact Hfree|exact Hshape].
Defined.

Section largest_only.
Context (E : externals) (path_7zip : path).

Lemma first_success_split exe_path (entries : list icon_entry) :
  Forall (λ e, opens_directory (attempt_of E path_7zip exe_path e.1) = false)
    entries →
  Exists (λ e, extracts E path_7zip exe_path e = true) entries →
  ∃ pre e post,
    entries = pre ++ e :: post
    ∧ Forall (λ e, is_staged (attempt_of E path_7zip exe_path e.1) = false
                   ∧ opens_directory (attempt_of E path_7zip exe_path e.1)
                     = false) pre
    ∧ extracts E path_7zip exe_path e = true.
Proof.
  induction entries as [|e entries IH]; intros Hall Hex.
  { by apply Exists_nil in Hex. }
  apply Forall_cons in Hall as [Hno Hall].
  destruct (extracts E path_7zip exe_path e) eqn:He.
  - exists [], e, entries. by split_and!.
  - apply Exists_cons in Hex as [Hex|Hex]; [congruence|].
    destruct (IH Hall Hex) as (pre & e' & post & -> & Hpre & He').
    exists (e :: pre), e', post. split_and!; [done| |done].
    constructor; [|done]. done.
Qed.

Lemma extract_icons_model exe_path entries output_dir_path tmp largest w d :
  staging_ok w d →
  extract_icons E path_7zip exe_path entries output_dir_path tmp largest w
  = world_after w
      (loop_model E path_7zip output_dir_path tmp largest exe_path 1 entries 0
         (out_dir w) d).
Proof. intros. unfold extract_icons. by apply extract_icons_loop_model. Qed.

End largest_only.

(** An entry whose base name is [..] has no suffix and is a directory of
    the staging directory: the sniffer is asked to open it, and the
    [OSError] ends the loop before the entry behind it is attempted, with
    the flag and without it. *)
Lemma directory_entry_ends_loop :
  find_icons_in_exe DirectoryEntryExample.env ["7z"%string] IconsExample.exe
    Examples.empty_world
  = (Ok DirectoryEntryExample.entries, Examples.empty_world)
  ∧ StronglySorted size_ge DirectoryEntryExample.entries
  ∧ extracts DirectoryEntryExample.env ["7z"%string] IconsExample.exe
      ("a/ICON/1.ico"%string, 50) = true
  ∧ staging_ok (World ∅ (Some ∅) []) ∅
  ∧ (∀ largest,
       extract_icons DirectoryEntryExample.env ["7z"%string] IconsExample.exe
         DirectoryEntryExample.entries IconsExample.out IconsExample.tmp
         largest (World ∅ (Some ∅) [])
       = (Raise OSError,
          World ∅ (Some ∅)
            [MsgExtracting 1 "a/ICON/.." 100; MsgGuessing])).
Proof.
  split_and!.
  - reflexivity.
  - repeat constructor; unfold size_ge; simpl; lia.
  - reflexivity.
  - split; [reflexivity|]. intros nm [x Hx]. by rewrite lookup_empty in Hx.
  - intros []; reflexivity.
Qed.




Section run_properties.
Context (E : externals) (path_7zip : path) (input_paths : list path)
  (output_dir_path : path) (largest : bool).

Local Abbreviation run :=
  (run_extraction E path_7zip input_paths output_dir_path largest).
Local Abbreviation model :=
  (run_model E path_7zip input_paths output_dir_path largest).

Lemma run_extraction_out_dir w : out_dir (run w).2 = o_out (model (out_dir w)).
Proof.
  rewrite run_extraction_spec. cbv zeta.
  destruct (o_result _); [case_decide|]; done.
Qed.

Lemma run_extraction_keeps_files w : out_dir w ⊆ out_dir (run w).2.
Proof.
  rewrite run_extraction_out_dir. unfold run_model.
  apply process_model_frame.
Qed.

Lemma run_extraction_returned w w' :
  run w = (Ok (), w') →
  ∃ num_icons,
    o_result (model (out_dir w)) = Ok num_icons
    ∧ o_staging (model (out_dir w)) = ∅
    ∧ w' = World (o_out (model (out_dir w))) None
             (stdout w ++ (run_header E input_paths
                             ++ o_printed (model (out_dir w)))
                ++ [MsgSummary num_icons
                      (length (executables_of E input_paths))]).
Proof.
  rewrite run_extraction_spec. cbv zeta.
  destruct (o_result _) as [n|err]; [|done].
  case_decide; [|done]. intros [= <-]. exists n.
  split_and!; [done..|]. unfold run_header.
  repeat (rewrite <-?(assoc_L (++)); simpl). done.
Qed.

(** A second run after a run that returned: it returns too, keeps every
    file, adds as many files as the first and names each of them as a
    numbered variant. *)
Lemma second_run w0 w1 :
  run w0 = (Ok (), w1) →
  ∃ new,
    (run w1).1 = Ok ()
    ∧ out_dir w1 ⊆ out_dir (run w1).2
    ∧ stdout (run w1).2 = stdout w1 ++ new
    ∧ size (out_dir (run w1).2) = (size (out_dir w1) + length (saved new))%nat
    ∧ size (out_dir w1) = (size (out_dir w0) + length (saved new))%nat
    ∧ ∀ t, t ∈ saved new → numbered_variant output_dir_path t.
Proof.
  intros (n & Hr & Hst & ->)%run_extraction_returned.
  set (o1 := model (out_dir w0)) in *.
  cbn [out_dir stdout].
  set (o2 := model (o_out o1)).
  destruct (process_model_out_independent E path_7zip output_dir_path
              (output_dir_path ++ ["temp-output"%string]) largest
              (executables_of E input_paths) (out_dir w0) 1%nat 0%nat
              (o_out o1) ∅) as (Hr' & Hst' & Hlen).
  fold (model (o_out o1)) in Hr', Hst', Hlen. fold o2 in Hr', Hst', Hlen.
  fold (model (out_dir w0)) in Hr', Hst', Hlen. fold o1 in Hr', Hst', Hlen.
  rewrite Hr in Hr'. rewrite Hst in Hst'.
  exists ((run_header E input_paths ++ o_printed o2)
          ++ [MsgSummary n (length (executables_of E input_paths))]).
  rewrite run_extraction_spec. cbv zeta. cbn [out_dir stdout].
  fold o2. rewrite Hr', decide_True by done. cbn [fst snd out_dir stdout].
  rewrite !saved_app, saved_run_header. cbn [app]. rewrite app_nil_r.
  destruct (process_model_frame E path_7zip output_dir_path
              (output_dir_path ++ ["temp-output"%string]) largest
              (executables_of E input_paths) 1%nat 0%nat (o_out o1) ∅)
    as (Hsub2 & Hsize2 & _).
  destruct (process_model_frame E path_7zip output_dir_path
              (output_dir_path ++ ["temp-output"%string]) largest
              (executables_of E input_paths) 1%nat 0%nat (out_dir w0) ∅)
    as (_ & Hsize1 & _).
  fold (model (o_out o1)) in Hsub2, Hsize2. fold o2 in Hsub2, Hsize2.
  fold (model (out_dir w0)) in Hsize1. fold o1 in Hsize1.
  split_and!; try done.
  - by rewrite <-!(assoc_L (++)).
  - by rewrite Hsize1, Hlen.
  - apply process_model_numbered.
    intros exe_path entries b Hin Hl Hb.
    eapply (process_model_bases_taken E path_7zip output_dir_path
              (output_dir_path ++ ["temp-output"%string]) largest
              (executables_of E input_paths) 1%nat 0%nat (out_dir w0) ∅);
      [|exact Hin|exact Hl|exact Hb].
    fold (model (out_dir w0)). fold o1. by rewrite Hr.
Qed.

(** When no sniff fails, the staging directory is empty at the end of the
    run, and removed when the run returns. *)
Lemma staging_empty_when_every_sniff_succeeds w :
  (∀ exe_path entries,
     exe_path ∈ executables_of E input_paths →
     listing_of E path_7zip exe_path = Ok entries →
     Forall (λ e, leaves_file (attempt_of E path_7zip exe_path e.1) = false)
       entries) →
  match (run w).1 with
  | Ok _ => temp_output (run w).2 = None
  | Raise _ => temp_output (run w).2 = Some ∅
  end.
Proof.
  intros Hall. rewrite run_extraction_spec. cbv zeta.
  pose proof (process_model_staging_empty E path_7zip output_dir_path
                (output_dir_path ++ ["temp-output"%string]) largest
                (executables_of E input_paths) 1%nat 0%nat (out_dir w) Hall)
    as Hst.
  fold (model (out_dir w)) in Hst. rewrite Hst.
  destruct (o_result _); [by rewrite decide_True|done].
Qed.

End run_properties.

(** C2. When the sniffer does not recognise an extracted file that has no
    extension, the file stays in the staging directory: the directory is
    not empty after the executable, the final [rmdir] raises, the directory
    is not removed and the summary is not printed. *)
Theorem staging_left_behind_when_sniff_fails :
  (let r := extract_icons SniffExample.env ["7z"%string] IconsExample.exe
              [(".rsrc\1033\ICON\1"%string, 100)] IconsExample.out
              IconsExample.tmp false (World ∅ (Some ∅) []) in
   r.1 = Ok 0%nat
   ∧ map_to_list <$> temp_output r.2
     = Some [("1"%string, "no header"%string)])
  ∧ (let r := run_extraction SniffExample.env ["7z"%string]
                [["C:"; "d"]]%string IconsExample.out false
                Examples.empty_world in
     r.1 = Raise OSError
     ∧ map_to_list <$> temp_output r.2
       = Some [("1"%string, "no header"%string)]
     ∧ stdout r.2
       = [ MsgInputPaths; MsgInputPath 1 ["C:"; "d"]; MsgFoundPaths;
           MsgFoundPath 1 ["C:"; "d"; "app.exe"]; MsgExtractingIcons;
           MsgExecutable 1 ["C:"; "d"; "app.exe"];
           MsgExtracting 1 ".rsrc\1033\ICON\1" 100; MsgGuessing;
           MsgGuessFailed ["C:"; "out"; "temp-output"; "1"];
           MsgFailedToExtract ]%string).
Proof. vm_compute. done. Qed.

(** * Further properties of the script *)

(** ** Path Collector: what is found *)

Section collector_results.
Context (E : externals).

Lemma find_files_with_extensions_collected paths exts recursive_search
    resolve_shortcuts w :
  find_files_with_extensions E paths exts recursive_search resolve_shortcuts w
  = (Ok (collected E paths exts recursive_search resolve_shortcuts ∅),
     World (out_dir w) (temp_output w) (stdout w ++ missing E paths)).
Proof. apply find_files_loop_collected. Qed.

Lemma elem_of_collected paths exts recursive_search resolve_shortcuts acc x :
  x ∈ collected E paths exts recursive_search resolve_shortcuts acc ↔
  x ∈ acc ∨
  ∃ p subpath,
    p ∈ paths ∧ path_exists E p = true
    ∧ subpath ∈ filtered_generator E recursive_search p
    ∧ x ∈ collect E exts resolve_shortcuts subpath.
Proof.
  destruct (find_files_loop_spec E paths exts recursive_search
              resolve_shortcuts acc (World ∅ None [])) as (s & out & Hrun & Hs).
  rewrite find_files_loop_collected in Hrun. injection Hrun as <- _.
  apply Hs.
Qed.

Lemma missing_absent paths :
  missing E paths
  = MsgNoFileAtPath <$> List.filter (λ p, negb (path_exists E p)) paths.
Proof.
  induction paths as [|p paths IH]; [done|]. simpl.
  destruct (path_exists E p); simpl; by rewrite IH.
Qed.

Lemma missing_existing paths :
  missing E (List.filter (path_exists E) paths) = [].
Proof.
  induction paths as [|p paths IH]; [done|]. simpl.
  destruct (path_exists E p) eqn:Hp; simpl; [by rewrite Hp|done].
Qed.

Lemma collected_existing paths exts recursive_search resolve_shortcuts :
  ∀ acc,
    collected E (List.filter (path_exists E) paths) exts recursive_search
      resolve_shortcuts acc
    = collected E paths exts recursive_search resolve_shortcuts acc.
Proof.
  induction paths as [|p paths IH]; intros acc; [done|]. simpl.
  destruct (path_exists E p) eqn:Hp; simpl; [by rewrite Hp, IH|apply IH].
Qed.

Lemma elem_of_collect exts resolve_shortcuts subpath x :
  x ∈ collect E exts resolve_shortcuts subpath ↔
  lower_suffix x ∈ exts
  ∧ (x = subpath
     ∨ resolve_shortcuts = true
       ∧ lower_suffix subpath = ".lnk"%string
       ∧ (lower_suffix subpath ∉ exts)
       ∧ x = shortcut_target E subpath).
Proof.
  unfold collect. case_bool_decide as Hown.
  - rewrite elem_of_singleton. split.
    + intros ->. split; [done|by left].
    + intros [_ [->|(_ & _ & ? & _)]]; done.
  - destruct resolve_shortcuts; simpl.
    + case_bool_decide as Hlnk; [case_bool_decide as Htarget|].
      * rewrite elem_of_singleton. split.
        -- intros ->. split; [done|]. right. done.
        -- intros [Hx [->|(_ & _ & _ & ->)]]; done.
      * rewrite elem_of_empty. split; [done|].
        intros [Hx [->|(_ & _ & _ & ->)]]; done.
      * rewrite elem_of_empty. split; [done|].
        intros [Hx [->|(_ & ? & _)]]; done.
    + rewrite elem_of_empty. split; [done|].
      intros [Hx [->|(? & _)]]; done.
Qed.

Lemma filtered_generator_exists recursive_search p subpath :
  path_exists E p = true →
  subpath ∈ filtered_generator E recursive_search p →
  path_exists E subpath = true ∧ is_dir E subpath = false
  ∧ (p `prefix_of` subpath).
Proof.
  intros Hp. unfold filtered_generator.
  destruct (is_dir E p) eqn:Hdir.
  - rewrite elem_of_filter. intros [Hfile Hin].
    unfold is_file, path_exists, is_dir in *.
    apply bool_decide_eq_true in Hfile.
    split_and!.
    + apply bool_decide_eq_true. by rewrite Hfile.
    + apply bool_decide_eq_false. by rewrite Hfile.
    + destruct recursive_search; apply elem_of_filter in Hin as [[? _] _]; done.
  - rewrite elem_of_singleton. by intros ->.
Qed.

Lemma filtered_generator_file recursive_search p :
  path_exists E p = true → is_dir E p = false →
  p ∈ filtered_generator E recursive_search p.
Proof.
  intros _ Hdir. unfold filtered_generator. rewrite Hdir.
  by apply elem_of_singleton.
Qed.

Lemma filtered_generator_below recursive_search p rest :
  is_dir E p = true → is_file E (p ++ rest) = true →
  rest ≠ [] → recursive_search = true ∨ length rest = 1%nat →
  p ++ rest ∈ filtered_generator E recursive_search p.
Proof.
  intros Hdir Hfile Hrest Hdepth. unfold filtered_generator. rewrite Hdir.
  apply elem_of_filter. split; [done|].
  assert (p ++ rest ∈ dom (input_fs E)) as Hdom.
  { apply elem_of_dom. unfold is_file in Hfile.
    apply bool_decide_eq_true in Hfile. by rewrite Hfile. }
  destruct recursive_search; apply elem_of_filter; (split; [|done]).
  - split; [by apply prefix_app_r|].
    intros Heq. apply Hrest.
    apply (f_equal length) in Heq. rewrite length_app in Heq.
    destruct rest; [done|simpl in Heq; lia].
  - destruct Hdepth as [?|Hlen]; [done|].
    split; [by apply prefix_app_r|]. rewrite length_app. lia.
Qed.

Lemma filtered_generator_mono p :
  filtered_generator E false p ⊆ filtered_generator E true p.
Proof.
  unfold filtered_generator. destruct (is_dir E p); [|done].
  intros q. unfold glob_star, glob_star_star. rewrite !elem_of_filter.
  intros (Hfile & [Hpre Hlen] & Hdom). split_and!; try done.
  intros ->. lia.
Qed.

End collector_results.

Lemma lower_char_idemp c : Py.lower_char (Py.lower_char c) = Py.lower_char c.
Proof. destruct c as [[] [] [] [] [] [] [] []]; reflexivity. Qed.

Lemma lower_idemp s : Py.lower (Py.lower s) = Py.lower s.
Proof.
  induction s as [|c s IH]; [done|]. simpl. by rewrite lower_char_idemp, IH.
Qed.

(** X1. A path that does not exist is reported and skipped: the call
    returns the set that it returns for the existing paths alone, prints
    one line for each missing path, in the order of the list, and leaves
    the directories alone; for existing paths it prints nothing. *)
Theorem missing_paths_are_skipped E paths exts recursive_search
    resolve_shortcuts w :
  let existing := List.filter (path_exists E) paths in
  let absent := List.filter (λ p, negb (path_exists E p)) paths in
  ∃ s,
    find_files_with_extensions E paths exts recursive_search
      resolve_shortcuts w
    = (Ok s, World (out_dir w) (temp_output w)
               (stdout w ++ (MsgNoFileAtPath <$> absent)))
    ∧ find_files_with_extensions E existing exts recursive_search
        resolve_shortcuts w
      = (Ok s, w).
Proof.
  intros existing absent.
  exists (collected E paths exts recursive_search resolve_shortcuts ∅).
  rewrite !find_files_with_extensions_collected. split.
  - by rewrite missing_absent.
  - unfold existing. rewrite collected_existing, missing_existing, app_nil_r.
    by destruct w.
Qed.

(** X2. Every path of the result has an extension of the target set, in
    lower case, and comes from a candidate of an existing input path: it is
    the candidate itself, or the target of a candidate that is a shortcut
    and was not collected itself. *)
Theorem collected_paths_have_sought_extension E paths exts recursive_search
    resolve_shortcuts w s w' q :
  find_files_with_extensions E paths exts recursive_search resolve_shortcuts w
  = (Ok s, w') →
  q ∈ s →
  lower_suffix q ∈ exts
  ∧ ∃ p subpath,
      p ∈ paths ∧ path_exists E p = true
      ∧ subpath ∈ filtered_generator E recursive_search p
      ∧ (q = subpath
         ∨ resolve_shortcuts = true
           ∧ lower_suffix subpath = ".lnk"%string
           ∧ (lower_suffix subpath ∉ exts)
           ∧ q = shortcut_target E subpath).
Proof.
  rewrite find_files_with_extensions_collected. intros [= <- _].
  rewrite elem_of_collected, elem_of_empty.
  intros [[]|(p & subpath & Hp & Hex & Hsub & [Hq Hfrom]%elem_of_collect)].
  split; [done|]. by exists p, subpath.
Qed.

Lemma collected_paths_have_sought_extension_witness :
  lower_suffix ["C:"; "gone"; "b.EXE"]%string
  ∈ ({[ ".exe"%string ]} : gset string)
  ∧ ∃ p subpath,
      p ∈ [["C:"; "d"]]%string ∧ path_exists ShortcutExample.env p = true
      ∧ subpath ∈ filtered_generator ShortcutExample.env false p
      ∧ (["C:"; "gone"; "b.EXE"]%string = subpath
         ∨ true = true
           ∧ lower_suffix subpath = ".lnk"%string
           ∧ (lower_suffix subpath ∉ ({[ ".exe"%string ]} : gset string))
           ∧ ["C:"; "gone"; "b.EXE"]%string
             = shortcut_target ShortcutExample.env subpath).
Proof.
  apply (collected_paths_have_sought_extension ShortcutExample.env
           [["C:"; "d"]]%string {[ ".exe"%string ]} false true
           Examples.empty_world {[ ["C:"; "gone"; "b.EXE"]%string ]}
           (World ∅ None [])).
  - reflexivity.
  - apply elem_of_singleton. reflexivity.
Defined.

(** X3. Without shortcut resolution every path of the result exists and
    is not a directory, and is an input path or lies below one. *)
Theorem collected_files_exist_without_shortcuts E paths exts recursive_search
    w s w' q :
  find_files_with_extensions E paths exts recursive_search false w
  = (Ok s, w') →
  q ∈ s →
  path_exists E q = true ∧ is_dir E q = false
  ∧ ∃ p, p ∈ paths ∧ p `prefix_of` q.
Proof.
  rewrite find_files_with_extensions_collected. intros [= <- _].
  rewrite elem_of_collected, elem_of_empty.
  intros [[]|(p & subpath & Hp & Hex & Hsub & [Hq Hfrom]%elem_of_collect)].
  destruct Hfrom as [->|(? & _)]; [|done].
  destruct (filtered_generator_exists E _ _ _ Hex Hsub) as (? & ? & ?).
  split_and!; [done..|]. by exists p.
Qed.

Lemma collected_files_exist_without_shortcuts_witness :
  path_exists Examples.nested_env ["C:"; "d"; "top.exe"]%string = true
  ∧ is_dir Examples.nested_env ["C:"; "d"; "top.exe"]%string = false
  ∧ ∃ p, p ∈ [["C:"; "d"]]%string ∧ p `prefix_of` ["C:"; "d"; "top.exe"]%string.
Proof.
  apply (collected_files_exist_without_shortcuts Examples.nested_env
           [["C:"; "d"]]%string {[ ".exe"%string ]} false
           Examples.empty_world {[ ["C:"; "d"; "top.exe"]%string ]}
           (World ∅ None [])).
  - reflexivity.
  - apply elem_of_singleton. reflexivity.
Defined.

(** X4. Every regular file whose extension, in lower case, is in the
    target set is found: an input path that is such a file, and such a file
    below an input directory, at any depth when the search is recursive and
    directly inside the directory when it is not. *)
Theorem files_with_sought_extension_are_collected E paths exts
    recursive_search resolve_shortcuts w :
  ∃ s w',
    find_files_with_extensions E paths exts recursive_search
      resolve_shortcuts w = (Ok s, w')
    ∧ (∀ p, p ∈ paths → path_exists E p = true → is_dir E p = false →
         lower_suffix p ∈ exts → p ∈ s)
    ∧ (∀ p rest,
         p ∈ paths → is_dir E p = true → is_file E (p ++ rest) = true →
         rest ≠ [] → recursive_search = true ∨ length rest = 1%nat →
         lower_suffix (p ++ rest) ∈ exts → p ++ rest ∈ s).
Proof.
  rewrite find_files_with_extensions_collected. eexists _, _.
  split; [done|]. split.
  - intros p Hp Hex Hdir Hext. apply elem_of_collected. right.
    exists p, p. split_and!; [done..|by apply filtered_generator_file|].
    apply elem_of_collect. split; [done|by left].
  - intros p rest Hp Hdir Hfile Hrest Hdepth Hext.
    apply elem_of_collected. right.
    exists p, (p ++ rest). split_and!; [done| |by apply filtered_generator_below|].
    + unfold is_dir in Hdir. apply bool_decide_eq_true in Hdir.
      apply bool_decide_eq_true. by rewrite Hdir.
    + apply elem_of_collect. split; [done|by left].
Qed.

Lemma files_with_sought_extension_are_collected_witness :
  ∃ s w',
    find_files_with_extensions Examples.nested_env
      [["C:"; "d"]; ["C:"; "d"; "top.exe"]]%string {[ ".exe"%string ]} true
      false Examples.empty_world = (Ok s, w')
    ∧ ["C:"; "d"; "top.exe"]%string ∈ s
    ∧ ["C:"; "d"; "sub"; "deep.exe"]%string ∈ s.
Proof.
  destruct (files_with_sought_extension_are_collected Examples.nested_env
              [["C:"; "d"]; ["C:"; "d"; "top.exe"]]%string
              {[ ".exe"%string ]} true false Examples.empty_world)
    as (s & w' & Hrun & Hfile & Hbelow).
  exists s, w'. split_and!; [exact Hrun| |].
  - apply (Hfile ["C:"; "d"; "top.exe"]%string);
      [apply list_elem_of_In; simpl; tauto|reflexivity|reflexivity|].
    apply elem_of_singleton. reflexivity.
  - apply (Hbelow ["C:"; "d"]%string ["sub"; "deep.exe"]%string);
      [apply list_elem_of_In; simpl; tauto|reflexivity|reflexivity
      |discriminate|left; reflexivity|].
    apply elem_of_singleton. reflexivity.
Defined.

(** X5. The result for a list of input paths is the union of the results
    for its parts, so neither the order of the input paths nor a path given
    twice changes the set that is returned. *)
Theorem collector_result_is_union_over_inputs E exts recursive_search
    resolve_shortcuts w :
  let found paths :=
    (find_files_with_extensions E paths exts recursive_search
       resolve_shortcuts w).1 in
  (∀ l1 l2, ∃ s1 s2,
     found l1 = Ok s1 ∧ found l2 = Ok s2 ∧ found (l1 ++ l2) = Ok (s1 ∪ s2))
  ∧ (∀ l l', (∀ p, p ∈ l ↔ p ∈ l') → found l = found l').
Proof.
  intros found. unfold found. split.
  - intros l1 l2. rewrite !find_files_with_extensions_collected.
    eexists _, _. split_and!; [done..|]. simpl. f_equal.
    apply set_eq. intros x.
    rewrite elem_of_union, !elem_of_collected. split.
    + intros [[]%elem_of_empty|(p & sub & [?|?]%elem_of_app & ?)].
      * left. right. by exists p, sub.
      * right. right. by exists p, sub.
    + intros [[[]%elem_of_empty|(p & sub & ? & ?)]
             |[[]%elem_of_empty|(p & sub & ? & ?)]];
        right; exists p, sub; (split; [apply elem_of_app; auto|done]).
  - intros l l' Hsame. rewrite !find_files_with_extensions_collected.
    simpl. f_equal. apply set_eq. intros x.
    rewrite !elem_of_collected. setoid_rewrite Hsame. done.
Qed.

Lemma collector_result_is_union_over_inputs_witness :
  (find_files_with_extensions Examples.nested_env
     [["C:"; "d"]; ["C:"; "d"; "sub"]]%string {[ ".exe"%string ]} false
     true Examples.empty_world).1
  = (find_files_with_extensions Examples.nested_env
       [["C:"; "d"; "sub"]; ["C:"; "d"]; ["C:"; "d"; "sub"]]%string
       {[ ".exe"%string ]} false true Examples.empty_world).1.
Proof.
  apply (proj2 (collector_result_is_union_over_inputs Examples.nested_env
                  {[ ".exe"%string ]} false true Examples.empty_world)).
  intros p. rewrite !elem_of_cons, elem_of_nil. tauto.
Defined.

(** X6. A search that is not recursive finds a subset of what the
    recursive search finds, and prints the same lines. *)
Theorem top_level_search_finds_no_more E paths exts resolve_shortcuts w :
  ∃ s_top s_all w',
    find_files_with_extensions E paths exts false resolve_shortcuts w
    = (Ok s_top, w')
    ∧ find_files_with_extensions E paths exts true resolve_shortcuts w
      = (Ok s_all, w')
    ∧ s_top ⊆ s_all.
Proof.
  rewrite !find_files_with_extensions_collected. eexists _, _, _.
  split_and!; [done..|].
  intros x. rewrite !elem_of_collected.
  intros [?|(p & subpath & ? & ? & Hsub & ?)]; [by left|].
  right. exists p, subpath. split_and!; try done.
  by apply filtered_generator_mono.
Qed.

(** X7. The extensions of the target set are compared as they are with
    the extension of a file in lower case: an extension of the target set
    that is not in lower case never matches, and a target set without any
    lower-case extension gives the empty result. *)
Theorem target_extension_must_be_lower_case E paths recursive_search
    resolve_shortcuts w :
  (∀ exts,
     find_files_with_extensions E paths exts recursive_search
       resolve_shortcuts w
     = find_files_with_extensions E paths
         (filter (λ e, Py.lower e = e) exts) recursive_search
         resolve_shortcuts w)
  ∧ (∀ exts,
       (∀ e, e ∈ exts → Py.lower e ≠ e) →
       (find_files_with_extensions E paths exts recursive_search
          resolve_shortcuts w).1 = Ok ∅).
Proof.
  assert (∀ (exts : gset string) x,
            lower_suffix x ∈ filter (λ e, Py.lower e = e) exts
            ↔ lower_suffix x ∈ exts) as Hlow.
  { intros exts x. rewrite elem_of_filter. split; [by intros [_ ?]|].
    intros ?. split; [apply lower_idemp|done]. }
  split.
  - intros exts. rewrite !find_files_with_extensions_collected.
    do 2 f_equal. apply set_eq. intros x.
    rewrite !elem_of_collected. setoid_rewrite elem_of_collect.
    setoid_rewrite Hlow. done.
  - intros exts Hup. rewrite find_files_with_extensions_collected.
    simpl. f_equal. apply set_eq. intros x.
    rewrite elem_of_collected. setoid_rewrite elem_of_collect.
    split; [|by intros ?%elem_of_empty].
    intros [?|(p & subpath & _ & _ & _ & Hx & _)]; [done|].
    destruct (Hup _ Hx). apply lower_idemp.
Qed.

Lemma target_extension_must_be_lower_case_witness :
  (find_files_with_extensions Examples.nested_env [["C:"; "d"]]%string
     {[ ".EXE"%string ]} true true Examples.empty_world).1 = Ok ∅.
Proof.
  apply (proj2 (target_extension_must_be_lower_case Examples.nested_env
                  [["C:"; "d"]]%string true true Examples.empty_world)).
  intros e ->%elem_of_singleton. discriminate.
Defined.

(** ** Resource Lister: fields and faults *)

Section lister_fields.

Lemma rev_app_space_free s1 s2 :
  space_free (String.rev_app s1 s2) = space_free s1 && space_free s2.
Proof.
  revert s2. induction s1 as [|c s1 IH]; intros s2; simpl; [done|].
  rewrite IH. simpl. destruct (Py.isspace c), (space_free s1); done.
Qed.

Lemma rev_app_nonempty s1 s2 :
  s2 ≠ EmptyString → String.rev_app s1 s2 ≠ EmptyString.
Proof.
  revert s2. induction s1 as [|c s1 IH]; intros s2 Hs2; simpl; [done|].
  by apply IH.
Qed.

Lemma flush_fields cur x :
  space_free cur = true → x ∈ Py.flush cur →
  x ≠ EmptyString ∧ space_free x = true.
Proof.
  intros Hcur. destruct cur as [|c cur]; simpl.
  { by intros ?%elem_of_nil. }
  intros ->%list_elem_of_singleton. unfold String.rev. split.
  - simpl. by apply rev_app_nonempty.
  - by rewrite rev_app_space_free, Hcur.
Qed.

Lemma split_fields s :
  ∀ cur x,
    space_free cur = true → x ∈ Py.runs_go Py.isspace cur s →
    x ≠ EmptyString ∧ space_free x = true.
Proof.
  induction s as [|c s IH]; intros cur x Hcur; simpl.
  { by apply flush_fields. }
  destruct (Py.isspace c) eqn:Hc.
  - intros [Hx|Hx]%elem_of_app; [by eapply flush_fields|].
    by apply (IH EmptyString).
  - apply IH. simpl. by rewrite Hc.
Qed.

Lemma getitem_ok_elem {A} (l : list A) i x : Py.getitem l i = Ok x → x ∈ l.
Proof.
  unfold Py.getitem. destruct (_ && _); [|done].
  destruct (l !! _) eqn:Hl; [|done]. intros [= <-].
  by eapply list_elem_of_lookup_2.
Qed.

Lemma getitem_third_last_inv {A} (l : list A) x :
  Py.getitem l (-3) = Ok x →
  (3 ≤ length l)%nat ∧ l !! (length l - 3)%nat = Some x.
Proof.
  unfold Py.getitem. replace (-3 <? 0) with true by done.
  destruct (Z.leb_spec 0 (-3 + Z.of_nat (length l))); [|done].
  destruct (_ <? _); simpl; [|done].
  replace (Z.to_nat (-3 + Z.of_nat (length l))) with (length l - 3)%nat by lia.
  destruct (l !! _) eqn:Hl; [|done]. intros [= <-]. split; [lia|done].
Qed.

Lemma getitem_third_last_raise {A} (l : list A) e :
  Py.getitem l (-3) = Raise e → e = IndexError ∧ (length l < 3)%nat.
Proof.
  unfold Py.getitem. replace (-3 <? 0) with true by done.
  destruct (Z.leb_spec 0 (-3 + Z.of_nat (length l))) as [Hle|Hlt].
  - destruct (Z.ltb_spec (-3 + Z.of_nat (length l)) (Z.of_nat (length l)));
      simpl; [|lia].
    destruct (l !! _) eqn:Hl; [done|].
    apply lookup_ge_None in Hl. lia.
  - simpl. intros [= <-]. split; [done|lia].
Qed.

Lemma int_raise s e : Py.int s = Raise e → e = ValueError.
Proof.
  unfold Py.int. cbv zeta.
  match goal with
  | |- match ?parsed with Some _ => _ | None => _ end = _ → _ =>
      destruct parsed
  end; [destruct (_ <=? _)%N; [done|by intros [= <-]]|by intros [= <-]].
Qed.

(** What a line that matches gives: its last field with the value of its
    third field from the end, [IndexError] with fewer than three fields,
    [ValueError] with a third field from the end that is no integer. *)
Lemma parse_line_some line nm size :
  parse_line line = Ok (Some (nm, size)) →
  re_search_icon line = true ∧ nm ∈ Py.split line.
Proof.
  unfold parse_line. destruct (re_search_icon line); [|done].
  destruct (Py.getitem (Py.split line) (-1)) as [p|] eqn:Hp; [|done]. simpl.
  destruct (Py.getitem (Py.split line) (-3)) as [f|]; [|done]. simpl.
  destruct (Py.int f); [|done]. simpl. intros [= <- _].
  split; [done|by eapply getitem_ok_elem].
Qed.

Lemma parse_line_raise line e :
  parse_line line = Raise e →
  re_search_icon line = true
  ∧ (e = IndexError ∧ (length (Py.split line) < 3)%nat
     ∨ e = ValueError
       ∧ ∃ size_field,
           Py.getitem (Py.split line) (-3) = Ok size_field
           ∧ Py.int size_field = Raise ValueError).
Proof.
  unfold parse_line. destruct (re_search_icon line); [|done].
  split; [done|].
  destruct (Py.getitem (Py.split line) (-3)) as [f|e3] eqn:H3.
  - destruct (Py.getitem (Py.split line) (-1)) as [p|e1] eqn:H1.
    + simpl in H. destruct (Py.int f) as [z|ei] eqn:Hi; [done|].
      simpl in H. injection H as <-.
      apply int_raise in Hi as Hei. subst ei. right. eauto.
    + apply getitem_third_last_inv in H3 as [Hlen _].
      destruct (getitem_index_error_or_ok (Py.split line) (-1))
        as [[x Hx]|Hx]; [congruence|].
      unfold Py.getitem in Hx. replace (-1 <? 0) with true in Hx by done.
      destruct (Z.leb_spec 0 (-1 + Z.of_nat (length (Py.split line)))); [|lia].
      destruct (Z.ltb_spec (-1 + Z.of_nat (length (Py.split line)))
                  (Z.of_nat (length (Py.split line)))); [|lia].
      simpl in Hx.
      destruct (Py.split line !! _) eqn:Hl; [done|].
      apply lookup_ge_None in Hl. lia.
  - apply getitem_third_last_raise in H3 as [-> Hlen].
    destruct (Py.getitem (Py.split line) (-1)) as [p|e1] eqn:H1.
    + simpl in H. injection H as <-. by left.
    + simpl in H. injection H as <-.
      destruct (getitem_index_error_or_ok (Py.split line) (-1))
        as [[x Hx]|Hx]; [congruence|].
      rewrite H1 in Hx. injection Hx as ->. by left.
Qed.

Lemma parse_lines_first_raise lines :
  ∀ acc e,
    parse_lines lines acc = Raise e →
    ∃ pre line post,
      lines = pre ++ line :: post
      ∧ Forall (λ l, is_ok (parse_line l) = true) pre
      ∧ parse_line line = Raise e.
Proof.
  induction lines as [|line lines IH]; intros acc e; simpl; [done|].
  destruct (parse_line line) as [entry|err] eqn:Hline; simpl.
  - intros (pre & bad & post & -> & Hpre & Hbad)%IH.
    exists (line :: pre), bad, post. split_and!; [done| |done].
    constructor; [by rewrite Hline|done].
  - intros [= <-]. exists [], line, lines. by split_and!.
Qed.

End lister_fields.

(** X8. The name of every entry that the Resource Lister returns is one
    field of its line: it is not empty and holds no white space. A name
    with a blank inside is cut to its last word, and the size is then read
    one column further to the right. *)
Theorem icon_names_are_single_fields :
  (∀ E path_7zip exe_path w entries w' nm size,
     find_icons_in_exe E path_7zip exe_path w = (Ok entries, w') →
     (nm, size) ∈ entries →
     nm ≠ EmptyString ∧ space_free nm = true)
  ∧ parse_line "  .....  50  40  .rsrc\1033\ICON\my icon.ico"
    = Ok (Some ("icon.ico"%string, 40)).
Proof.
  split; [|reflexivity].
  intros E path_7zip exe_path w entries w' nm size Hfind Hin.
  apply find_icons_in_exe_ok in Hfind as ->.
  rewrite sort_by_size_desc_perm in Hin. unfold discovered in Hin.
  destruct (seven_zip_list E path_7zip exe_path) as [returncode output].
  case_decide; [by apply elem_of_nil in Hin|].
  apply list_elem_of_bind in Hin as (line & Hentry & _).
  unfold line_entries in Hentry.
  destruct (parse_line line) as [[entry|]|] eqn:Hline;
    try (by apply elem_of_nil in Hentry).
  apply list_elem_of_singleton in Hentry as <-.
  apply parse_line_some in Hline as [_ Hfield].
  by apply (split_fields line EmptyString).
Qed.

Lemma icon_names_are_single_fields_witness :
  ".rsrc\1033\ICON\1.ico"%string ≠ EmptyString
  ∧ space_free ".rsrc\1033\ICON\1.ico" = true.
Proof.
  apply (proj1 icon_names_are_single_fields IconsExample.env ["7z"%string]
           IconsExample.exe Examples.empty_world
           [(".rsrc\1033\ICON\1.ico"%string, 100);
            (".rsrc\1033\ICON\2.ico"%string, 50)]
           Examples.empty_world ".rsrc\1033\ICON\1.ico"%string 100).
  - reflexivity.
  - apply list_elem_of_In. simpl. tauto.
Defined.

(** X9. Once the list command has returned its exit status and its
    output, the Resource Lister raises nothing but [IndexError] and
    [ValueError], and only after the status zero: the parse of the output
    raises, and the first line that does not parse matches the ICON pattern
    and has fewer than three fields, which gives [IndexError], or has a
    third field from the end that [int] refuses, which gives [ValueError].
    Nothing is printed and nothing is changed. *)
Theorem listing_fault_is_index_or_value_error E path_7zip exe_path
    returncode output w e w' :
  seven_zip_list E path_7zip exe_path = (returncode, output) →
  find_icons_in_exe E path_7zip exe_path w = (Raise e, w') →
  returncode = 0
  ∧ w' = w
  ∧ parse_listing output = Raise e
  ∧ ∃ pre line post,
      Py.split_lines output = pre ++ line :: post
      ∧ Forall (λ l, is_ok (parse_line l) = true) pre
      ∧ re_search_icon line = true
      ∧ (e = IndexError ∧ (length (Py.split line) < 3)%nat
         ∨ e = ValueError
           ∧ ∃ size_field,
               Py.getitem (Py.split line) (-3) = Ok size_field
               ∧ Py.int size_field = Raise ValueError).
Proof.
  unfold find_icons_in_exe. intros ->.
  case_decide as Hrc; [done|].
  assert (returncode = 0) as -> by lia.
  unfold lift. intros [= Hparse <-]. split_and!; [done..|].
  unfold parse_listing in Hparse.
  destruct (parse_lines _ _) as [found|err] eqn:Hlines; [done|].
  simpl in Hparse. injection Hparse as ->.
  apply parse_lines_first_raise in Hlines
    as (pre & line & post & Hsplit & Hpre & Hline).
  apply parse_line_raise in Hline as [Hm Hkind].
  exists pre, line, post. by split_and!.
Qed.

Lemma listing_fault_is_index_or_value_error_witness :
  0 = 0
  ∧ Examples.empty_world = Examples.empty_world
  ∧ parse_listing MalformedExample.listing = Raise IndexError
  ∧ ∃ pre line post,
      Py.split_lines MalformedExample.listing = pre ++ line :: post
      ∧ Forall (λ l, is_ok (parse_line l) = true) pre
      ∧ re_search_icon line = true
      ∧ (IndexError = IndexError ∧ (length (Py.split line) < 3)%nat
         ∨ IndexError = ValueError
           ∧ ∃ size_field,
               Py.getitem (Py.split line) (-3) = Ok size_field
               ∧ Py.int size_field = Raise ValueError).
Proof.
  apply (listing_fault_is_index_or_value_error MalformedExample.env
           ["7z"%string] IconsExample.exe 0 MalformedExample.listing
           Examples.empty_world IndexError Examples.empty_world).
  - reflexivity.
  - reflexivity.
Defined.

(** ** Resource Extractor *)



(** ** The loops of a run: where files, faults and lines come from *)

Section loop_model_origins.
Context (E : externals) (path_7zip : path) (output_dir_path tmp : path).

Local Abbreviation loop := (loop_model E path_7zip output_dir_path tmp).
Local Abbreviation attempt_at exe_path :=
  (λ e : icon_entry, attempt_of E path_7zip exe_path e.1).

Ltac model_step := cbn [loop_model]; cbv zeta.
Ltac model_norm :=
  rewrite ?saved_before, ?attempted_before, ?o_printed_before, ?o_out_before,
    ?o_result_before, ?o_staging_before.

Lemma attempt_staged_inv exe_path inner nm icon data guessed :
  attempt_of E path_7zip exe_path inner = Staged nm icon data guessed →
  seven_zip_extract E path_7zip exe_path inner = (0, data)
  ∧ staged_suffix E inner data (Pathlib.suffix icon).
Proof.
  intros Hatt. pose proof Hatt as (Hnm & _ & _)%attempt_staged.
  revert Hatt Hnm. unfold attempt_of, staged_suffix.
  destruct (seven_zip_extract E path_7zip exe_path inner)
    as [returncode data'].
  case_decide as Hrc; [done|]. assert (returncode = 0) as -> by lia.
  destruct (denotes_directory _); [done|].
  cbv zeta. case_decide as Hsfx.
  - destruct (imghdr_what E data') as [fmt|] eqn:Hfmt; [|done].
    intros [= <- <- <- <-] Hnm. split; [done|].
    exists fmt. split; [done|]. by apply suffix_guessed.
  - by intros [= <- <- <- <-] _.
Qed.

Lemma resolved_target_saved_as (out : gmap string string) exe_path c :
  Pathlib.name exe_path ≠ EmptyString → proper_suffix c →
  saved_as exe_path c
    (resolved_target out (Pathlib.stem (Pathlib.name exe_path) +:+ c)).
Proof.
  intros Hname Hc.
  destruct (resolved_target_proper out (Pathlib.stem (Pathlib.name exe_path))
              c (stem_nonempty _ Hname) Hc)
    as [_ [Heq|(_ & k & Hk & Heq & _)]].
  - by left.
  - right. by exists k.
Qed.

(** Every file of the output directory after the loop was there before or
    holds the bytes of an entry that was staged, under the stem of the
    executable and the suffix of the staged file. *)
Lemma loop_model_new_files largest exe_path entries :
  Pathlib.name exe_path ≠ EmptyString →
  ∀ file_index num_icons out d t data,
    o_out (loop largest exe_path file_index entries num_icons out d) !! t
    = Some data →
    out !! t = Some data
    ∨ ∃ inner size nm icon guessed,
        (inner, size) ∈ entries
        ∧ attempt_of E path_7zip exe_path inner = Staged nm icon data guessed
        ∧ saved_as exe_path (Pathlib.suffix icon) t.
Proof.
  intros Hname.
  induction entries as [|[inner size] rest IH];
    intros file_index num_icons out d t data; model_step; [by left|].
  assert (∀ P : string → Z → string → string → bool → Prop,
            (∃ inner' size' nm icon guessed,
               (inner', size') ∈ rest ∧ P inner' size' nm icon guessed) →
            ∃ inner' size' nm icon guessed,
              (inner', size') ∈ (inner, size) :: rest
              ∧ P inner' size' nm icon guessed) as Hrest.
  { intros P (inner' & size' & nm & icon & guessed & Hin & HP).
    exists inner', size', nm, icon, guessed. split; [by right|done]. }
  destruct (attempt_of E path_7zip exe_path inner)
    as [| |nm data0|nm icon data0 guessed] eqn:Hatt; model_norm.
  - intros [?|?]%IH; [by left|right; by apply Hrest].
  - by left.
  - intros [?|?]%IH; [by left|right; by apply Hrest].
  - set (t0 := resolved_target out _).
    assert (<[t0 := data0]> out !! t = Some data →
            out !! t = Some data
            ∨ ∃ inner' size' nm' icon' guessed',
                (inner', size') ∈ (inner, size) :: rest
                ∧ attempt_of E path_7zip exe_path inner'
                  = Staged nm' icon' data guessed'
                ∧ saved_as exe_path (Pathlib.suffix icon') t) as Hhere.
    { intros [[<- <-]|[_ ?]]%lookup_insert_Some; [|by left].
      right. exists inner, size, nm, icon, guessed.
      split_and!; [by left|done|].
      apply resolved_target_saved_as; [done|].
      by apply attempt_staged in Hatt as (_ & ? & _). }
    destruct largest; [exact Hhere|].
    intros [?|?]%IH; [by apply Hhere|right; by apply Hrest].
Qed.

(** The loop raises only when the sniffer is asked to open a directory. *)
Lemma loop_model_raise largest exe_path entries :
  ∀ file_index num_icons out d e,
    o_result (loop largest exe_path file_index entries num_icons out d)
    = Raise e →
    e = OSError
    ∧ ∃ entry, entry ∈ entries
               ∧ opens_directory (attempt_at exe_path entry) = true.
Proof.
  induction entries as [|[inner size] rest IH];
    intros file_index num_icons out d e; model_step; [done|].
  assert (∀ e', (e' = OSError
                 ∧ ∃ entry, entry ∈ rest
                            ∧ opens_directory (attempt_at exe_path entry) = true) →
                e' = OSError
                ∧ ∃ entry, entry ∈ (inner, size) :: rest
                           ∧ opens_directory (attempt_at exe_path entry) = true)
    as Hrest.
  { intros e' [-> (entry & Hin & Hopen)]. split; [done|].
    exists entry. split; [by right|done]. }
  destruct (attempt_of E path_7zip exe_path inner)
    as [| |nm data0|nm icon data0 guessed] eqn:Hatt; model_norm.
  - intros ?%IH. by apply Hrest.
  - intros [= <-]. split; [done|]. exists (inner, size).
    split; [by left|]. simpl. by rewrite Hatt.
  - intros ?%IH. by apply Hrest.
  - destruct largest; [done|]. intros ?%IH. by apply Hrest.
Qed.

(** Every file of the staging directory after the loop was there before
    or was left by an entry that the sniffer did not recognise. *)
Lemma loop_model_left_files largest exe_path entries :
  ∀ file_index num_icons out d nm,
    is_Some (o_staging (loop largest exe_path file_index entries num_icons
                          out d) !! nm) →
    is_Some (d !! nm)
    ∨ ∃ entry, entry ∈ entries
               ∧ leaves_file (attempt_at exe_path entry) = true.
Proof.
  induction entries as [|[inner size] rest IH];
    intros file_index num_icons out d x; model_step; [by left|].
  assert ((∃ entry, entry ∈ rest
                    ∧ leaves_file (attempt_at exe_path entry) = true) →
          ∃ entry, entry ∈ (inner, size) :: rest
                   ∧ leaves_file (attempt_at exe_path entry) = true)
    as Hrest.
  { intros (entry & Hin & Hleft). exists entry. split; [by right|done]. }
  destruct (attempt_of E path_7zip exe_path inner)
    as [| |nm data0|nm icon data0 guessed] eqn:Hatt; model_norm.
  - intros [?|?]%IH; [by left|right; by apply Hrest].
  - by left.
  - intros [_|?]%IH; [|right; by apply Hrest].
    right. exists (inner, size). split; [by left|]. simpl. by rewrite Hatt.
  - assert (is_Some (delete nm d !! x) → is_Some (d !! x)) as Hdel.
    { by intros [_ ?]%lookup_delete_is_Some. }
    destruct largest; [by left; apply Hdel|].
    intros [?|?]%IH; [by left; apply Hdel|right; by apply Hrest].
Qed.

(** The loop over the entries prints lines of its own kind only. *)
Lemma loop_model_lines largest exe_path entries :
  ∀ file_index num_icons out d,
    Forall (λ m, kind_of m = EntryLine)
      (o_printed (loop largest exe_path file_index entries num_icons out d)).
Proof.
  induction entries as [|[inner size] rest IH];
    intros file_index num_icons out d; model_step; [done|].
  destruct (attempt_of E path_7zip exe_path inner)
    as [| |nm data0|nm icon data0 guessed] eqn:Hatt; model_norm.
  - repeat constructor. apply IH.
  - by repeat constructor.
  - repeat constructor. apply IH.
  - apply Forall_app. split.
    + destruct guessed; by repeat constructor.
    + destruct largest; [done|apply IH].
Qed.

End loop_model_origins.

Section process_model_origins.
Context (E : externals) (path_7zip : path) (output_dir_path tmp : path)
  (largest : bool).

Local Abbreviation process :=
  (process_model E path_7zip output_dir_path tmp largest).
Local Abbreviation loop :=
  (loop_model E path_7zip output_dir_path tmp largest).
Local Abbreviation listing := (listing_of E path_7zip).

Ltac model_norm :=
  rewrite ?saved_before, ?attempted_before, ?o_printed_before, ?o_out_before,
    ?o_result_before, ?o_staging_before.

Lemma listing_of_raise exe_path e :
  listing exe_path = Raise e → e = IndexError ∨ e = ValueError.
Proof.
  unfold listing_of.
  destruct (seven_zip_list E path_7zip exe_path) as [returncode output].
  case_decide; [done|]. unfold parse_listing.
  destruct (parse_lines _ _) as [found|err] eqn:Hlines; [done|].
  simpl. intros [= <-].
  apply parse_lines_first_raise in Hlines as (_ & line & _ & _ & _ & Hline).
  apply parse_line_raise in Hline as [_ [[-> _]|[-> _]]]; auto.
Qed.

Lemma listing_printed_lines exe_path :
  Forall (λ m, kind_of m = ExecutableLine)
    (listing_printed E path_7zip exe_path).
Proof. unfold listing_printed. case_decide; by repeat constructor. Qed.

Lemma process_model_new_files exe_file_paths :
  (∀ exe_path, exe_path ∈ exe_file_paths →
     Pathlib.name exe_path ≠ EmptyString) →
  ∀ file_index num_icons out d t data,
    o_out (process file_index exe_file_paths num_icons out d) !! t
    = Some data →
    out !! t = Some data
    ∨ ∃ exe_path entries inner size nm icon guessed,
        exe_path ∈ exe_file_paths
        ∧ listing exe_path = Ok entries
        ∧ (inner, size) ∈ entries
        ∧ attempt_of E path_7zip exe_path inner = Staged nm icon data guessed
        ∧ saved_as exe_path (Pathlib.suffix icon) t.
Proof.
  induction exe_file_paths as [|exe_path rest IH];
    intros Hnames file_index num_icons out d t data; cbn [process_model];
    [by left|].
  assert (∀ exe', exe' ∈ rest → Pathlib.name exe' ≠ EmptyString) as Hnames'.
  { intros exe' Hin. apply Hnames. by right. }
  assert (∀ out' : gmap string string,
            (out' !! t = Some data
             ∨ ∃ exe' entries inner size nm icon guessed,
                 exe' ∈ rest
                 ∧ listing exe' = Ok entries
                 ∧ (inner, size) ∈ entries
                 ∧ attempt_of E path_7zip exe' inner
                   = Staged nm icon data guessed
                 ∧ saved_as exe' (Pathlib.suffix icon) t) →
            out' !! t = Some data
            ∨ ∃ exe' entries inner size nm icon guessed,
                exe' ∈ exe_path :: rest
                ∧ listing exe' = Ok entries
                ∧ (inner, size) ∈ entries
                ∧ attempt_of E path_7zip exe' inner
                  = Staged nm icon data guessed
                ∧ saved_as exe' (Pathlib.suffix icon) t) as Hlater.
  { intros out' [?|(exe' & entries & inner & size & nm & icon & guessed
                    & Hin & ?)]; [by left|].
    right. exists exe', entries, inner, size, nm, icon, guessed.
    split; [by right|done]. }
  destruct (listing exe_path) as [[|e icon_files]|err] eqn:Hl; model_norm.
  - intros ?%(IH Hnames'). by apply Hlater.
  - set (o := loop exe_path 1%nat (e :: icon_files) 0%nat out d).
    assert (o_out o !! t = Some data →
            out !! t = Some data
            ∨ ∃ exe' entries inner size nm icon guessed,
                exe' ∈ exe_path :: rest
                ∧ listing exe' = Ok entries
                ∧ (inner, size) ∈ entries
                ∧ attempt_of E path_7zip exe' inner
                  = Staged nm icon data guessed
                ∧ saved_as exe' (Pathlib.suffix icon) t) as Hhere.
    { intros [?|(inner & size & nm & icon & guessed & ? & ? & ?)]
        %loop_model_new_files; [by left| |apply Hnames; by left].
      right. exists exe_path, (e :: icon_files), inner, size, nm, icon, guessed.
      split_and!; [by left|done..]. }
    destruct (o_result o) as [n|err] eqn:Hr; [|exact Hhere].
    intros [?|?]%(IH Hnames')%Hlater; [by apply Hhere|by right].
  - by left.
Qed.

Lemma process_model_raise exe_file_paths :
  ∀ file_index num_icons out d e,
    o_result (process file_index exe_file_paths num_icons out d) = Raise e →
    ∃ exe_path,
      exe_path ∈ exe_file_paths
      ∧ ((e = IndexError ∨ e = ValueError) ∧ listing exe_path = Raise e
         ∨ e = OSError
           ∧ ∃ entries entry,
               listing exe_path = Ok entries ∧ entry ∈ entries
               ∧ opens_directory (attempt_of E path_7zip exe_path entry.1)
                 = true).
Proof.
  induction exe_file_paths as [|exe_path rest IH];
    intros file_index num_icons out d e; cbn [process_model]; [done|].
  assert (∀ P : path → Prop,
            (∃ exe', exe' ∈ rest ∧ P exe') →
            ∃ exe', exe' ∈ exe_path :: rest ∧ P exe') as Hrest.
  { intros P (exe' & Hin & HP). exists exe'. split; [by right|done]. }
  destruct (listing exe_path) as [[|entry icon_files]|err] eqn:Hl; model_norm.
  - intros ?%IH. by apply Hrest.
  - destruct (o_result (loop _ _ _ _ _ _)) as [n|err] eqn:Hr.
    + intros ?%IH. by apply Hrest.
    + simpl. intros [= <-].
      apply loop_model_raise in Hr as (-> & bad & Hin & Hopen).
      exists exe_path. split; [by left|]. right. split; [done|].
      by exists (entry :: icon_files), bad.
  - simpl. intros [= <-]. exists exe_path. split; [by left|]. left.
    split; [by eapply listing_of_raise|done].
Qed.

Lemma process_model_left_files exe_file_paths :
  ∀ file_index num_icons out d nm,
    is_Some (o_staging (process file_index exe_file_paths num_icons out d)
               !! nm) →
    is_Some (d !! nm)
    ∨ ∃ exe_path entries entry,
        exe_path ∈ exe_file_paths ∧ listing exe_path = Ok entries
        ∧ entry ∈ entries
        ∧ leaves_file (attempt_of E path_7zip exe_path entry.1) = true.
Proof.
  induction exe_file_paths as [|exe_path rest IH];
    intros file_index num_icons out d nm; cbn [process_model]; [by left|].
  assert (∀ d' : gmap string string,
            (is_Some (d' !! nm)
             ∨ ∃ exe' entries entry,
                 exe' ∈ rest ∧ listing exe' = Ok entries ∧ entry ∈ entries
                 ∧ leaves_file (attempt_of E path_7zip exe' entry.1) = true) →
            is_Some (d' !! nm)
            ∨ ∃ exe' entries entry,
                exe' ∈ exe_path :: rest ∧ listing exe' = Ok entries
                ∧ entry ∈ entries
                ∧ leaves_file (attempt_of E path_7zip exe' entry.1) = true)
    as Hlater.
  { intros d' [?|(exe' & entries & entry & Hin & ?)]; [by left|].
    right. exists exe', entries, entry. split; [by right|done]. }
  destruct (listing exe_path) as [[|e icon_files]|err] eqn:Hl; model_norm.
  - intros ?%IH. by apply Hlater.
  - set (o := loop exe_path 1%nat (e :: icon_files) 0%nat out d).
    assert (is_Some (o_staging o !! nm) →
            is_Some (d !! nm)
            ∨ ∃ exe' entries entry,
                exe' ∈ exe_path :: rest ∧ listing exe' = Ok entries
                ∧ entry ∈ entries
                ∧ leaves_file (attempt_of E path_7zip exe' entry.1) = true)
      as Hhere.
    { intros [?|(entry & ? & ?)]%loop_model_left_files; [by left|].
      right. exists exe_path, (e :: icon_files), entry.
      split_and!; [by left|done..]. }
    destruct (o_result o) as [n|err] eqn:Hr; [|exact Hhere].
    intros [?|?]%IH%Hlater; [by apply Hhere|by right].
  - by left.
Qed.

(** The loop over the executables prints its own lines and those of the
    loop over the entries. *)
Lemma process_model_lines exe_file_paths :
  ∀ file_index num_icons out d,
    Forall (λ m, kind_of m = ExecutableLine ∨ kind_of m = EntryLine)
      (o_printed (process file_index exe_file_paths num_icons out d)).
Proof.
  assert (∀ exe_path,
            Forall (λ m, kind_of m = ExecutableLine ∨ kind_of m = EntryLine)
              (listing_printed E path_7zip exe_path)) as Hlisting.
  { intros exe_path. eapply Forall_impl; [apply listing_printed_lines|].
    by left. }
  induction exe_file_paths as [|exe_path rest IH];
    intros file_index num_icons out d; cbn [process_model]; [done|].
  destruct (listing exe_path) as [[|e icon_files]|err] eqn:Hl; model_norm.
  - apply Forall_app. split; [|apply IH].
    constructor; [by left|]. apply Forall_app. split; [done|].
    constructor; [by left|done].
  - apply Forall_app. split.
    + constructor; [by left|]. apply Forall_app. split; [done|].
      eapply Forall_impl; [apply loop_model_lines|]. by right.
    + destruct (o_result _); [apply IH|done].
  - cbn [o_printed]. constructor; [by left|done].
Qed.

Lemma announced_app l1 l2 : announced (l1 ++ l2) = announced l1 ++ announced l2.
Proof. apply omap_app. Qed.

Lemma announced_not_executable l :
  Forall (λ m, ∀ i exe, m ≠ MsgExecutable i exe) l → announced l = [].
Proof.
  induction 1 as [|m l Hm _ IH]; [done|]. unfold announced. simpl.
  destruct m; try done. by destruct (Hm file_index exe).
Qed.

Lemma announced_listing_printed exe_path :
  announced (listing_printed E path_7zip exe_path) = [].
Proof. unfold listing_printed. by case_decide. Qed.

Lemma announced_loop exe_path file_index entries num_icons out d :
  announced (o_printed (loop exe_path file_index entries num_icons out d)) = [].
Proof.
  apply announced_not_executable.
  eapply Forall_impl; [apply loop_model_lines|].
  intros m Hm i exe ->. done.
Qed.

(** When the loop over the executables returns, it has announced every
    executable once, in order and numbered from [file_index]. *)
Lemma process_model_announced exe_file_paths :
  ∀ file_index num_icons out d,
    let o := process file_index exe_file_paths num_icons out d in
    is_ok (o_result o) = true →
    announced (o_printed o) = enumerate file_index exe_file_paths.
Proof.
  induction exe_file_paths as [|exe_path rest IH];
    intros file_index num_icons out d; cbn [process_model]; cbv zeta;
    [done|].
  destruct (listing exe_path) as [[|e icon_files]|err] eqn:Hl; model_norm.
  - intros Hr. cbn [enumerate]. rewrite <-(IH (S file_index) num_icons out d Hr).
    change (MsgExecutable file_index exe_path :: ?l)
      with ([MsgExecutable file_index exe_path] ++ l).
    by rewrite !announced_app, announced_listing_printed.
  - set (o := loop exe_path 1%nat (e :: icon_files) 0%nat out d).
    destruct (o_result o) as [n|err] eqn:Hr; [|done].
    intros Hr'. cbn [enumerate].
    rewrite <-(IH (S file_index) (num_icons + n)%nat (o_out o) (o_staging o) Hr').
    change (MsgExecutable file_index exe_path :: ?l)
      with ([MsgExecutable file_index exe_path] ++ l).
    rewrite !announced_app, announced_listing_printed.
    unfold o. by rewrite announced_loop.
  - done.
Qed.

(** The loop over the executables returns when every listing parses and
    no entry makes the sniffer open a directory. *)
Lemma process_model_returns exe_file_paths :
  ∀ file_index num_icons out d,
    (∀ exe_path, exe_path ∈ exe_file_paths →
       ∃ entries,
         listing exe_path = Ok entries
         ∧ Forall (λ e, opens_directory
                          (attempt_of E path_7zip exe_path e.1) = false)
             entries) →
    is_ok (o_result (process file_index exe_file_paths num_icons out d))
    = true.
Proof.
  induction exe_file_paths as [|exe_path rest IH];
    intros file_index num_icons out d Hall; cbn [process_model]; [done|].
  assert (∀ exe', exe' ∈ rest →
            ∃ entries,
              listing exe' = Ok entries
              ∧ Forall (λ e, opens_directory
                               (attempt_of E path_7zip exe' e.1) = false)
                  entries) as Hall'.
  { intros exe' Hin. apply Hall. by right. }
  destruct (Hall exe_path) as (entries & Hl & Hno); [by left|].
  rewrite Hl. destruct entries as [|e icon_files]; model_norm.
  - by apply IH.
  - pose proof (loop_model_returns E path_7zip output_dir_path tmp largest
                  exe_path (e :: icon_files) 1%nat 0%nat out d Hno) as Hr.
    destruct (o_result _) as [n|err]; [by apply IH|done].
Qed.

End process_model_origins.

(** With the flag for the largest icon, no more icons are saved than there
    are executables. *)
Lemma process_model_largest E path_7zip output_dir_path tmp exe_file_paths :
  ∀ file_index num_icons out d,
    (length (saved (o_printed
                      (process_model E path_7zip output_dir_path tmp true
                         file_index exe_file_paths num_icons out d)))
     ≤ length exe_file_paths)%nat.
Proof.
  induction exe_file_paths as [|exe_path rest IH];
    intros file_index num_icons out d; cbn [process_model]; [done|].
  destruct (listing_of E path_7zip exe_path) as [[|e icon_files]|err] eqn:Hl;
    rewrite ?saved_before, ?o_printed_before.
  - rewrite saved_executable. cbn [length].
    etrans; [apply IH|lia].
  - rewrite saved_executable, length_app.
    destruct (loop_model_frame E path_7zip output_dir_path tmp true exe_path
                (e :: icon_files) 1%nat 0%nat out d) as (_ & _ & _ & Hone).
    specialize (Hone eq_refl). cbn [length].
    destruct (o_result _) as [n|err].
    + specialize (IH (S file_index) (num_icons + n)%nat
                    (o_out (loop_model E path_7zip output_dir_path tmp true
                              exe_path 1 (e :: icon_files) 0 out d))
                    (o_staging (loop_model E path_7zip output_dir_path tmp true
                                  exe_path 1 (e :: icon_files) 0 out d))).
      lia.
    + cbn [o_printed]. change (length (saved [])) with 0%nat. lia.
  - cbn [o_printed].
    rewrite <-(app_nil_r (listing_printed _ _ _)), saved_executable.
    simpl. lia.
Qed.

(** ** A run: what it finds, saves, prints and how it ends *)

Section run_origins.
Context (E : externals).

Lemma elem_of_executables_of input_paths exe_path :
  exe_path ∈ executables_of E input_paths ↔
  exe_path ∈ collected E (resolve E <$> input_paths) {[ ".exe"%string ]}
               true true ∅.
Proof.
  unfold executables_of. by rewrite (set_order_perm E), elem_of_elements.
Qed.

Lemma executables_of_named input_paths exe_path :
  exe_path ∈ executables_of E input_paths →
  lower_suffix exe_path = ".exe"%string
  ∧ Pathlib.name exe_path ≠ EmptyString.
Proof.
  rewrite elem_of_executables_of, elem_of_collected, elem_of_empty.
  intros [[]|(p & subpath & _ & _ & _ & [Hext _]%elem_of_collect)].
  apply elem_of_singleton in Hext. split; [done|].
  intros Hname. unfold lower_suffix in Hext. by rewrite Hname in Hext.
Qed.

Lemma executables_of_found input_paths w :
  ∃ s,
    found_executables E (resolve E <$> input_paths) w
    = (Ok s, World (out_dir w) (temp_output w)
               (stdout w ++ missing E (resolve E <$> input_paths)))
    ∧ executables_of E input_paths ≡ₚ elements s
    ∧ length (executables_of E input_paths) = size s.
Proof.
  eexists. split; [apply find_files_with_extensions_collected|].
  unfold executables_of. split; [apply set_order_perm|].
  by rewrite (set_order_perm E).
Qed.

Lemma enumerated_lines mk i ps :
  (∀ j p, kind_of (mk j p) = HeaderLine) →
  Forall (λ m, kind_of m = HeaderLine) (enumerated mk i ps).
Proof.
  intros Hmk. revert i. induction ps as [|p ps IH]; intros i; simpl; [done|].
  constructor; [apply Hmk|apply IH].
Qed.

Lemma missing_lines ps : Forall (λ m, kind_of m = HeaderLine) (missing E ps).
Proof.
  induction ps as [|p ps IH]; simpl; [done|].
  destruct (path_exists E p); [done|by constructor].
Qed.

Lemma run_header_lines input_paths :
  Forall (λ m, kind_of m = HeaderLine) (run_header E input_paths).
Proof.
  unfold run_header. repeat (apply Forall_app; split);
    try (by repeat constructor);
    try apply missing_lines; by apply enumerated_lines.
Qed.

Lemma announced_run_header input_paths :
  announced (run_header E input_paths) = [].
Proof.
  apply announced_not_executable.
  eapply Forall_impl; [apply run_header_lines|].
  intros m Hm i exe ->. done.
Qed.

End run_origins.

(** X11. Every file that a run adds to the output directory holds the
    bytes that the extract command gave for an entry of the listing of an
    executable that was found; its name is the stem of that executable,
    plain or numbered, with the suffix of the entry's base name or, when
    the base name has none, the format that the sniffer read from the
    bytes. The suffix is never empty. *)
Theorem new_output_files_are_extracted_icons E path_7zip input_paths
    output_dir_path largest w t data :
  let w' := (run_extraction E path_7zip input_paths output_dir_path
               largest w).2 in
  out_dir w' !! t = Some data →
  out_dir w !! t = None →
  ∃ exe_path entries inner size c,
    exe_path ∈ executables_of E input_paths
    ∧ listing_of E path_7zip exe_path = Ok entries
    ∧ (inner, size) ∈ entries
    ∧ seven_zip_extract E path_7zip exe_path inner = (0, data)
    ∧ staged_suffix E inner data c
    ∧ proper_suffix c
    ∧ saved_as exe_path c t.
Proof.
  intros w'. unfold w'. rewrite run_extraction_out_dir. unfold run_model.
  intros Hnew Hold.
  apply process_model_new_files in Hnew
    as [Hnew|(exe_path & entries & inner & size & nm & icon & guessed
              & Hexe & Hl & Hin & Hatt & Hname)].
  - congruence.
  - exists exe_path, entries, inner, size, (Pathlib.suffix icon).
    destruct (attempt_staged_inv E path_7zip _ _ _ _ _ _ Hatt) as [Hx Hc].
    apply attempt_staged in Hatt as (_ & Hproper & _).
    by split_and!.
  - intros exe_path Hexe. by eapply executables_of_named.
Qed.

Lemma new_output_files_are_extracted_icons_witness :
  ∃ exe_path entries inner size c,
    exe_path ∈ executables_of IconsExample.env [["C:"; "d"]]%string
    ∧ listing_of IconsExample.env ["7z"%string] exe_path = Ok entries
    ∧ (inner, size) ∈ entries
    ∧ seven_zip_extract IconsExample.env ["7z"%string] exe_path inner
      = (0, "bytes of .rsrc\1033\ICON\2.ico"%string)
    ∧ staged_suffix IconsExample.env inner
        "bytes of .rsrc\1033\ICON\2.ico" c
    ∧ proper_suffix c
    ∧ saved_as exe_path c "app (2).ico".
Proof.
  apply (new_output_files_are_extracted_icons IconsExample.env ["7z"%string]
           [["C:"; "d"]]%string IconsExample.out false Examples.empty_world
           "app (2).ico"%string "bytes of .rsrc\1033\ICON\2.ico"%string).
  - reflexivity.
  - reflexivity.
Defined.



Section run_ends.
Context (E : externals) (path_7zip : path) (input_paths : list path)
  (output_dir_path : path) (largest : bool).

Local Abbreviation run :=
  (run_extraction E path_7zip input_paths output_dir_path largest).
Local Abbreviation model :=
  (run_model E path_7zip input_paths output_dir_path largest).

Lemma run_model_lines out :
  Forall (λ m, kind_of m ≠ SummaryLine ∧ kind_of m ≠ MainLine)
    (run_header E input_paths ++ o_printed (model out)).
Proof.
  apply Forall_app. split.
  - eapply Forall_impl; [apply run_header_lines|]. by intros m ->.
  - eapply Forall_impl; [apply process_model_lines|]. by intros m [-> | ->].
Qed.

(** What a run that raises leaves and why it raised. *)
Lemma run_extraction_raised w e w' :
  run w = (Raise e, w') →
  out_dir w' = o_out (model (out_dir w))
  ∧ temp_output w' = Some (o_staging (model (out_dir w)))
  ∧ stdout w' = stdout w ++ run_header E input_paths
                  ++ o_printed (model (out_dir w))
  ∧ ∃ exe_path,
      exe_path ∈ executables_of E input_paths
      ∧ ((e = IndexError ∨ e = ValueError)
         ∧ listing_of E path_7zip exe_path = Raise e
         ∨ e = OSError
           ∧ ∃ entries entry,
               listing_of E path_7zip exe_path = Ok entries
               ∧ entry ∈ entries
               ∧ (opens_directory (attempt_of E path_7zip exe_path entry.1)
                  = true
                  ∨ leaves_file (attempt_of E path_7zip exe_path entry.1)
                    = true)).
Proof.
  rewrite run_extraction_spec. cbv zeta.
  destruct (o_result (model (out_dir w))) as [n|err] eqn:Hr.
  - case_decide as Hst; [done|]. intros [= <- <-]. split_and!; [done..|].
    apply map_choose in Hst as (nm & data & Hnm).
    destruct (process_model_left_files E path_7zip output_dir_path
                (output_dir_path ++ ["temp-output"%string]) largest
                (executables_of E input_paths) 1%nat 0%nat (out_dir w) ∅ nm)
      as [[x Hx]|(exe_path & entries & entry & Hexe & Hl & Hin & Hleft)].
    + by exists data.
    + by rewrite lookup_empty in Hx.
    + exists exe_path. split; [done|]. right. split; [done|].
      exists entries, entry. auto.
  - intros [= <- <-]. split_and!; [done..|].
    destruct (process_model_raise E path_7zip output_dir_path
                (output_dir_path ++ ["temp-output"%string]) largest
                (executables_of E input_paths) 1%nat 0%nat (out_dir w) ∅ err Hr)
      as (exe_path & Hexe & [?|(-> & entries & entry & ? & ? & ?)]).
    + exists exe_path. split; [done|]. by left.
    + exists exe_path. split; [done|]. right. split; [done|].
      exists entries, entry. auto.
Qed.

Lemma run_extraction_printed w :
  ∃ new,
    stdout (run w).2 = stdout w ++ new
    ∧ Forall (λ m, kind_of m ≠ MainLine) new.
Proof.
  destruct (run w) as [[[]|e] w'] eqn:Hrun; cbn [snd].
  - apply run_extraction_returned in Hrun as (n & _ & _ & ->).
    eexists. split; [done|]. apply Forall_app. split.
    + eapply Forall_impl; [apply run_model_lines|]. by intros m [_ ?].
    + by repeat constructor.
  - apply run_extraction_raised in Hrun as (_ & _ & -> & _).
    eexists. split; [done|].
    eapply Forall_impl; [apply run_model_lines|]. by intros m [_ ?].
Qed.

End run_ends.

(** X13. When a run returns, the staging directory is gone and the last
    line is the only summary: its first number is the number of targets
    announced and of files added to the output directory, its second number
    is the number of executables found, each of which was announced once,
    in the order of the iteration and numbered from one. With the flag for
    the largest icon there are no more icons than executables. *)
Theorem run_summary_counts E path_7zip input_paths output_dir_path largest
    w w' :
  run_extraction E path_7zip input_paths output_dir_path largest w
  = (Ok (), w') →
  ∃ new num_icons s,
    stdout w' = stdout w ++ new ++ [MsgSummary num_icons (size s)]
    ∧ (found_executables E (resolve E <$> input_paths) w).1 = Ok s
    ∧ executables_of E input_paths ≡ₚ elements s
    ∧ Forall (λ m, kind_of m ≠ SummaryLine ∧ kind_of m ≠ MainLine) new
    ∧ num_icons = length (saved new)
    ∧ size (out_dir w') = (size (out_dir w) + num_icons)%nat
    ∧ announced new = enumerate 1 (executables_of E input_paths)
    ∧ temp_output w' = None
    ∧ (largest = true → (num_icons ≤ size s)%nat).
Proof.
  intros (n & Hr & Hst & ->)%run_extraction_returned.
  destruct (executables_of_found E input_paths w) as (s & Hfound & Hperm & Hlen).
  set (o := run_model E path_7zip input_paths output_dir_path largest
              (out_dir w)) in *.
  destruct (process_model_frame E path_7zip output_dir_path
              (output_dir_path ++ ["temp-output"%string]) largest
              (executables_of E input_paths) 1%nat 0%nat (out_dir w) ∅)
    as (_ & Hsize & Hn).
  fold (run_model E path_7zip input_paths output_dir_path largest (out_dir w))
    in Hsize, Hn.
  fold o in Hsize, Hn. specialize (Hn n Hr). simpl in Hn.
  exists (run_header E input_paths ++ o_printed o), n, s.
  cbn [out_dir temp_output stdout].
  rewrite saved_app, saved_run_header, announced_app, announced_run_header.
  cbn [app]. split_and!; try done.
  - by rewrite Hlen.
  - by rewrite Hfound.
  - apply run_model_lines.
  - by rewrite Hsize, Hn.
  - apply process_model_announced. fold (run_model E path_7zip input_paths
      output_dir_path largest (out_dir w)). fold o. by rewrite Hr.
  - intros ->. rewrite Hn, <-Hlen. apply process_model_largest.
Qed.

Lemma run_summary_counts_witness :
  ∃ new num_icons s,
    stdout (run_extraction IconsExample.env ["7z"%string] [["C:"; "d"]]%string
              IconsExample.out true Examples.empty_world).2
    = stdout Examples.empty_world ++ new ++ [MsgSummary num_icons (size s)]
    ∧ (found_executables IconsExample.env
         (resolve IconsExample.env <$> [["C:"; "d"]]%string)
         Examples.empty_world).1 = Ok s
    ∧ executables_of IconsExample.env [["C:"; "d"]]%string ≡ₚ elements s
    ∧ Forall (λ m, kind_of m ≠ SummaryLine ∧ kind_of m ≠ MainLine) new
    ∧ num_icons = length (saved new)
    ∧ size (out_dir (run_extraction IconsExample.env ["7z"%string]
                       [["C:"; "d"]]%string IconsExample.out true
                       Examples.empty_world).2)
      = (size (out_dir Examples.empty_world) + num_icons)%nat
    ∧ announced new
      = enumerate 1 (executables_of IconsExample.env [["C:"; "d"]]%string)
    ∧ temp_output (run_extraction IconsExample.env ["7z"%string]
                     [["C:"; "d"]]%string IconsExample.out true
                     Examples.empty_world).2 = None
    ∧ (true = true → (num_icons ≤ size s)%nat).
Proof.
  apply (run_summary_counts IconsExample.env ["7z"%string]
           [["C:"; "d"]]%string IconsExample.out true Examples.empty_world).
  reflexivity.
Defined.



(** X15. A staging directory that an earlier run left behind is put in
    the trash before anything is extracted: the run ends as it does when no
    staging directory exists, whatever the one it found held. *)
Theorem stale_staging_is_discarded E path_7zip input_paths output_dir_path
    largest out_files staging printed :
  run_extraction E path_7zip input_paths output_dir_path largest
    (World out_files staging printed)
  = run_extraction E path_7zip input_paths output_dir_path largest
      (World out_files None printed).
Proof. by rewrite !run_extraction_spec. Qed.

(** ** The main block *)

Section main_facts.
Context (E : externals).

Lemma try_find_7zip_none :
  try_find_7zip E = None ↔
  which_7z E = None
  ∧ path_exists E ["C:"; "Program Files"; "7-Zip"; "7z.exe"]%string = false
  ∧ path_exists E ["C:"; "Program Files (x86)"; "7-Zip"; "7z.exe"]%string
    = false.
Proof.
  unfold try_find_7zip.
  destruct (which_7z E); [by split; [|intros [? _]]|].
  destruct (path_exists E ["C:"; "Program Files"; "7-Zip"; "7z.exe"]%string);
    [by split; [|intros (_ & ? & _)]|].
  destruct (path_exists E ["C:"; "Program Files (x86)"; "7-Zip"; "7z.exe"]%string);
    [by split; [|intros (_ & _ & ?)]|done].
Qed.

(** The main block, by the program it settles on and the end of the
    run. *)
Lemma main_spec args w :
  main E args w
  = let started := World (out_dir w) (temp_output w)
                     (stdout w ++ [MsgStarted]) in
    match chosen_7zip E args with
    | None =>
        (Raise (SystemExit 1),
         World (out_dir w) (temp_output w)
           (stdout w ++ [MsgStarted; MsgSevenZipNotFound]))
    | Some path_7zip =>
        let r := run_extraction E path_7zip (arg_paths args)
                   (default (resolve E ["."; "icons"]%string)
                      (arg_output args))
                   (arg_largest args) started in
        match r.1 with
        | Ok _ =>
            (Ok (), World (out_dir r.2) (temp_output r.2)
                      (stdout r.2 ++ [MsgFinished]))
        | Raise e => (Raise e, r.2)
        end
    end.
Proof.
  unfold main, chosen_7zip. rewrite bind_print. cbv zeta.
  destruct (arg_seven_zip args) as [p|]; [|destruct (try_find_7zip E) as [p|]].
  - cbv [mbind M_bind mret M_ret print].
    by destruct (run_extraction _ _ _ _ _ _) as [[[]|e] w'].
  - cbv [mbind M_bind mret M_ret print].
    by destruct (run_extraction _ _ _ _ _ _) as [[[]|e] w'].
  - cbv [mbind M_bind mret M_ret print raise]. simpl.
    by rewrite <-(assoc_L (++)).
Qed.

Lemma run_extraction_raise_kinds path_7zip input_paths output_dir_path
    largest w e :
  (run_extraction E path_7zip input_paths output_dir_path largest w).1
  = Raise e →
  e = IndexError ∨ e = ValueError ∨ e = OSError.
Proof.
  destruct (run_extraction _ _ _ _ _ _) as [r w'] eqn:Hrun. simpl.
  intros ->.
  apply run_extraction_raised
    in Hrun as (_ & _ & _ & exe_path & _ & [[[?|?] _]|[? _]]); auto.
Qed.

End main_facts.

(** X16. The main block calls [exit(1)], which raises [SystemExit] with
    the code 1, exactly when no 7-Zip program is given on the command line,
    none is on the search path and neither of the two installation paths
    exists; it has then printed that it started and that it did not find
    the program, and has done nothing else. *)
Theorem main_exits_exactly_without_7zip E args w :
  ((main E args w).1 = Raise (SystemExit 1)
   ↔ arg_seven_zip args = None
     ∧ which_7z E = None
     ∧ path_exists E ["C:"; "Program Files"; "7-Zip"; "7z.exe"]%string
       = false
     ∧ path_exists E ["C:"; "Program Files (x86)"; "7-Zip"; "7z.exe"]%string
       = false)
  ∧ ((main E args w).1 = Raise (SystemExit 1) →
     (main E args w).2
     = World (out_dir w) (temp_output w)
         (stdout w ++ [MsgStarted; MsgSevenZipNotFound])).
Proof.
  rewrite main_spec. cbv zeta. unfold chosen_7zip.
  rewrite <-try_find_7zip_none.
  destruct (arg_seven_zip args) as [p|];
    [|destruct (try_find_7zip E) as [p|] eqn:Hfind].
  3: { by split. }
  all: destruct (run_extraction _ _ _ _ _ _).1 as [[]|e] eqn:Hrun; simpl.
  all: try (apply run_extraction_raise_kinds in Hrun).
  all: split; [split; [|by intros [? ?]]|];
    intros [= ->]; try done; by destruct Hrun as [?|[?|?]].
Qed.

Lemma main_exits_exactly_without_7zip_witness :
  (main ShortcutExample.env
     (CliArgs None None false false [["C:"; "d"]]%string)
     Examples.empty_world).1 = Raise (SystemExit 1)
  ∧ (main ShortcutExample.env
       (CliArgs None None false false [["C:"; "d"]]%string)
       Examples.empty_world).2
    = World ∅ None [MsgStarted; MsgSevenZipNotFound]
  ∧ which_7z ShortcutExample.env = None.
Proof.
  pose proof (main_exits_exactly_without_7zip ShortcutExample.env
                (CliArgs None None false false [["C:"; "d"]]%string)
                Examples.empty_world)
    as [Hiff Hworld].
  split_and!.
  - apply Hiff. split_and!; reflexivity.
  - apply Hworld. reflexivity.
  - apply Hiff. reflexivity.
Defined.

(** X17. The first line that the main block prints says that the program
    started, and the line that says that it finished is printed exactly
    when the main block returns, as its last line; otherwise the main block
    ends with exit status 1 or with the [IndexError], [ValueError] or
    [OSError] of the run. *)
Theorem main_prints_finished_iff_it_returns E args w :
  ∃ new,
    stdout (main E args w).2 = stdout w ++ MsgStarted :: new
    ∧ (MsgFinished ∈ new ↔ (main E args w).1 = Ok ())
    ∧ ((main E args w).1 = Ok () → last new = Some MsgFinished)
    ∧ (∀ e, (main E args w).1 = Raise e →
         e = SystemExit 1 ∨ e = IndexError ∨ e = ValueError ∨ e = OSError).
Proof.
  rewrite main_spec. cbv zeta.
  destruct (chosen_7zip E args) as [path_7zip|].
  - set (started := World _ _ (stdout w ++ [MsgStarted])).
    destruct (run_extraction_printed E path_7zip (arg_paths args)
                (default (resolve E ["."; "icons"]%string) (arg_output args))
                (arg_largest args) started) as (new & Hout & Hlines).
    assert (MsgFinished ∉ new) as Hnot.
    { intros Hin. rewrite Forall_forall in Hlines. by destruct (Hlines _ Hin). }
    destruct (run_extraction _ _ _ _ _ _).1 as [[]|e] eqn:Hrun;
      cbn [fst snd stdout].
    + exists (new ++ [MsgFinished]). rewrite Hout. unfold started. simpl.
      split_and!.
      * by rewrite <-!(assoc_L (++)).
      * split; [done|]. intros _. apply elem_of_app. right. by left.
      * intros _. by rewrite last_snoc.
      * done.
    + exists new. rewrite Hout. unfold started. simpl.
      split_and!; try done.
      * by rewrite <-!(assoc_L (++)).
      * intros e' [= <-]. right.
        by apply run_extraction_raise_kinds in Hrun.
  - exists [MsgSevenZipNotFound]. simpl. split_and!; try done.
    + split; [|done].
      intros [?|[]%elem_of_nil]%elem_of_cons. done.
    + intros e [= <-]. by left.
Qed.

Lemma main_prints_finished_iff_it_returns_witness :
  (∃ new,
     stdout (main IconsExample.env
               (CliArgs (Some ["7z"%string]) (Some IconsExample.out) false
                  true [["C:"; "d"]]%string) Examples.empty_world).2
     = stdout Examples.empty_world ++ MsgStarted :: new
     ∧ MsgFinished ∈ new
     ∧ last new = Some MsgFinished)
  ∧ (OSError = SystemExit 1 ∨ OSError = IndexError ∨ OSError = ValueError
     ∨ OSError = OSError).
Proof.
  split.
  - destruct (main_prints_finished_iff_it_returns IconsExample.env
                (CliArgs (Some ["7z"%string]) (Some IconsExample.out) false
                   true [["C:"; "d"]]%string) Examples.empty_world)
      as (new & Hout & Hiff & Hlast & _).
    exists new. split_and!.
    + exact Hout.
    + apply Hiff. reflexivity.
    + apply Hlast. reflexivity.
  - destruct (main_prints_finished_iff_it_returns SniffExample.env
                (CliArgs (Some ["7z"%string]) (Some IconsExample.out) false
                   false [["C:"; "d"]]%string) Examples.empty_world)
      as (new & _ & _ & _ & Hexn).
    apply Hexn. reflexivity.
Defined.

(** ** Two runs with the same inputs *)

Section icons_of_loops.
Context (E : externals) (path_7zip : path) (output_dir_path tmp : path)
  (largest : bool).

Local Abbreviation loop :=
  (loop_model E path_7zip output_dir_path tmp largest).
Local Abbreviation process :=
  (process_model E path_7zip output_dir_path tmp largest).
Local Abbreviation in_output := (λ t : string, output_dir_path ++ [t]).

Ltac model_norm :=
  rewrite ?saved_before, ?attempted_before, ?o_printed_before, ?o_out_before,
    ?o_result_before, ?o_staging_before.

Lemma saved_icon_later (out out1 out2 : gmap string string) t i :
  out1 ⊆ out2 → saved_icon out out1 t i → saved_icon out out2 t i.
Proof.
  intros Hsub (Hname & Hfree & Hdata & [x Hx] & Hnum).
  unfold saved_icon. split_and!; [done|done| | |done].
  - eapply lookup_weaken; [exact Hdata|exact Hsub].
  - exists x. eapply lookup_weaken; [exact Hx|exact Hsub].
Qed.

Lemma saved_icon_earlier (out0 out out' : gmap string string) t i :
  out0 ⊆ out → saved_icon out out' t i → saved_icon out0 out' t i.
Proof.
  intros Hsub (Hname & Hfree & Hdata & Hbase & Hnum).
  unfold saved_icon. split_and!; [done| |done|done|].
  - eapply lookup_weaken_None; [exact Hfree|exact Hsub].
  - intros [x Hx]. apply Hnum. exists x.
    eapply lookup_weaken; [exact Hx|exact Hsub].
Qed.

Lemma saved_icon_here (out : gmap string string) exe_path c data :
  Pathlib.name exe_path ≠ EmptyString → proper_suffix c →
  let t := resolved_target out
             (Pathlib.stem (Pathlib.name exe_path) +:+ c) in
  saved_icon out (<[t := data]> out) t (Icon exe_path c data).
Proof.
  intros Hname Hc t.
  destruct (resolved_target_proper out (Pathlib.stem (Pathlib.name exe_path))
              c (stem_nonempty _ Hname) Hc)
    as [Hfree Hshape]. fold t in Hfree, Hshape.
  unfold saved_icon, saved_as, numbered_as, icon_base. simpl.
  split_and!.
  - destruct Hshape as [?|(_ & k & ? & ? & _)]; [by left|right; eauto].
  - done.
  - by rewrite lookup_insert_eq.
  - apply lookup_insert_is_Some'.
    destruct Hshape as [->|[? _]]; [by left|by right].
  - intros [x Hx]. destruct Hshape as [Heq|(_ & k & ? & ? & _)]; [|eauto].
    rewrite Heq in Hfree. congruence.
Qed.

(** The loop over the entries saves the icons of the executable, each
    under a name that was free, and ends in a fault exactly when the
    entries do. *)
Lemma loop_model_icons exe_path entries :
  Pathlib.name exe_path ≠ EmptyString →
  ∀ file_index num_icons out d,
    let o := loop exe_path file_index entries num_icons out d in
    is_ok (o_result o) = negb (faults E path_7zip largest exe_path entries)
    ∧ ∃ ts,
        saved (o_printed o) = in_output <$> ts
        ∧ Forall2 (saved_icon out (o_out o)) ts
            (icons_of E path_7zip largest exe_path entries).
Proof.
  intros Hname.
  induction entries as [|[inner size] rest IH];
    intros file_index num_icons out d; cbn [loop_model icons_of faults fst];
    cbv zeta.
  { split; [done|]. exists []. by split. }
  destruct (attempt_of E path_7zip exe_path inner)
    as [| |nm data0|nm staged data0 guessed] eqn:Hatt; model_norm.
  - destruct (IH (S file_index) num_icons out d) as (Hr & ts & Hs & Hts).
    split; [done|]. exists ts. by split.
  - split; [done|]. exists []. by split.
  - destruct (IH (S file_index) num_icons out (<[nm := data0]> d))
      as (Hr & ts & Hs & Hts).
    split; [done|]. exists ts. by split.
  - pose proof Hatt as (_ & Hproper & _)%attempt_staged.
    pose proof (saved_icon_here out exe_path (Pathlib.suffix staged) data0
                  Hname Hproper) as Hhere.
    cbv zeta in Hhere.
    set (t := resolved_target out _) in *.
    rewrite saved_announcement.
    destruct largest.
    + split; [done|]. exists [t]. split; [done|].
      constructor; [exact Hhere|constructor].
    + destruct (IH (S file_index) (S num_icons) (<[t := data0]> out)
                  (delete nm d)) as (Hr & ts & Hs & Hts).
      split; [done|]. exists (t :: ts). split; [by rewrite Hs|].
      destruct (loop_model_frame E path_7zip output_dir_path tmp false
                  exe_path rest (S file_index) (S num_icons)
                  (<[t := data0]> out) (delete nm d)) as (Hsub & _).
      constructor.
      * eapply saved_icon_later; [exact Hsub|exact Hhere].
      * eapply Forall2_impl; [exact Hts|].
        intros t' i. apply saved_icon_earlier.
        apply insert_subseteq. by destruct Hhere as (_ & ? & _).
Qed.

Lemma process_model_icons exe_file_paths :
  (∀ exe_path, exe_path ∈ exe_file_paths →
     Pathlib.name exe_path ≠ EmptyString) →
  ∀ file_index num_icons out d,
    let o := process file_index exe_file_paths num_icons out d in
    ∃ ts,
      saved (o_printed o) = in_output <$> ts
      ∧ Forall2 (saved_icon out (o_out o)) ts
          (icons_of_run E path_7zip largest exe_file_paths).
Proof.
  induction exe_file_paths as [|exe_path rest IH];
    intros Hnames file_index num_icons out d;
    cbn [process_model icons_of_run]; cbv zeta.
  { exists []. by split. }
  assert (∀ exe', exe' ∈ rest → Pathlib.name exe' ≠ EmptyString) as Hnames'.
  { intros exe' Hin. apply Hnames. by right. }
  destruct (listing_of E path_7zip exe_path) as [[|e icon_files]|err] eqn:Hl;
    model_norm.
  - rewrite saved_executable.
    destruct (IH Hnames' (S file_index) num_icons out d) as (ts & Hs & Hts).
    exists ts. by split.
  - rewrite saved_executable.
    destruct (loop_model_icons exe_path (e :: icon_files)
                (Hnames exe_path ltac:(by left)) 1%nat 0%nat out d)
      as (Hr & ts & Hs & Hts).
    destruct (loop_model_frame E path_7zip output_dir_path tmp largest
                exe_path (e :: icon_files) 1%nat 0%nat out d) as (Hsub & _).
    set (o := loop exe_path 1%nat (e :: icon_files) 0%nat out d) in *.
    destruct (faults E path_7zip largest exe_path (e :: icon_files));
      destruct (o_result o) as [n|err] eqn:Hres; try discriminate Hr.
    + cbn [o_printed o_out]. rewrite !app_nil_r.
      exists ts. by split.
    + destruct (IH Hnames' (S file_index) (num_icons + n)%nat (o_out o)
                  (o_staging o)) as (ts' & Hs' & Hts').
      destruct (process_model_frame E path_7zip output_dir_path tmp largest
                  rest (S file_index) (num_icons + n)%nat (o_out o)
                  (o_staging o)) as (Hsub' & _).
      exists (ts ++ ts'). split; [by rewrite Hs, Hs', fmap_app|].
      apply Forall2_app.
      * eapply Forall2_impl; [exact Hts|].
        intros t i. by apply saved_icon_later.
      * eapply Forall2_impl; [exact Hts'|].
        intros t i. by apply saved_icon_earlier.
  - cbn [o_printed o_out].
    rewrite <-(app_nil_r (listing_printed _ _ _)), saved_executable.
    exists []. by split.
Qed.

End icons_of_loops.

Section two_runs.
Context (E : externals) (path_7zip : path) (input_paths : list path)
  (output_dir_path : path) (largest : bool).

Local Abbreviation run :=
  (run_extraction E path_7zip input_paths output_dir_path largest).
Local Abbreviation model :=
  (run_model E path_7zip input_paths output_dir_path largest).
Local Abbreviation icons :=
  (icons_of_run E path_7zip largest (executables_of E input_paths)).
Local Abbreviation in_output := (λ t : string, output_dir_path ++ [t]).

(** What a run prints. *)
Lemma run_extraction_stdout w :
  ∃ new,
    stdout (run w).2 = stdout w ++ new
    ∧ saved new = saved (o_printed (model (out_dir w))).
Proof.
  rewrite run_extraction_spec. cbv zeta.
  destruct (o_result _) as [n|err]; [case_decide|]; cbn [snd stdout].
  - exists ((run_header E input_paths ++ o_printed (model (out_dir w)))
            ++ [MsgSummary n (length (executables_of E input_paths))]).
    split; [by rewrite !(assoc_L (++))|].
    rewrite !saved_app, saved_run_header. simpl. by rewrite app_nil_r.
  - eexists. split; [done|]. by rewrite saved_app, saved_run_header.
  - eexists. split; [done|]. by rewrite saved_app, saved_run_header.
Qed.

(** The icons that a run saves are those that the collaborators give for
    the executables that were found. *)
Lemma run_extraction_icons w :
  ∃ new ts,
    stdout (run w).2 = stdout w ++ new
    ∧ saved new = in_output <$> ts
    ∧ Forall2 (saved_icon (out_dir w) (out_dir (run w).2)) ts icons.
Proof.
  destruct (run_extraction_stdout w) as (new & Hout & Hsaved).
  destruct (process_model_icons E path_7zip output_dir_path
              (output_dir_path ++ ["temp-output"%string]) largest
              (executables_of E input_paths)
              (λ exe_path Hexe,
                 proj2 (executables_of_named E input_paths exe_path Hexe))
              1%nat 0%nat (out_dir w) ∅)
    as (ts & Hs & Hts).
  exists new, ts. rewrite run_extraction_out_dir. by split_and!; [|rewrite Hsaved|].
Qed.

(** How a run ends does not depend on the world it starts from. *)
Lemma run_extraction_result w w' : (run w).1 = (run w').1.
Proof.
  rewrite !run_extraction_spec. cbv zeta.
  destruct (process_model_out_independent E path_7zip output_dir_path
              (output_dir_path ++ ["temp-output"%string]) largest
              (executables_of E input_paths) (out_dir w') 1%nat 0%nat
              (out_dir w) ∅) as (Hr & Hst & _).
  fold (model (out_dir w)) in Hr, Hst. fold (model (out_dir w')) in Hr, Hst.
  rewrite Hr, Hst.
  destruct (o_result (model (out_dir w'))); [|done].
  by destruct (decide (o_staging (model (out_dir w')) = ∅)).
Qed.

Lemma saved_icon_numbered (out0 out1 out2 : gmap string string) first second
    (l : list icon) :
  Forall2 (saved_icon out0 out1) first l →
  Forall2 (saved_icon out1 out2) second l →
  Forall2 (λ t i, numbered_as (icon_exe i) (icon_suffix i) t
                  ∧ out1 !! t = None
                  ∧ out2 !! t = Some (icon_data i)) second l.
Proof.
  intros Hfirst. revert second.
  induction Hfirst as [|t i first l (_ & _ & _ & Hbase & _) _ IH];
    intros second Hsecond.
  - apply Forall2_nil_inv_r in Hsecond as ->. constructor.
  - apply Forall2_cons_inv_r in Hsecond
      as (t' & second' & (_ & Hfree & Hdata & _ & Hnum) & Hrest & ->).
    constructor; [|by apply IH]. split_and!; [by apply Hnum|done..].
Qed.

End two_runs.


